(** * Serialization benchmark harness: model and properties

    A shallow embedding of the benchmark harness of
    [serialization_libs_test]: the web page ([web/src/test.ts], two
    revisions) and the React Native screen ([SerializationTest.tsx], two
    revisions).  Every test function has the same protocol: read the clock,
    serialize [ITERATIONS] fixtures, read the clock twice, deserialize all
    the payloads, read the clock, and return a [TestResult].

    The codecs (JSON, MessagePack, FlatBuffers, Avro), the clock
    [performance.now] and [Number.prototype.toFixed] are external to the
    repository: they are the fields of the class [Externals] and the
    variable [clock], and the theorems quantify over them.  Two instances
    of [Externals] are given to run the harness on: [StandIn], with toy
    codecs, and [Wire], with the FlatBuffers builder and accessors laid
    out byte by byte. *)

From Stdlib Require Import ZArith List Bool Lia String Ascii.
From Stdlib Require Import Floats.SpecFloat.
From Stdlib Require DecimalString.
From stdpp Require Import base list.

Local Open Scope Z_scope.

(** ** JavaScript numbers

    Time stamps are IEEE 754 binary64 values: [spec_float] with the
    operations of [SpecFloat] at precision 53.  Loop counters, the field
    [foo_number], lengths and sums are integer-valued doubles far below
    2^53, where double arithmetic is exact: they are modelled as [nat] and
    [Z]. *)
Module Number.

Definition number : Type := spec_float.

Definition prec : Z := 53.
Definition emax : Z := 1024.

Definition add : number -> number -> number := SFadd prec emax.
Definition sub : number -> number -> number := SFsub prec emax.
Definition div : number -> number -> number := SFdiv prec emax.

(** [a <= b] as JavaScript evaluates it: false as soon as one side is NaN. *)
Definition leb : number -> number -> bool := SFleb.

(** [a === b] on numbers. *)
Definition eqb : number -> number -> bool := SFeqb.

Definition zero : number := S754_zero false.

(** A number in a condition: [0], [-0] and [NaN] count as false. *)
Definition truthy (x : number) : bool :=
  match x with
  | S754_zero _ | S754_nan => false
  | _ => true
  end.

(** The double nearest to an integer (exact below 2^53). *)
Definition of_Z (z : Z) : number := binary_normalize prec emax z 0 false.

(** A double as the clock returns it: neither NaN nor infinite, and in the
    canonical representation every binary64 value has. *)
Definition finite (x : number) : bool :=
  match x with
  | S754_zero _ => true
  | S754_finite _ m e => bounded prec emax m e
  | _ => false
  end.

(** Sign of a double that is at least zero: [+0], [-0], a positive finite
    value or [+infinity]. *)
Definition nonneg (x : number) : bool := leb zero x.

End Number.

Import Number.

(** ** Data of the harness *)

Local Open Scope string_scope.
Local Open Scope list_scope.
Local Open Scope Z_scope.

(** [interface TestData { foo: string; foo_number: number }] *)
Record TestData := { foo : string; foo_number : Z }.

(** [interface TestResult] *)
Record TestResult := {
  format : string;
  serializeTime : number;
  deserializeTime : number;
  totalTime : number;
  iterations : nat
}.

(** Dynamically typed values: the bundled asset [5MB.json] and whatever
    [JSON.parse] and [decode] return for it. *)
#[local] Set Warnings "-register-all".
Inductive value :=
| VUndefined
| VNull
| VBool (b : bool)
| VNumber (n : number)
| VString (s : string)
| VArray (items : list value)
| VObject (fields : list (string * value)).
#[local] Set Warnings "register-all".

(** An encoded payload: a string for JSON, bytes for the binary formats. *)
Inductive payload :=
| Text (s : string)
| Bytes (b : list Byte.byte).

(** What a decoder call produced. *)
Inductive decoded :=
| Threw                                         (* the decoder raised *)
| Data (d : TestData)                           (* [... as TestData] *)
| Table (foo : option string) (fooNumber : Z)   (* accessors of the generated [TestData] table *)
| Any (v : value)                               (* large data set *)
| Persons (versions : list (option number))     (* accessors of the generated [PersonList] table *)
| Raw.                                          (* [new ByteBuffer] read by hand *)

(** One result card of the page or of the screen; the markup around the
    five interpolated texts is left out. *)
Record card := {
  card_format : string;
  card_serialize : string;
  card_deserialize : string;
  card_total : string;
  card_average : string
}.

(** Changes of the controls around the result list. *)
Inductive ui_change :=
| ButtonDisabled (b : bool)       (* [runButton.disabled = b] *)
| ButtonText (s : string)         (* [runButton.textContent = s] *)
| ResultsDisplay (s : string)     (* [resultsDiv.style.display = s] *)
| IsRunning (b : bool).           (* [setIsRunning(b)] *)

(** What a run does that can be seen from outside, in order. *)
Inductive event :=
| Now                                            (* [performance.now()] *)
| Serialize (p : payload)                        (* an encoder returned [p] *)
| Deserialize (p : payload) (d : decoded)        (* a decoder was given [p] *)
| Warn (msg : string)                            (* [console.warn] *)
| Log (args : list value)                        (* [console.log] *)
| Render (results : list TestResult) (cards : list card)
| Sleep (ms : Z)                                 (* [await] of a [setTimeout] promise *)
| Ui (c : ui_change).

(** ** Machine state and the monad of the harness

    [ticks] counts the clock readings so far; [heap] holds the
    [ArrayBuffer]s behind builders and [Uint8Array] views, indexed by
    allocation order. *)
Record State := { ticks : nat; heap : list (list Byte.byte) }.

(** Outcome of a computation: [res = None] is an uncaught exception. *)
Record Out (A : Type) := {
  res : option A;
  evs : list event;
  final : State
}.
Arguments res {A}.
Arguments evs {A}.
Arguments final {A}.
Arguments Build_Out {A}.

Definition M (A : Type) : Type := State -> Out A.

Definition ret {A} (a : A) : M A :=
  fun s => {| res := Some a; evs := []; final := s |}.

Definition bind {A B} (m : M A) (k : A -> M B) : M B :=
  fun s =>
    let o := m s in
    match res o with
    | None => {| res := None; evs := evs o; final := final o |}
    | Some a =>
        let o' := k a (final o) in
        {| res := res o'; evs := evs o ++ evs o'; final := final o' |}
    end.

Definition throw {A} : M A :=
  fun s => {| res := None; evs := []; final := s |}.

Definition emit (e : event) : M unit :=
  fun s => {| res := Some tt; evs := [e]; final := s |}.

Declare Scope harness_scope.
Delimit Scope harness_scope with harness.
Notation "x <- m ;; k" := (bind m (fun x => k))
  (at level 100, m at next level, right associativity,
   format "'[v' x  <-  m  ;;  '/' k ']'") : harness_scope.
Notation "m ;;; k" := (bind m (fun _ => k))
  (at level 100, right associativity) : harness_scope.
Local Open Scope harness_scope.

Definition when (b : bool) (m : M unit) : M unit := if b then m else ret tt.

(** [for (let i = 0; i < n; i++) body], the variables the body updates
    are threaded through as [s]. *)
Fixpoint for_each {S} (body : nat -> S -> M S) (indices : list nat) (s : S) : M S :=
  match indices with
  | [] => ret s
  | i :: rest => s' <- body i s ;; for_each body rest s'
  end.

Definition for_range {S} (n : nat) (init : S) (body : nat -> S -> M S) : M S :=
  for_each body (seq 0 n) init.

(** Template literal holes: [`${i}`] for an integer and for a nullable
    string. *)
Definition show_Z (z : Z) : string :=
  DecimalString.NilZero.string_of_int (Z.to_int z).

Definition show_nat (n : nat) : string := show_Z (Z.of_nat n).

Definition show_nullable (s : option string) : string :=
  match s with Some s => s | None => "null" end.

(** [array[i]]: [None] is [undefined]. *)
Definition array_get {A} (a : list A) (i : nat) : option A := a !! i.

(** [array.push(x)] *)
Definition push {A} (a : list A) (x : A) : list A := a ++ [x].

(** ** The libraries the harness calls

    None of them is part of the repository.  Encoders are total;
    [JSON.parse], [decode] and [fromBuffer] may raise ([None]).  The
    FlatBuffers builder is a state of an unknown type [builder_state]; the
    only thing known about it is [written], the bytes [asUint8Array] would
    expose.  Table accessors and [ByteBuffer] reads are unchecked typed
    array loads: they return a value for any bytes. *)
Class Externals := {
  (* JSON *)
  JSON_stringify : TestData -> string;
  JSON_parse : string -> option TestData;
  JSON_stringify_value : value -> string;
  JSON_parse_value : string -> option value;
  (* @msgpack/msgpack *)
  encode : TestData -> list Byte.byte;
  decode : list Byte.byte -> option TestData;
  encode_value : value -> list Byte.byte;
  decode_value : list Byte.byte -> option value;
  (* avsc, for the record schema of [testAvro] *)
  toBuffer : TestData -> list Byte.byte;
  fromBuffer : list Byte.byte -> option TestData;
  (* flatbuffers.Builder *)
  builder_state : Type;
  Builder_new : nat -> builder_state;
  Builder_clear : builder_state -> builder_state;
  Builder_createString : value -> builder_state -> builder_state * Z;
  Builder_startObject : Z -> builder_state -> builder_state;
  Builder_addFieldOffset : Z -> Z -> Z -> builder_state -> builder_state;
  Builder_addFieldInt32 : Z -> Z -> Z -> builder_state -> builder_state;
  Builder_endObject : builder_state -> builder_state * Z;
  Builder_finish : Z -> builder_state -> builder_state;
  written : builder_state -> list Byte.byte;
  (* generated schema classes *)
  TestData_createTestData : Z -> Z -> builder_state -> builder_state * Z;
  TestData_foo : list Byte.byte -> option string;
  TestData_fooNumber : list Byte.byte -> Z;
  Person_createPerson : Z -> Z -> Z -> Z -> value -> builder_state -> builder_state * Z;
  PersonList_createPersonsVector : list Z -> builder_state -> builder_state * Z;
  PersonList_createPersonList : Z -> builder_state -> builder_state * Z;
  PersonList_personsLength : list Byte.byte -> nat;
  PersonList_persons_version : list Byte.byte -> nat -> option number;
  (* flatbuffers.ByteBuffer *)
  ByteBuffer_readInt32 : list Byte.byte -> Z -> Z;
  ByteBuffer_readInt16 : list Byte.byte -> Z -> Z;
  (* Number.prototype.toFixed *)
  toFixed : number -> nat -> string
}.

(** ** Buffers, views and builders

    A [Uint8Array] is a window on an [ArrayBuffer] of the heap, not a copy
    of it.  A builder owns one buffer and writes from its end towards its
    start; [asUint8Array] returns a window on that same buffer. *)
Record Uint8Array := { buffer : nat; byteOffset : nat; byteLength : nat }.

Record Builder `{Externals} := { bb : nat; state : builder_state }.

Definition buffer_at (h : list (list Byte.byte)) (b : nat) : list Byte.byte :=
  default [] (h !! b).

Definition read_heap (h : list (list Byte.byte)) (v : Uint8Array) : list Byte.byte :=
  take (byteLength v) (drop (byteOffset v) (buffer_at h (buffer v))).

(** The bytes of a view at the moment it is read. *)
Definition view_bytes (v : Uint8Array) : M (list Byte.byte) :=
  fun s => {| res := Some (read_heap (heap s) v); evs := []; final := s |}.

Definition alloc (bytes : list Byte.byte) : M nat :=
  fun s => {| res := Some (List.length (heap s)); evs := [];
              final := {| ticks := ticks s; heap := heap s ++ [bytes] |} |}.

(** [new Uint8Array] content of a view: [view.slice()] copies the window
    into a buffer of its own. *)
Definition slice (v : Uint8Array) : M Uint8Array :=
  bytes <- view_bytes v ;;
  b <- alloc bytes ;;
  ret {| buffer := b; byteOffset := 0; byteLength := List.length bytes |}.

(** Capacity after [growByteBuffer] has doubled it until [need] fits. *)
Fixpoint grow (fuel cap need : nat) : nat :=
  match fuel with
  | O => cap
  | S fuel' => if (need <=? cap)%nat then cap else grow fuel' (2 * cap) need
  end.

(** The buffer after the builder has written [live] at its end. *)
Definition write_tail (old live : list Byte.byte) : list Byte.byte :=
  take (List.length old - List.length live) old ++ live.

Section BuilderOps.
Context `{Externals}.

(** [new flatbuffers.Builder(size)] allocates the buffer. *)
Definition new_Builder (size : nat) : M Builder :=
  b <- alloc (replicate size Byte.x00) ;;
  ret {| bb := b; state := Builder_new size |}.

(** Store side of a builder method: the bytes written so far sit at the end
    of the builder's buffer; when they do not fit, the builder moves to a
    larger buffer. *)
Definition sync (b : Builder) : M Builder :=
  fun s =>
    let live := written (state b) in
    let old := buffer_at (heap s) (bb b) in
    if (List.length live <=? List.length old)%nat then
      {| res := Some b; evs := [];
         final := {| ticks := ticks s;
                     heap := <[bb b := write_tail old live]> (heap s) |} |}
    else
      let cap := grow (List.length live) (Nat.max 1 (List.length old)) (List.length live) in
      {| res := Some {| bb := List.length (heap s); state := state b |}; evs := [];
         final := {| ticks := ticks s;
                     heap := heap s ++ [replicate (cap - List.length live) Byte.x00 ++ live] |} |}.

(** A builder method that returns nothing ([clear], [finish], ...). *)
Definition method (f : builder_state -> builder_state) (b : Builder) : M Builder :=
  sync {| bb := bb b; state := f (state b) |}.

(** A builder method that returns an offset ([createString], ...). *)
Definition method_offset (f : builder_state -> builder_state * Z) (b : Builder)
  : M (Builder * Z) :=
  let '(st, off) := f (state b) in
  b' <- sync {| bb := bb b; state := st |} ;;
  ret (b', off).

(** [builder.asUint8Array()]: a window on the builder's own buffer. *)
Definition asUint8Array (b : Builder) : M Uint8Array :=
  fun s =>
    let n := List.length (written (state b)) in
    let v := {| buffer := bb b;
                byteOffset := List.length (buffer_at (heap s) (bb b)) - n;
                byteLength := n |} in
    {| res := Some v; evs := [Serialize (Bytes (read_heap (heap s) v))]; final := s |}.

End BuilderOps.

(** ** Library calls as the harness makes them *)
Section Calls.
Context `{Externals}.
Variable clock : nat -> number.

(** [performance.now()]: the next reading of the clock. *)
Definition performance_now : M number :=
  fun s => {| res := Some (clock (ticks s)); evs := [Now];
              final := {| ticks := S (ticks s); heap := heap s |} |}.

(** An encoder call: the payload it returns is recorded. *)
Definition encoder_call {P} (wrap : P -> payload) (p : P) : M P :=
  emit (Serialize (wrap p)) ;;; ret p.

(** A decoder call on [array[i]]: decoding [undefined] raises, and so does
    a decoder that rejects its argument. *)
Definition decoder_call {P A} (wrap : P -> payload) (seen : A -> decoded)
    (dec : P -> option A) (arg : option P) : M A :=
  match arg with
  | None => throw
  | Some p =>
      match dec p with
      | Some a => emit (Deserialize (wrap p) (seen a)) ;;; ret a
      | None => emit (Deserialize (wrap p) Threw) ;;; throw
      end
  end.

Definition stringify (data : TestData) : M string :=
  encoder_call Text (JSON_stringify data).
Definition parse (text : option string) : M TestData :=
  decoder_call Text Data JSON_parse text.
Definition stringify_value (data : value) : M string :=
  encoder_call Text (JSON_stringify_value data).
Definition parse_value (text : option string) : M value :=
  decoder_call Text Any JSON_parse_value text.

Definition msgpack_encode (data : TestData) : M (list Byte.byte) :=
  encoder_call Bytes (encode data).
Definition msgpack_decode (bytes : option (list Byte.byte)) : M TestData :=
  decoder_call Bytes Data decode bytes.
Definition msgpack_encode_value (data : value) : M (list Byte.byte) :=
  encoder_call Bytes (encode_value data).
Definition msgpack_decode_value (bytes : option (list Byte.byte)) : M value :=
  decoder_call Bytes Any decode_value bytes.

Definition schema_toBuffer (data : TestData) : M (list Byte.byte) :=
  encoder_call Bytes (toBuffer data).
Definition schema_fromBuffer (bytes : option (list Byte.byte)) : M TestData :=
  decoder_call Bytes Data fromBuffer bytes.

(** [new flatbuffers.ByteBuffer(view)]: the bytes under the view now;
    every later read of an [undefined] view raises. *)
Definition new_ByteBuffer (view : option Uint8Array) : M (list Byte.byte) :=
  match view with
  | None => throw
  | Some v => view_bytes v
  end.

(** [view.length] *)
Definition view_length (view : option Uint8Array) : M nat :=
  match view with
  | None => throw
  | Some v => ret (byteLength v)
  end.

(** [TestDataFB.getRootAsTestData(buf)], with the two fields the harness
    reads from the table. *)
Definition getRootAsTestData (buf : list Byte.byte) : M (list Byte.byte) :=
  emit (Deserialize (Bytes buf) (Table (TestData_foo buf) (TestData_fooNumber buf))) ;;;
  ret buf.

(** [PersonList.getRootAsPersonList(buf)], with the versions the harness
    reads: [None] where [persons(i)] is [null]. *)
Definition getRootAsPersonList (buf : list Byte.byte) : M (list Byte.byte) :=
  emit (Deserialize (Bytes buf)
          (Persons (map (PersonList_persons_version buf)
                        (seq 0 (PersonList_personsLength buf))))) ;;;
  ret buf.

(** [await new Promise(resolve => setTimeout(() => resolve(), ms))] *)
Definition sleep (ms : Z) : M unit := emit (Sleep ms).

Definition console_warn (msg : string) : M unit := emit (Warn msg).
Definition console_log (args : list value) : M unit := emit (Log args).

(** [const formatTime = (ms) => `${ms.toFixed(2)} ms`] *)
Definition formatTime (ms : number) : string := (toFixed ms 2 ++ " ms")%string.

End Calls.

(** [new Array(n)] is an array of [n] holes; [a[i] = x] fills one and
    extends the array when [i] is past its end. *)
Definition new_Array {A} (n : nat) : list (option A) := replicate n None.

Definition array_set {A} (a : list (option A)) (i : nat) (x : A) : list (option A) :=
  if (i <? List.length a)%nat then <[i := Some x]> a
  else a ++ replicate (i - List.length a) None ++ [Some x].

Definition array_get_sparse {A} (a : list (option A)) (i : nat) : option A :=
  mjoin (a !! i).

(** [v.key] for the keys the harness reads (none of them is [length]):
    reading a property of [null] or [undefined] raises. *)
Definition get_property (v : value) (key : string) : M value :=
  match v with
  | VUndefined | VNull => throw
  | VObject fields =>
      ret (match find (fun kv => String.eqb (fst kv) key) fields with
           | Some kv => snd kv
           | None => VUndefined
           end)
  | _ => ret VUndefined
  end.

(** A value in a condition. *)
Definition truthy (v : value) : bool :=
  match v with
  | VUndefined | VNull => false
  | VBool b => b
  | VNumber n => Number.truthy n
  | VString s => negb (String.eqb s "")
  | VArray _ | VObject _ => true
  end.

(** [a || b] *)
Definition js_or (a b : value) : value := if truthy a then a else b.

(** [Array.isArray(parsed) ? parsed.length : 0] *)
Definition array_length_or_0 (parsed : value) : Z :=
  match parsed with
  | VArray items => Z.of_nat (List.length items)
  | _ => 0
  end.

(** [foo ? foo.length : 0] *)
Definition length_or_0 (foo : option string) : Z :=
  match foo with Some s => Z.of_nat (String.length s) | None => 0 end.

(** [foo !== 'bar'] for a nullable string *)
Definition differs (foo : option string) (expected : string) : bool :=
  match foo with Some s => negb (String.eqb s expected) | None => true end.

(** ** [web/src/test.ts] *)
Module Web.
Section Web.
Context `{Externals}.
Variable clock : nat -> number.
Variable ITERATIONS : nat.

Abbreviation now := (performance_now clock).

Definition testJSON : M TestResult :=
  startSerialize <- now ;;
  serialized <- for_range ITERATIONS [] (fun i serialized =>
    let data := {| foo := "bar"; foo_number := Z.of_nat i |} in
    text <- stringify data ;;
    ret (push serialized text)) ;;
  t <- now ;;
  let serializeTime := sub t startSerialize in
  startDeserialize <- now ;;
  sum <- for_range ITERATIONS 0 (fun i sum =>
    parsed <- parse (array_get serialized i) ;;
    ret (sum + foo_number parsed)) ;;
  when (sum =? 0) (console_log [VString "JSON sum:"; VNumber (of_Z sum)]) ;;;
  t <- now ;;
  let deserializeTime := sub t startDeserialize in
  let totalTime := add serializeTime deserializeTime in
  ret {| format := "JSON";
         serializeTime := serializeTime;
         deserializeTime := deserializeTime;
         totalTime := totalTime;
         iterations := ITERATIONS |}.

Definition testMessagePack : M TestResult :=
  startSerialize <- now ;;
  serialized <- for_range ITERATIONS [] (fun i serialized =>
    let data := {| foo := "bar"; foo_number := Z.of_nat i |} in
    bytes <- msgpack_encode data ;;
    ret (push serialized bytes)) ;;
  t <- now ;;
  let serializeTime := sub t startSerialize in
  startDeserialize <- now ;;
  sum <- for_range ITERATIONS 0 (fun i sum =>
    parsed <- msgpack_decode (array_get serialized i) ;;
    ret (sum + foo_number parsed)) ;;
  when (sum =? 0) (console_log [VString "MessagePack sum:"; VNumber (of_Z sum)]) ;;;
  t <- now ;;
  let deserializeTime := sub t startDeserialize in
  let totalTime := add serializeTime deserializeTime in
  ret {| format := "MessagePack";
         serializeTime := serializeTime;
         deserializeTime := deserializeTime;
         totalTime := totalTime;
         iterations := ITERATIONS |}.

(** One builder for all iterations: it is cleared, refilled, and its
    window copied ([buf.slice()]) before the next iteration reuses it. *)
Definition testFlatBuffers : M TestResult :=
  let serialized : list (option Uint8Array) := new_Array ITERATIONS in
  builder <- new_Builder 1024 ;;
  startSerialize <- now ;;
  filled <- for_range ITERATIONS (builder, serialized) (fun i vars =>
    let '(builder, serialized) := vars in
    builder <- method Builder_clear builder ;;
    r <- method_offset (Builder_createString (VString "bar")) builder ;;
    let '(builder, fooOffset) := r in
    r <- method_offset (TestData_createTestData fooOffset (Z.of_nat i)) builder ;;
    let '(builder, testDataOffset) := r in
    builder <- method (Builder_finish testDataOffset) builder ;;
    buf <- asUint8Array builder ;;
    copy <- slice buf ;;
    ret (builder, array_set serialized i copy)) ;;
  let serialized := snd filled in
  t <- now ;;
  let serializeTime := sub t startSerialize in
  startDeserialize <- now ;;
  sum <- for_range ITERATIONS 0 (fun i sum =>
    buf <- new_ByteBuffer (array_get_sparse serialized i) ;;
    testData <- getRootAsTestData buf ;;
    let foo := TestData_foo testData in
    let fooNumber := TestData_fooNumber testData in
    ret (sum + (fooNumber + length_or_0 foo))) ;;
  when (sum =? 0) (console_log [VString "FlatBuffers sum:"; VNumber (of_Z sum)]) ;;;
  t <- now ;;
  let deserializeTime := sub t startDeserialize in
  let totalTime := add serializeTime deserializeTime in
  ret {| format := "FlatBuffers";
         serializeTime := serializeTime;
         deserializeTime := deserializeTime;
         totalTime := totalTime;
         iterations := ITERATIONS |}.

(** The result cards; the average is shown for every result. *)
Definition updateResults (results : list TestResult) : M unit :=
  emit (Render results (map (fun result =>
    {| card_format := format result;
       card_serialize := formatTime (serializeTime result);
       card_deserialize := formatTime (deserializeTime result);
       card_total := formatTime (totalTime result);
       card_average :=
         formatTime (div (totalTime result)
                         (of_Z (Z.of_nat (iterations result) * 2))) |}) results)).

Definition runAllTests : M unit :=
  emit (Ui (ButtonDisabled true)) ;;;
  emit (Ui (ButtonText "Running Tests...")) ;;;
  emit (Ui (ResultsDisplay "none")) ;;;
  emit (Render [] []) ;;;
  jsonResult <- testJSON ;;
  updateResults [jsonResult] ;;;
  sleep 100 ;;;
  msgpackResult <- testMessagePack ;;
  updateResults [jsonResult; msgpackResult] ;;;
  sleep 100 ;;;
  flatbuffersResult <- testFlatBuffers ;;
  updateResults [jsonResult; msgpackResult; flatbuffersResult] ;;;
  emit (Ui (ButtonDisabled false)) ;;;
  emit (Ui (ButtonText "Run Performance Tests")) ;;;
  emit (Ui (ResultsDisplay "block")).

End Web.

(** [const ITERATIONS = 10000] *)
Definition ITERATIONS : nat := Z.to_nat 10000.

End Web.

(** ** The later revision of [web/src/test.ts]: Avro and the 5MB data set *)
Module WebLarge.
Section WebLarge.
Context `{Externals}.
Variable clock : nat -> number.
Variable ITERATIONS : nat.
(** [import largeJsonData from './5MB.json'], used [as any[]]. *)
Variable largeJsonData : list value.

Abbreviation now := (performance_now clock).

Definition testJSON : M TestResult :=
  startSerialize <- now ;;
  serialized <- for_range ITERATIONS [] (fun i serialized =>
    let data := {| foo := ("bar" ++ show_nat i)%string; foo_number := Z.of_nat i |} in
    text <- stringify data ;;
    ret (push serialized text)) ;;
  t <- now ;;
  let serializeTime := sub t startSerialize in
  startDeserialize <- now ;;
  sum <- for_range ITERATIONS 0 (fun i sum =>
    parsed <- parse (array_get serialized i) ;;
    ret (sum + foo_number parsed)) ;;
  when (sum =? 0) (console_log [VString "JSON sum:"; VNumber (of_Z sum)]) ;;;
  t <- now ;;
  let deserializeTime := sub t startDeserialize in
  let totalTime := add serializeTime deserializeTime in
  ret {| format := "JSON";
         serializeTime := serializeTime;
         deserializeTime := deserializeTime;
         totalTime := totalTime;
         iterations := ITERATIONS |}.

(** Unchanged from the first revision. *)
Definition testMessagePack : M TestResult := Web.testMessagePack clock ITERATIONS.
Definition testFlatBuffers : M TestResult := Web.testFlatBuffers clock ITERATIONS.

Definition testAvro : M TestResult :=
  startSerialize <- now ;;
  serialized <- for_range ITERATIONS [] (fun i serialized =>
    let data := {| foo := "bar"; foo_number := Z.of_nat i |} in
    bytes <- schema_toBuffer data ;;
    ret (push serialized bytes)) ;;
  t <- now ;;
  let serializeTime := sub t startSerialize in
  startDeserialize <- now ;;
  sum <- for_range ITERATIONS 0 (fun i sum =>
    parsed <- schema_fromBuffer (array_get serialized i) ;;
    ret (sum + foo_number parsed)) ;;
  when (sum =? 0) (console_log [VString "Avro sum:"; VNumber (of_Z sum)]) ;;;
  t <- now ;;
  let deserializeTime := sub t startDeserialize in
  let totalTime := add serializeTime deserializeTime in
  ret {| format := "Avro";
         serializeTime := serializeTime;
         deserializeTime := deserializeTime;
         totalTime := totalTime;
         iterations := ITERATIONS |}.

Definition testLargeJSON : M TestResult :=
  startSerialize <- now ;;
  serialized <- stringify_value (VArray largeJsonData) ;;
  t <- now ;;
  let serializeTime := sub t startSerialize in
  startDeserialize <- now ;;
  parsed <- parse_value (Some serialized) ;;
  let sum := array_length_or_0 parsed in
  when (sum =? 0) (console_log [VString "Large JSON sum:"; VNumber (of_Z sum)]) ;;;
  t <- now ;;
  let deserializeTime := sub t startDeserialize in
  let totalTime := add serializeTime deserializeTime in
  ret {| format := "JSON (5MB)";
         serializeTime := serializeTime;
         deserializeTime := deserializeTime;
         totalTime := totalTime;
         iterations := 1 |}.

Definition testLargeMessagePack : M TestResult :=
  startSerialize <- now ;;
  serialized <- msgpack_encode_value (VArray largeJsonData) ;;
  t <- now ;;
  let serializeTime := sub t startSerialize in
  startDeserialize <- now ;;
  parsed <- msgpack_decode_value (Some serialized) ;;
  let sum := array_length_or_0 parsed in
  when (sum =? 0) (console_log [VString "Large MessagePack sum:"; VNumber (of_Z sum)]) ;;;
  t <- now ;;
  let deserializeTime := sub t startDeserialize in
  let totalTime := add serializeTime deserializeTime in
  ret {| format := "MessagePack (5MB)";
         serializeTime := serializeTime;
         deserializeTime := deserializeTime;
         totalTime := totalTime;
         iterations := 1 |}.

Definition testLargeFlatBuffers : M TestResult :=
  let data := largeJsonData in
  startSerialize <- now ;;
  builder <- new_Builder (1024 * 1024 * 10) ;;
  built <- for_range (List.length data) (builder, []) (fun i vars =>
    let '(builder, personOffsets) := vars in
    let person := default VUndefined (array_get data i) in
    name <- get_property person "name" ;;
    r <- method_offset (Builder_createString (js_or name (VString ""))) builder ;;
    let '(builder, nameOffset) := r in
    language <- get_property person "language" ;;
    r <- method_offset (Builder_createString (js_or language (VString ""))) builder ;;
    let '(builder, languageOffset) := r in
    id <- get_property person "id" ;;
    r <- method_offset (Builder_createString (js_or id (VString ""))) builder ;;
    let '(builder, idOffset) := r in
    bio <- get_property person "bio" ;;
    r <- method_offset (Builder_createString (js_or bio (VString ""))) builder ;;
    let '(builder, bioOffset) := r in
    version <- get_property person "version" ;;
    let version := js_or version (VNumber zero) in
    r <- method_offset
           (Person_createPerson nameOffset languageOffset idOffset bioOffset version)
           builder ;;
    let '(builder, personOffset) := r in
    ret (builder, push personOffsets personOffset)) ;;
  let '(builder, personOffsets) := built in
  r <- method_offset (PersonList_createPersonsVector personOffsets) builder ;;
  let '(builder, personsVector) := r in
  r <- method_offset (PersonList_createPersonList personsVector) builder ;;
  let '(builder, personListOffset) := r in
  builder <- method (Builder_finish personListOffset) builder ;;
  serialized <- asUint8Array builder ;;
  t <- now ;;
  let serializeTime := sub t startSerialize in
  startDeserialize <- now ;;
  buf <- new_ByteBuffer (Some serialized) ;;
  personList <- getRootAsPersonList buf ;;
  let length := PersonList_personsLength personList in
  sum <- for_range length zero (fun i sum =>
    match PersonList_persons_version personList i with
    | Some version => ret (add sum version)
    | None => ret sum
    end) ;;
  when (eqb sum zero) (console_log [VString "Large FlatBuffers sum:"; VNumber sum]) ;;;
  t <- now ;;
  let deserializeTime := sub t startDeserialize in
  let totalTime := add serializeTime deserializeTime in
  ret {| format := "FlatBuffers (5MB)";
         serializeTime := serializeTime;
         deserializeTime := deserializeTime;
         totalTime := totalTime;
         iterations := 1 |}.

(** The result cards; a single operation has no average. *)
Definition updateResults (results : list TestResult) : M unit :=
  emit (Render results (map (fun result =>
    {| card_format := format result;
       card_serialize := formatTime (serializeTime result);
       card_deserialize := formatTime (deserializeTime result);
       card_total := formatTime (totalTime result);
       card_average :=
         if (1 <? iterations result)%nat
         then formatTime (div (totalTime result)
                              (of_Z (Z.of_nat (iterations result) * 2)))
         else "N/A (single operation)" |}) results)).

Definition runAllTests : M unit :=
  emit (Ui (ButtonDisabled true)) ;;;
  emit (Ui (ButtonText "Running Tests...")) ;;;
  emit (Ui (ResultsDisplay "none")) ;;;
  emit (Render [] []) ;;;
  jsonResult <- testJSON ;;
  updateResults [jsonResult] ;;;
  sleep 100 ;;;
  msgpackResult <- testMessagePack ;;
  updateResults [jsonResult; msgpackResult] ;;;
  sleep 100 ;;;
  sleep 100 ;;;
  flatbuffersResult <- testFlatBuffers ;;
  updateResults [jsonResult; msgpackResult; flatbuffersResult] ;;;
  sleep 100 ;;;
  avroResult <- testAvro ;;
  updateResults [jsonResult; msgpackResult; flatbuffersResult; avroResult] ;;;
  sleep 100 ;;;
  largeJsonResult <- testLargeJSON ;;
  updateResults [jsonResult; msgpackResult; flatbuffersResult; avroResult;
                 largeJsonResult] ;;;
  sleep 100 ;;;
  largeMsgpackResult <- testLargeMessagePack ;;
  updateResults [jsonResult; msgpackResult; flatbuffersResult; avroResult;
                 largeJsonResult; largeMsgpackResult] ;;;
  sleep 100 ;;;
  largeFlatbuffersResult <- testLargeFlatBuffers ;;
  updateResults [jsonResult; msgpackResult; flatbuffersResult; avroResult;
                 largeJsonResult; largeMsgpackResult; largeFlatbuffersResult] ;;;
  emit (Ui (ButtonDisabled false)) ;;;
  emit (Ui (ButtonText "Run Performance Tests")) ;;;
  emit (Ui (ResultsDisplay "block")).

End WebLarge.

(** [const ITERATIONS = 10000] *)
Definition ITERATIONS : nat := Z.to_nat 10000.

End WebLarge.

(** ** [SerializationTest.tsx], with the generated schema classes *)
Module Native.
Section Native.
Context `{Externals}.
Variable clock : nat -> number.
Variable ITERATIONS : nat.

Abbreviation now := (performance_now clock).

Definition testJSON : M TestResult :=
  startSerialize <- now ;;
  serialized <- for_range ITERATIONS [] (fun i serialized =>
    let data := {| foo := "bar"; foo_number := Z.of_nat i |} in
    text <- stringify data ;;
    ret (push serialized text)) ;;
  t <- now ;;
  let serializeTime := sub t startSerialize in
  startDeserialize <- now ;;
  for_range ITERATIONS tt (fun i _ =>
    parse (array_get serialized i) ;;;
    ret tt) ;;;
  t <- now ;;
  let deserializeTime := sub t startDeserialize in
  let totalTime := add serializeTime deserializeTime in
  ret {| format := "JSON";
         serializeTime := serializeTime;
         deserializeTime := deserializeTime;
         totalTime := totalTime;
         iterations := ITERATIONS |}.

Definition testMessagePack : M TestResult :=
  startSerialize <- now ;;
  serialized <- for_range ITERATIONS [] (fun i serialized =>
    let data := {| foo := "bar"; foo_number := Z.of_nat i |} in
    bytes <- msgpack_encode data ;;
    ret (push serialized bytes)) ;;
  t <- now ;;
  let serializeTime := sub t startSerialize in
  startDeserialize <- now ;;
  for_range ITERATIONS tt (fun i _ =>
    msgpack_decode (array_get serialized i) ;;;
    ret tt) ;;;
  t <- now ;;
  let deserializeTime := sub t startDeserialize in
  let totalTime := add serializeTime deserializeTime in
  ret {| format := "MessagePack";
         serializeTime := serializeTime;
         deserializeTime := deserializeTime;
         totalTime := totalTime;
         iterations := ITERATIONS |}.

(** A fresh builder per iteration; the stored windows are not copies, each
    looks at the buffer of its own builder. *)
Definition testFlatBuffers : M TestResult :=
  startSerialize <- now ;;
  serialized <- for_range ITERATIONS [] (fun i serialized =>
    builder <- new_Builder 1024 ;;
    r <- method_offset (Builder_createString (VString "bar")) builder ;;
    let '(builder, fooOffset) := r in
    r <- method_offset (TestData_createTestData fooOffset (Z.of_nat i)) builder ;;
    let '(builder, testDataOffset) := r in
    builder <- method (Builder_finish testDataOffset) builder ;;
    view <- asUint8Array builder ;;
    ret (push serialized view)) ;;
  t <- now ;;
  let serializeTime := sub t startSerialize in
  startDeserialize <- now ;;
  for_range ITERATIONS tt (fun i _ =>
    buf <- new_ByteBuffer (array_get serialized i) ;;
    testData <- getRootAsTestData buf ;;
    let foo := TestData_foo testData in
    let fooNumber := TestData_fooNumber testData in
    when (differs foo "bar")
      (console_warn ("FlatBuffers string mismatch at iteration " ++ show_nat i
                     ++ ": expected 'bar', got '" ++ show_nullable foo ++ "'")%string) ;;;
    when (negb (fooNumber =? Z.of_nat i))
      (console_warn ("FlatBuffers number mismatch at iteration " ++ show_nat i
                     ++ ": expected " ++ show_nat i
                     ++ ", got " ++ show_Z fooNumber)%string)) ;;;
  t <- now ;;
  let deserializeTime := sub t startDeserialize in
  let totalTime := add serializeTime deserializeTime in
  ret {| format := "FlatBuffers";
         serializeTime := serializeTime;
         deserializeTime := deserializeTime;
         totalTime := totalTime;
         iterations := ITERATIONS |}.

(** The cards the component draws for its [results] state; the average is
    shown for every result. *)
Definition render (results : list TestResult) : list card :=
  map (fun result =>
    {| card_format := format result;
       card_serialize := formatTime (serializeTime result);
       card_deserialize := formatTime (deserializeTime result);
       card_total := formatTime (totalTime result);
       card_average :=
         formatTime (div (totalTime result)
                         (of_Z (Z.of_nat (iterations result) * 2))) |}) results.

(** [setResults(results)]: the component is drawn again with the new state. *)
Definition setResults (results : list TestResult) : M unit :=
  emit (Render results (render results)).

Definition setIsRunning (b : bool) : M unit := emit (Ui (IsRunning b)).

(** [runAllTests], over the [testFlatBuffers] of the revision. *)
Definition runAllTests_with (testFlatBuffers : M TestResult) : M unit :=
  setIsRunning true ;;;
  setResults [] ;;;
  jsonResult <- testJSON ;;
  setResults [jsonResult] ;;;
  sleep 100 ;;;
  msgpackResult <- testMessagePack ;;
  setResults [jsonResult; msgpackResult] ;;;
  sleep 100 ;;;
  flatbuffersResult <- testFlatBuffers ;;
  setResults [jsonResult; msgpackResult; flatbuffersResult] ;;;
  setIsRunning false.

Definition runAllTests : M unit := runAllTests_with testFlatBuffers.

End Native.

(** [const ITERATIONS = 1000] *)
Definition ITERATIONS : nat := 1000.

End Native.

(** ** [SerializationTest.tsx], with the table written and read by hand

    [testJSON], [testMessagePack], [runAllTests] and the drawing are those
    of [Native]. *)
Module NativeLowLevel.
Section NativeLowLevel.
Context `{Externals}.
Variable clock : nat -> number.
Variable ITERATIONS : nat.

Abbreviation now := (performance_now clock).

Definition testJSON : M TestResult := Native.testJSON clock ITERATIONS.
Definition testMessagePack : M TestResult := Native.testMessagePack clock ITERATIONS.

Definition testFlatBuffers : M TestResult :=
  startSerialize <- now ;;
  serialized <- for_range ITERATIONS [] (fun i serialized =>
    builder <- new_Builder 1024 ;;
    r <- method_offset (Builder_createString (VString "bar")) builder ;;
    let '(builder, fooOffset) := r in
    builder <- method (Builder_startObject 2) builder ;;
    builder <- method (Builder_addFieldOffset 0 fooOffset 0) builder ;;
    builder <- method (Builder_addFieldInt32 1 (Z.of_nat i) 0) builder ;;
    r <- method_offset Builder_endObject builder ;;
    let '(builder, offset) := r in
    builder <- method (Builder_finish offset) builder ;;
    view <- asUint8Array builder ;;
    ret (push serialized view)) ;;
  t <- now ;;
  let serializeTime := sub t startSerialize in
  startDeserialize <- now ;;
  for_range ITERATIONS tt (fun i _ =>
    buf <- new_ByteBuffer (array_get serialized i) ;;
    emit (Deserialize (Bytes buf) Raw) ;;;
    length <- view_length (array_get serialized i) ;;
    let root := ByteBuffer_readInt32 buf (Z.of_nat length - 4) in
    let vtableOffset := root - ByteBuffer_readInt32 buf root in
    let field0Offset := ByteBuffer_readInt16 buf (vtableOffset + 4) in
    let field1Offset := ByteBuffer_readInt16 buf (vtableOffset + 6) in
    when (negb (field0Offset =? 0))
      (let stringOffset := ByteBuffer_readInt32 buf (root + field0Offset) in
       when (negb (stringOffset =? 0))
         (let stringPos := root + field0Offset + stringOffset in
          let stringLength := ByteBuffer_readInt32 buf stringPos in
          when (negb (stringLength =? 3))
            (console_warn ("FlatBuffers string length mismatch at iteration "
                           ++ show_nat i)%string))) ;;;
    when (negb (field1Offset =? 0))
      (let numberValue := ByteBuffer_readInt32 buf (root + field1Offset) in
       when (negb (numberValue =? Z.of_nat i))
         (console_warn ("FlatBuffers number mismatch at iteration " ++ show_nat i
                        ++ ": expected " ++ show_nat i
                        ++ ", got " ++ show_Z numberValue)%string))) ;;;
  t <- now ;;
  let deserializeTime := sub t startDeserialize in
  let totalTime := add serializeTime deserializeTime in
  ret {| format := "FlatBuffers";
         serializeTime := serializeTime;
         deserializeTime := deserializeTime;
         totalTime := totalTime;
         iterations := ITERATIONS |}.

Definition runAllTests : M unit :=
  Native.runAllTests_with clock ITERATIONS testFlatBuffers.

End NativeLowLevel.

(** [const ITERATIONS = 1000] *)
Definition ITERATIONS : nat := 1000.

End NativeLowLevel.

(** ** Stand-ins for the libraries

    One concrete instance of [Externals], to run the harness on: a JSON
    subset for [TestData], the same text as bytes for the binary codecs, a
    builder that keeps the bytes it was given, little-endian [ByteBuffer]
    reads, and [toFixed] by exact integer arithmetic. *)
Module StandIn.

Definition quote : ascii := ascii_of_nat 34.

Fixpoint strip_prefix (p s : string) : option string :=
  match p, s with
  | EmptyString, _ => Some s
  | String a p', String b s' => if Ascii.eqb a b then strip_prefix p' s' else None
  | String _ _, EmptyString => None
  end.

Fixpoint split_at (c : ascii) (s : string) : option (string * string) :=
  match s with
  | EmptyString => None
  | String a s' =>
      if Ascii.eqb a c then Some (EmptyString, s')
      else match split_at c s' with
           | Some (l, r) => Some (String a l, r)
           | None => None
           end
  end.

Definition opening : string := String "{" (String quote ("foo" ++ String quote (":" ++ String quote ""))).
Definition middle : string := String quote ("," ++ String quote ("foo_number" ++ String quote ":")).

Definition stringify (d : TestData) : string :=
  (opening ++ foo d ++ middle ++ show_Z (foo_number d) ++ "}")%string.

Definition parse (s : string) : option TestData :=
  s1 ← strip_prefix opening s;
  fr ← split_at quote s1;
  s2 ← strip_prefix (String.substring 1 (String.length middle - 1) middle) (snd fr);
  dr ← split_at "}" s2;
  n ← DecimalString.NilZero.int_of_string (fst dr);
  if String.eqb (snd dr) "" then Some {| foo := fst fr; foo_number := Z.of_int n |} else None.

Definition to_bytes (d : TestData) : list Byte.byte := list_byte_of_string (stringify d).
Definition of_bytes (b : list Byte.byte) : option TestData := parse (string_of_list_byte b).

(** Arrays keep their length only. *)
Definition stringify_value (v : value) : string :=
  match v with
  | VArray items => ("[" ++ show_nat (List.length items) ++ "]")%string
  | _ => "null"
  end.

Definition parse_value (s : string) : option value :=
  match strip_prefix "[" s with
  | Some r =>
      dr ← split_at "]" r;
      n ← DecimalString.NilZero.int_of_string (fst dr);
      Some (VArray (replicate (Z.to_nat (Z.of_int n)) VNull))
  | None => if String.eqb s "null" then Some VNull else None
  end.

Definition byte_at (bytes : list Byte.byte) (offset : Z) : Z :=
  if (offset <? 0) || (Z.of_nat (List.length bytes) <=? offset) then 0
  else match bytes !! Z.to_nat offset with
       | Some b => Z.of_N (Byte.to_N b)
       | None => 0
       end.

Definition signed (bits : Z) (u : Z) : Z :=
  if 2 ^ (bits - 1) <=? u then u - 2 ^ bits else u.

(** [bytes[o] | bytes[o+1] << 8 | bytes[o+2] << 16 | bytes[o+3] << 24] *)
Definition readInt32 (bytes : list Byte.byte) (o : Z) : Z :=
  signed 32 (Z.lor (byte_at bytes o)
            (Z.lor (Z.shiftl (byte_at bytes (o + 1)) 8)
            (Z.lor (Z.shiftl (byte_at bytes (o + 2)) 16)
                   (Z.shiftl (byte_at bytes (o + 3)) 24)))).

Definition readInt16 (bytes : list Byte.byte) (o : Z) : Z :=
  signed 16 (Z.lor (byte_at bytes o) (Z.shiftl (byte_at bytes (o + 1)) 8)).

Definition le32 (z : Z) : list Byte.byte :=
  map (fun k => default Byte.x00 (Byte.of_N (Z.to_N (Z.land (Z.shiftr z (8 * k)) 255))))
      [0; 1; 2; 3].

Definition two_digits (n : Z) : string :=
  ((if (n <? 10)%Z then "0" else "") ++ show_Z n)%string.

(** [x.toFixed(2)] for a finite [x]: the integer nearest to [100 * x], the
    larger one on a tie, printed with two decimals. *)
Definition toFixed2 (x : number) : string :=
  match x with
  | S754_zero _ => "0.00"
  | S754_finite s m e =>
      let n := if 0 <=? e then 100 * Z.pos m * 2 ^ e
               else (2 * 100 * Z.pos m + 2 ^ (- e)) / 2 ^ (1 - e) in
      ((if s && (0 <? n)%Z then "-" else "")
       ++ show_Z (n / 100) ++ "." ++ two_digits (n mod 100))%string
  | S754_infinity s => if s then "-Infinity" else "Infinity"
  | S754_nan => "NaN"
  end.

#[export] Instance externals : Externals := {|
  JSON_stringify := stringify;
  JSON_parse := parse;
  JSON_stringify_value := stringify_value;
  JSON_parse_value := parse_value;
  encode := to_bytes;
  decode := of_bytes;
  encode_value := fun v => list_byte_of_string (stringify_value v);
  decode_value := fun b => parse_value (string_of_list_byte b);
  toBuffer := to_bytes;
  fromBuffer := of_bytes;
  builder_state := list Byte.byte;
  Builder_new := fun _ => [];
  Builder_clear := fun _ => [];
  Builder_createString := fun v st =>
    match v with
    | VString s => (list_byte_of_string s, Z.of_nat (String.length s))
    | _ => ([], 0)
    end;
  Builder_startObject := fun _ st => st;
  Builder_addFieldOffset := fun _ _ _ st => st;
  Builder_addFieldInt32 := fun _ v _ st =>
    to_bytes {| foo := string_of_list_byte st; foo_number := v |};
  Builder_endObject := fun st => (st, 0);
  Builder_finish := fun _ st => st;
  written := fun st => st;
  TestData_createTestData := fun _ n st =>
    (to_bytes {| foo := string_of_list_byte st; foo_number := n |}, 0);
  TestData_foo := fun b => foo <$> of_bytes b;
  TestData_fooNumber := fun b => default 0 (foo_number <$> of_bytes b);
  Person_createPerson := fun _ _ _ _ _ st => (Byte.x01 :: st, 0);
  PersonList_createPersonsVector := fun offsets st => (st, 0);
  PersonList_createPersonList := fun _ st => (st, 0);
  PersonList_personsLength := fun b => List.length b;
  PersonList_persons_version := fun b i => (fun _ => of_Z 1) <$> b !! i;
  ByteBuffer_readInt32 := readInt32;
  ByteBuffer_readInt16 := readInt16;
  toFixed := fun x _ => toFixed2 x
|}.

(** A clock that advances by a quarter of a millisecond per reading, up
    to one millisecond. *)
Definition clock (i : nat) : number :=
  nth i [of_Z 0; div (of_Z 1) (of_Z 4); div (of_Z 1) (of_Z 2); div (of_Z 3) (of_Z 4)]
      (of_Z 1).

Definition start : State := {| ticks := 0; heap := [] |}.

End StandIn.

(** * Vocabulary of the properties *)

(** [o] with the events [before] in front of its own. *)
Definition after {A} (before : list event) (o : Out A) : Out A :=
  {| res := res o; evs := before ++ evs o; final := final o |}.

(** ** Computations that neither read nor advance the clock *)

Definition with_ticks (t : nat) (s : State) : State :=
  {| ticks := t; heap := heap s |}.

Definition at_ticks {A} (t : nat) (o : Out A) : Out A :=
  {| res := res o; evs := evs o; final := with_ticks t (final o) |}.

(** [m] runs the same way whatever the count of clock readings is, and
    leaves it as it found it. *)
Definition clock_free {A} (m : M A) : Prop :=
  forall s t, m (with_ticks t s) = at_ticks t (m s).

(** ** The timing protocol

    What every test function does around its two passes; each test
    function is shown below to be an instance of it. *)
Definition protocol (clock : nat -> number) {X A} (label : string) (n : nat)
    (setup : M X) (serializing : X -> M A) (deserializing : X -> A -> M unit)
  : M TestResult :=
  x <- setup ;;
  startSerialize <- performance_now clock ;;
  a <- serializing x ;;
  t <- performance_now clock ;;
  let serializeTime := sub t startSerialize in
  startDeserialize <- performance_now clock ;;
  deserializing x a ;;;
  t <- performance_now clock ;;
  let deserializeTime := sub t startDeserialize in
  let totalTime := add serializeTime deserializeTime in
  ret {| format := label;
         serializeTime := serializeTime;
         deserializeTime := deserializeTime;
         totalTime := totalTime;
         iterations := n |}.

Definition tick (s : State) : State := {| ticks := S (ticks s); heap := heap s |}.

(** The result record assembled from four clock readings starting at
    reading number [t0]. *)
Definition result_at (clock : nat -> number) (label : string) (n t0 : nat) : TestResult :=
  let serializeTime := sub (clock (1 + t0)%nat) (clock t0) in
  let deserializeTime := sub (clock (3 + t0)%nat) (clock (2 + t0)%nat) in
  {| format := label;
     serializeTime := serializeTime;
     deserializeTime := deserializeTime;
     totalTime := add serializeTime deserializeTime;
     iterations := n |}.

(** The outcome of the protocol, pass by pass. *)
Definition protocol_outcome (clock : nat -> number) {X A} (label : string) (n : nat)
    (setup : M X) (serializing : X -> M A) (deserializing : X -> A -> M unit)
    (s : State) : Out TestResult :=
  let o0 := setup s in
  match res o0 with
  | None => {| res := None; evs := evs o0; final := final o0 |}
  | Some x =>
      let o1 := serializing x (tick (final o0)) in
      match res o1 with
      | None => {| res := None; evs := evs o0 ++ Now :: evs o1; final := final o1 |}
      | Some a =>
          let o2 := deserializing x a (tick (tick (final o1))) in
          match res o2 with
          | None =>
              {| res := None;
                 evs := evs o0 ++ Now :: evs o1 ++ Now :: Now :: evs o2;
                 final := final o2 |}
          | Some _ =>
              {| res := Some (result_at clock label n (ticks s));
                 evs := evs o0 ++ Now :: evs o1 ++ Now :: Now :: evs o2 ++ [Now];
                 final := tick (final o2) |}
          end
      end
  end.

(** ** The two passes of each test function

    The loops of the test functions, named so that properties can speak
    about the pass between two clock readings.  [*_protocol] below proves
    each test function equal to [protocol] over its passes. *)
Section Passes.
Context `{Externals}.

(** Serializing pass of the JSON, MessagePack and Avro tests. *)
Definition encoding {P} (wrap : P -> payload) (enc : nat -> P) (n : nat) : M (list P) :=
  for_range n [] (fun i serialized =>
    p <- encoder_call wrap (enc i) ;;
    ret (push serialized p)).

(** Deserializing pass of the web tests: the decoded numbers are summed. *)
Definition decoding_sum {P} (wrap : P -> payload) (dec : P -> option TestData)
    (label : string) (n : nat) (serialized : list P) : M unit :=
  sum <- for_range n 0 (fun i sum =>
    parsed <- decoder_call wrap Data dec (array_get serialized i) ;;
    ret (sum + foo_number parsed)) ;;
  when (sum =? 0) (console_log [VString label; VNumber (of_Z sum)]).

(** Deserializing pass of the React Native tests. *)
Definition decoding {P} (wrap : P -> payload) (dec : P -> option TestData)
    (n : nat) (serialized : list P) : M unit :=
  for_range n tt (fun i _ =>
    decoder_call wrap Data dec (array_get serialized i) ;;;
    ret tt).

Definition fixture (i : nat) : TestData := {| foo := "bar"; foo_number := Z.of_nat i |}.

Definition fixture_varying (i : nat) : TestData :=
  {| foo := ("bar" ++ show_nat i)%string; foo_number := Z.of_nat i |}.

(** Builder state after the calls of one iteration. *)
Definition finished_table (i : nat) (st : builder_state) : builder_state :=
  let '(st, fooOffset) := Builder_createString (VString "bar") st in
  let '(st, testDataOffset) := TestData_createTestData fooOffset (Z.of_nat i) st in
  Builder_finish testDataOffset st.

Definition finished_by_hand (i : nat) (st : builder_state) : builder_state :=
  let '(st, fooOffset) := Builder_createString (VString "bar") st in
  let st := Builder_startObject 2 st in
  let st := Builder_addFieldOffset 0 fooOffset 0 st in
  let st := Builder_addFieldInt32 1 (Z.of_nat i) 0 st in
  let '(st, offset) := Builder_endObject st in
  Builder_finish offset st.

(** One iteration of the serializing loop of [Web.testFlatBuffers]. *)
Definition web_flatbuffers_iteration (i : nat)
    (vars : Builder * list (option Uint8Array))
  : M (Builder * list (option Uint8Array)) :=
  let '(builder, serialized) := vars in
  builder <- method Builder_clear builder ;;
  r <- method_offset (Builder_createString (VString "bar")) builder ;;
  let '(builder, fooOffset) := r in
  r <- method_offset (TestData_createTestData fooOffset (Z.of_nat i)) builder ;;
  let '(builder, testDataOffset) := r in
  builder <- method (Builder_finish testDataOffset) builder ;;
  buf <- asUint8Array builder ;;
  copy <- slice buf ;;
  ret (builder, array_set serialized i copy).

(** Passes of [Web.testFlatBuffers]. *)
Definition web_flatbuffers_serializing (n : nat) (builder : Builder)
  : M (Builder * list (option Uint8Array)) :=
  for_range n (builder, new_Array n) web_flatbuffers_iteration.

(** One iteration of its deserializing loop, over the array [serialized]. *)
Definition table_iteration (view_at : nat -> option Uint8Array) (i : nat) (sum : Z) : M Z :=
  buf <- new_ByteBuffer (view_at i) ;;
  testData <- getRootAsTestData buf ;;
  let foo := TestData_foo testData in
  let fooNumber := TestData_fooNumber testData in
  ret (sum + (fooNumber + length_or_0 foo)).

Definition web_flatbuffers_deserializing (n : nat)
    (filled : Builder * list (option Uint8Array)) : M unit :=
  sum <- for_range n 0 (table_iteration (array_get_sparse (snd filled))) ;;
  when (sum =? 0) (console_log [VString "FlatBuffers sum:"; VNumber (of_Z sum)]).

(** The warnings of one iteration of [Native.testFlatBuffers]. *)
Definition table_warnings (i : nat) (foo : option string) (fooNumber : Z) : list string :=
  (if differs foo "bar"
   then [("FlatBuffers string mismatch at iteration " ++ show_nat i
          ++ ": expected 'bar', got '" ++ show_nullable foo ++ "'")%string]
   else [])
  ++ (if negb (fooNumber =? Z.of_nat i)
      then [("FlatBuffers number mismatch at iteration " ++ show_nat i
             ++ ": expected " ++ show_nat i ++ ", got " ++ show_Z fooNumber)%string]
      else []).

(** One iteration of the serializing loop of [Native.testFlatBuffers]. *)
Definition native_flatbuffers_iteration (i : nat) (serialized : list Uint8Array)
  : M (list Uint8Array) :=
  builder <- new_Builder 1024 ;;
  r <- method_offset (Builder_createString (VString "bar")) builder ;;
  let '(builder, fooOffset) := r in
  r <- method_offset (TestData_createTestData fooOffset (Z.of_nat i)) builder ;;
  let '(builder, testDataOffset) := r in
  builder <- method (Builder_finish testDataOffset) builder ;;
  view <- asUint8Array builder ;;
  ret (push serialized view).

(** One iteration of its deserializing loop. *)
Definition checked_iteration (serialized : list Uint8Array) (i : nat) (_ : unit) : M unit :=
  buf <- new_ByteBuffer (array_get serialized i) ;;
  testData <- getRootAsTestData buf ;;
  let foo := TestData_foo testData in
  let fooNumber := TestData_fooNumber testData in
  when (differs foo "bar")
    (console_warn ("FlatBuffers string mismatch at iteration " ++ show_nat i
                   ++ ": expected 'bar', got '" ++ show_nullable foo ++ "'")%string) ;;;
  when (negb (fooNumber =? Z.of_nat i))
    (console_warn ("FlatBuffers number mismatch at iteration " ++ show_nat i
                   ++ ": expected " ++ show_nat i
                   ++ ", got " ++ show_Z fooNumber)%string).

(** Passes of [Native.testFlatBuffers]. *)
Definition native_flatbuffers_serializing (n : nat) : M (list Uint8Array) :=
  for_range n [] native_flatbuffers_iteration.

Definition native_flatbuffers_deserializing (n : nat) (serialized : list Uint8Array)
  : M unit :=
  for_range n tt (checked_iteration serialized).

(** One iteration of the serializing loop of
    [NativeLowLevel.testFlatBuffers]. *)
Definition lowlevel_iteration (i : nat) (serialized : list Uint8Array)
  : M (list Uint8Array) :=
  builder <- new_Builder 1024 ;;
  r <- method_offset (Builder_createString (VString "bar")) builder ;;
  let '(builder, fooOffset) := r in
  builder <- method (Builder_startObject 2) builder ;;
  builder <- method (Builder_addFieldOffset 0 fooOffset 0) builder ;;
  builder <- method (Builder_addFieldInt32 1 (Z.of_nat i) 0) builder ;;
  r <- method_offset Builder_endObject builder ;;
  let '(builder, offset) := r in
  builder <- method (Builder_finish offset) builder ;;
  view <- asUint8Array builder ;;
  ret (push serialized view).

(** Passes of [NativeLowLevel.testFlatBuffers]. *)
Definition lowlevel_serializing (n : nat) : M (list Uint8Array) :=
  for_range n [] lowlevel_iteration.

(** The warnings of one iteration of [NativeLowLevel.testFlatBuffers], for
    the bytes [buf] under a view of [length] bytes. *)
Definition lowlevel_warnings (i : nat) (buf : list Byte.byte) (length : nat) : list string :=
  let root := ByteBuffer_readInt32 buf (Z.of_nat length - 4) in
  let vtableOffset := root - ByteBuffer_readInt32 buf root in
  let field0Offset := ByteBuffer_readInt16 buf (vtableOffset + 4) in
  let field1Offset := ByteBuffer_readInt16 buf (vtableOffset + 6) in
  (if negb (field0Offset =? 0)
      && negb (ByteBuffer_readInt32 buf (root + field0Offset) =? 0)
      && negb (ByteBuffer_readInt32 buf
                 (root + field0Offset + ByteBuffer_readInt32 buf (root + field0Offset)) =? 3)
   then [("FlatBuffers string length mismatch at iteration " ++ show_nat i)%string]
   else [])
  ++ (if negb (field1Offset =? 0)
         && negb (ByteBuffer_readInt32 buf (root + field1Offset) =? Z.of_nat i)
      then [("FlatBuffers number mismatch at iteration " ++ show_nat i
             ++ ": expected " ++ show_nat i ++ ", got "
             ++ show_Z (ByteBuffer_readInt32 buf (root + field1Offset)))%string]
      else []).

(** One iteration of its deserializing loop. *)
Definition by_hand_iteration (serialized : list Uint8Array) (i : nat) (_ : unit) : M unit :=
  buf <- new_ByteBuffer (array_get serialized i) ;;
  emit (Deserialize (Bytes buf) Raw) ;;;
  length <- view_length (array_get serialized i) ;;
  let root := ByteBuffer_readInt32 buf (Z.of_nat length - 4) in
  let vtableOffset := root - ByteBuffer_readInt32 buf root in
  let field0Offset := ByteBuffer_readInt16 buf (vtableOffset + 4) in
  let field1Offset := ByteBuffer_readInt16 buf (vtableOffset + 6) in
  when (negb (field0Offset =? 0))
    (let stringOffset := ByteBuffer_readInt32 buf (root + field0Offset) in
     when (negb (stringOffset =? 0))
       (let stringPos := root + field0Offset + stringOffset in
        let stringLength := ByteBuffer_readInt32 buf stringPos in
        when (negb (stringLength =? 3))
          (console_warn ("FlatBuffers string length mismatch at iteration "
                         ++ show_nat i)%string))) ;;;
  when (negb (field1Offset =? 0))
    (let numberValue := ByteBuffer_readInt32 buf (root + field1Offset) in
     when (negb (numberValue =? Z.of_nat i))
       (console_warn ("FlatBuffers number mismatch at iteration " ++ show_nat i
                      ++ ": expected " ++ show_nat i
                      ++ ", got " ++ show_Z numberValue)%string)).

Definition lowlevel_deserializing (n : nat) (serialized : list Uint8Array) : M unit :=
  for_range n tt (by_hand_iteration serialized).

(** Passes of the tests on the large data set. *)
Definition large_json_deserializing (serialized : string) : M unit :=
  parsed <- parse_value (Some serialized) ;;
  let sum := array_length_or_0 parsed in
  when (sum =? 0) (console_log [VString "Large JSON sum:"; VNumber (of_Z sum)]).

Definition large_msgpack_deserializing (serialized : list Byte.byte) : M unit :=
  parsed <- msgpack_decode_value (Some serialized) ;;
  let sum := array_length_or_0 parsed in
  when (sum =? 0) (console_log [VString "Large MessagePack sum:"; VNumber (of_Z sum)]).

(** One iteration of the loop over the persons of the data set. *)
Definition person_iteration (data : list value) (i : nat) (vars : Builder * list Z)
  : M (Builder * list Z) :=
  let '(builder, personOffsets) := vars in
  let person := default VUndefined (array_get data i) in
  name <- get_property person "name" ;;
  r <- method_offset (Builder_createString (js_or name (VString ""))) builder ;;
  let '(builder, nameOffset) := r in
  language <- get_property person "language" ;;
  r <- method_offset (Builder_createString (js_or language (VString ""))) builder ;;
  let '(builder, languageOffset) := r in
  id <- get_property person "id" ;;
  r <- method_offset (Builder_createString (js_or id (VString ""))) builder ;;
  let '(builder, idOffset) := r in
  bio <- get_property person "bio" ;;
  r <- method_offset (Builder_createString (js_or bio (VString ""))) builder ;;
  let '(builder, bioOffset) := r in
  version <- get_property person "version" ;;
  let version := js_or version (VNumber zero) in
  r <- method_offset
         (Person_createPerson nameOffset languageOffset idOffset bioOffset version)
         builder ;;
  let '(builder, personOffset) := r in
  ret (builder, push personOffsets personOffset).

(** The builder calls of [testLargeFlatBuffers], up to [finish]. *)
Definition large_flatbuffers_building (data : list value) : M Builder :=
  builder <- new_Builder (1024 * 1024 * 10) ;;
  built <- for_range (List.length data) (builder, []) (person_iteration data) ;;
  let '(builder, personOffsets) := built in
  r <- method_offset (PersonList_createPersonsVector personOffsets) builder ;;
  let '(builder, personsVector) := r in
  r <- method_offset (PersonList_createPersonList personsVector) builder ;;
  let '(builder, personListOffset) := r in
  method (Builder_finish personListOffset) builder.

Definition large_flatbuffers_serializing (data : list value) : M Uint8Array :=
  builder <- large_flatbuffers_building data ;;
  asUint8Array builder.

(** The loop over the persons of the decoded list. *)
Definition sum_versions (personList : list Byte.byte) : M number :=
  for_range (PersonList_personsLength personList) zero (fun i sum =>
    match PersonList_persons_version personList i with
    | Some version => ret (add sum version)
    | None => ret sum
    end).

Definition large_flatbuffers_deserializing (serialized : Uint8Array) : M unit :=
  buf <- new_ByteBuffer (Some serialized) ;;
  personList <- getRootAsPersonList buf ;;
  sum <- sum_versions personList ;;
  when (eqb sum zero) (console_log [VString "Large FlatBuffers sum:"; VNumber sum]).

End Passes.

(** ** Reading a trace *)

Definition serialized_payloads (t : list event) : list payload :=
  omap (fun e => match e with Serialize p => Some p | _ => None end) t.

Definition deserialized_payloads (t : list event) : list payload :=
  omap (fun e => match e with Deserialize p _ => Some p | _ => None end) t.

Definition decoded_values (t : list event) : list decoded :=
  omap (fun e => match e with Deserialize _ d => Some d | _ => None end) t.

Definition warnings (t : list event) : list string :=
  omap (fun e => match e with Warn msg => Some msg | _ => None end) t.

(** The result lists shown, in order, and the cards drawn for them. *)
Definition shown_results (t : list event) : list (list TestResult) :=
  omap (fun e => match e with Render results _ => Some results | _ => None end) t.

Definition shown_cards (t : list event) : list (list card) :=
  omap (fun e => match e with Render _ cards => Some cards | _ => None end) t.

Definition is_Serialize (e : event) : bool :=
  match e with Serialize _ => true | _ => false end.

Definition is_Deserialize (e : event) : bool :=
  match e with Deserialize _ _ => true | _ => false end.

Definition is_Now (e : event) : bool :=
  match e with Now => true | _ => false end.

(** ** The test functions of the four revisions *)
Inductive test_function :=
| Web_testJSON
| Web_testMessagePack
| Web_testFlatBuffers
| WebLarge_testJSON
| WebLarge_testMessagePack
| WebLarge_testFlatBuffers
| WebLarge_testAvro
| WebLarge_testLargeJSON
| WebLarge_testLargeMessagePack
| WebLarge_testLargeFlatBuffers
| Native_testJSON
| Native_testMessagePack
| Native_testFlatBuffers
| NativeLowLevel_testJSON
| NativeLowLevel_testMessagePack
| NativeLowLevel_testFlatBuffers.

(** A test function run with the clock, the iteration count of the profile
    and the bundled data set. *)
Definition run_test `{Externals} (f : test_function) (clock : nat -> number)
    (ITERATIONS : nat) (largeJsonData : list value) : M TestResult :=
  match f with
  | Web_testJSON => Web.testJSON clock ITERATIONS
  | Web_testMessagePack => Web.testMessagePack clock ITERATIONS
  | Web_testFlatBuffers => Web.testFlatBuffers clock ITERATIONS
  | WebLarge_testJSON => WebLarge.testJSON clock ITERATIONS
  | WebLarge_testMessagePack => WebLarge.testMessagePack clock ITERATIONS
  | WebLarge_testFlatBuffers => WebLarge.testFlatBuffers clock ITERATIONS
  | WebLarge_testAvro => WebLarge.testAvro clock ITERATIONS
  | WebLarge_testLargeJSON => WebLarge.testLargeJSON clock largeJsonData
  | WebLarge_testLargeMessagePack => WebLarge.testLargeMessagePack clock largeJsonData
  | WebLarge_testLargeFlatBuffers => WebLarge.testLargeFlatBuffers clock largeJsonData
  | Native_testJSON => Native.testJSON clock ITERATIONS
  | Native_testMessagePack => Native.testMessagePack clock ITERATIONS
  | Native_testFlatBuffers => Native.testFlatBuffers clock ITERATIONS
  | NativeLowLevel_testJSON => NativeLowLevel.testJSON clock ITERATIONS
  | NativeLowLevel_testMessagePack => NativeLowLevel.testMessagePack clock ITERATIONS
  | NativeLowLevel_testFlatBuffers => NativeLowLevel.testFlatBuffers clock ITERATIONS
  end.

(** The tests on the large data set. *)
Definition is_large (f : test_function) : bool :=
  match f with
  | WebLarge_testLargeJSON | WebLarge_testLargeMessagePack
  | WebLarge_testLargeFlatBuffers => true
  | _ => false
  end.

(** [f] is [protocol] over clock-free passes. *)
Definition follows_protocol (f : (nat -> number) -> M TestResult)
    (label : string) (n : nat) : Prop :=
  exists (X A : Type) (setup : M X) (serializing : X -> M A)
         (deserializing : X -> A -> M unit),
    clock_free setup /\
    (forall x, clock_free (serializing x)) /\
    (forall x a, clock_free (deserializing x a)) /\
    forall clock s,
      f clock s = protocol clock label n setup serializing deserializing s.

(** The label of each test and the iteration count it reports. *)
Definition label_of (f : test_function) : string :=
  match f with
  | Web_testJSON | WebLarge_testJSON | Native_testJSON | NativeLowLevel_testJSON => "JSON"
  | Web_testMessagePack | WebLarge_testMessagePack | Native_testMessagePack
  | NativeLowLevel_testMessagePack => "MessagePack"
  | Web_testFlatBuffers | WebLarge_testFlatBuffers | Native_testFlatBuffers
  | NativeLowLevel_testFlatBuffers => "FlatBuffers"
  | WebLarge_testAvro => "Avro"
  | WebLarge_testLargeJSON => "JSON (5MB)"
  | WebLarge_testLargeMessagePack => "MessagePack (5MB)"
  | WebLarge_testLargeFlatBuffers => "FlatBuffers (5MB)"
  end.

Definition count_of (f : test_function) (ITERATIONS : nat) : nat :=
  if is_large f then 1%nat else ITERATIONS.

(** Successive readings of a clock never go back, and every reading is a
    finite double. *)
Definition monotone (clock : nat -> number) : Prop :=
  forall i, leb (clock i) (clock (S i)) = true.

Definition finite_readings (clock : nat -> number) : Prop :=
  forall i, finite (clock i) = true.

(** ** Computations whose events all satisfy a predicate *)
Definition emits {A} (P : event -> Prop) (m : M A) : Prop :=
  forall s, Forall P (evs (m s)).

(** Events of a test function, as opposed to those of the runner. *)
Definition test_event (e : event) : Prop :=
  match e with
  | Render _ _ | Sleep _ | Ui _ => False
  | _ => True
  end.

(** No event at all. *)
Definition silent {A} (m : M A) : Prop := forall s, evs (m s) = [].

(** The heap is left as it was found. *)
Definition heap_kept {A} (m : M A) : Prop := forall s, heap (final (m s)) = heap s.

(** One iteration of a deserializing loop over the array [serialized];
    [g] is what the iteration does with the decoded value. *)
Definition decode_body `{Externals} {P S} (wrap : P -> payload)
    (dec : P -> option TestData) (serialized : list P) (g : S -> TestData -> S)
  : nat -> S -> M S :=
  fun i acc =>
    parsed <- decoder_call wrap Data dec (array_get serialized i) ;;
    ret (g acc parsed).

(** The payloads of [serialized] at the given indices. *)
Definition retained {P} (wrap : P -> payload) (serialized : list P)
    (indices : list nat) : list payload :=
  omap (fun i => wrap <$> serialized !! i) indices.

(** ** Builders and the views kept of them *)

(** The window [asUint8Array] returns for builder [b] on heap [h]. *)
Definition window_of `{Externals} (b : Builder) (h : list (list Byte.byte)) : Uint8Array :=
  let n := List.length (written (state b)) in
  {| buffer := bb b;
     byteOffset := List.length (buffer_at h (bb b)) - n;
     byteLength := n |}.

(** The builder's buffer exists and ends with the bytes written so far. *)
Definition in_sync `{Externals} (h : list (list Byte.byte)) (b : Builder) : Prop :=
  (bb b < List.length h)%nat /\ read_heap h (window_of b h) = written (state b).

(** From heap [h] with the builder on buffer [l] to heap [h'] with the
    builder on buffer [l']: every other buffer of [h] is still there,
    unchanged, and is not the builder's. *)
Definition frame (h : list (list Byte.byte)) (l : nat)
    (h' : list (list Byte.byte)) (l' : nat) : Prop :=
  (List.length h <= List.length h')%nat /\
  forall k, (k < List.length h)%nat -> k <> l -> h' !! k = h !! k /\ k <> l'.

(** The payloads the reused builder of [Web.testFlatBuffers] produces,
    starting from state [st]. *)
Fixpoint web_payloads `{Externals} (indices : list nat) (st : builder_state)
  : list (list Byte.byte) :=
  match indices with
  | [] => []
  | i :: rest =>
      let st' := finished_table i (Builder_clear st) in
      written st' :: web_payloads rest st'
  end.

(** Builder state after the calls of one iteration on a fresh builder. *)
Definition fresh_table `{Externals} (i : nat) : builder_state :=
  finished_table i (Builder_new 1024).

Definition fresh_by_hand `{Externals} (i : nat) : builder_state :=
  finished_by_hand i (Builder_new 1024).

(** What an iteration of a deserializing loop over FlatBuffers views emits
    for the bytes [buf] it finds under view [v]. *)
Definition table_events `{Externals} (buf : list Byte.byte) : list event :=
  [Deserialize (Bytes buf) (Table (TestData_foo buf) (TestData_fooNumber buf))].

Definition checked_events `{Externals} (i : nat) (buf : list Byte.byte) : list event :=
  Deserialize (Bytes buf) (Table (TestData_foo buf) (TestData_fooNumber buf))
  :: map Warn (table_warnings i (TestData_foo buf) (TestData_fooNumber buf)).

Definition by_hand_events `{Externals} (i : nat) (buf : list Byte.byte) : list event :=
  Deserialize (Bytes buf) Raw
  :: map Warn (lowlevel_warnings i buf (List.length buf)).

(** ** What the claims say about a run *)

(** The two passes of a run [o] are separated: its trace is one clock
    reading, one [Serialize] event for each of the [payloads], two clock
    readings, and a rest without [Serialize] event in which the payloads
    are deserialized in order, all of them when a result is returned. *)
Definition separated (o : Out TestResult) (payloads : list payload) : Prop :=
  exists rest,
    evs o = Now :: map Serialize payloads ++ Now :: Now :: rest /\
    serialized_payloads rest = [] /\
    deserialized_payloads rest `prefix_of` payloads /\
    match res o with
    | Some _ => deserialized_payloads rest = payloads
    | None => True
    end.

(** The run [o] returns a result and decodes exactly [expected], in order. *)
Definition decodes_to (o : Out TestResult) (expected : list decoded) : Prop :=
  is_Some (res o) /\ decoded_values (evs o) = expected.

(** The payloads of the two React Native FlatBuffers tests. *)
Definition native_payloads `{Externals} (n : nat) : list (list Byte.byte) :=
  map (fun i => written (fresh_table i)) (seq 0 n).

Definition lowlevel_payloads `{Externals} (n : nat) : list (list Byte.byte) :=
  map (fun i => written (fresh_by_hand i)) (seq 0 n).

(** Everything a FlatBuffers test run [o] does: it returns the result of
    the protocol, serializes the [n] buffers [bufs], then deserializes the
    same buffers, decodes [D] from each and emits the warnings [ws]. *)
Definition flatbuffers_run (o : Out TestResult) (r : TestResult) (n : nat)
    (bufs : list (list Byte.byte)) (D : list Byte.byte -> decoded)
    (ws : list string) : Prop :=
  res o = Some r /\
  List.length bufs = n /\
  separated o (map Bytes bufs) /\
  decoded_values (evs o) = map D bufs /\
  warnings (evs o) = ws.

(** The payloads each small test serializes, in order. *)
Definition payloads_of `{Externals} (f : test_function) (n : nat) : list payload :=
  match f with
  | Web_testJSON | Native_testJSON | NativeLowLevel_testJSON =>
      map (fun i => Text (JSON_stringify (fixture i))) (seq 0 n)
  | WebLarge_testJSON =>
      map (fun i => Text (JSON_stringify (fixture_varying i))) (seq 0 n)
  | Web_testMessagePack | WebLarge_testMessagePack | Native_testMessagePack
  | NativeLowLevel_testMessagePack =>
      map (fun i => Bytes (encode (fixture i))) (seq 0 n)
  | WebLarge_testAvro => map (fun i => Bytes (toBuffer (fixture i))) (seq 0 n)
  | Web_testFlatBuffers | WebLarge_testFlatBuffers =>
      map Bytes (web_payloads (seq 0 n) (Builder_new 1024))
  | Native_testFlatBuffers => map Bytes (native_payloads n)
  | NativeLowLevel_testFlatBuffers => map Bytes (lowlevel_payloads n)
  | WebLarge_testLargeJSON | WebLarge_testLargeMessagePack
  | WebLarge_testLargeFlatBuffers => []
  end.

(** The string of fixture [i]. *)
Definition generated_string (f : test_function) (i : nat) : string :=
  match f with
  | WebLarge_testJSON => ("bar" ++ show_nat i)%string
  | _ => "bar"
  end.

Definition fixture_of (f : test_function) (i : nat) : TestData :=
  {| foo := generated_string f i; foo_number := Z.of_nat i |}.

(** The two fields of a decoded value. *)
Definition fields_of (d : decoded) : option (option string * Z) :=
  match d with
  | Data d => Some (Some (foo d), foo_number d)
  | Table foo fooNumber => Some (foo, fooNumber)
  | _ => None
  end.

(** The contract of the codec of test [f] on the [n] fixtures it is given:
    decoding what the encoder produced for fixture [i] gives fixture [i]
    back.  For the reused builder of the web FlatBuffers test the contract
    is about the calls of one iteration, whatever the builder held
    before [clear]. *)
Definition round_trips `{Externals} (f : test_function) (n : nat) : Prop :=
  match f with
  | Web_testJSON | WebLarge_testJSON | Native_testJSON | NativeLowLevel_testJSON =>
      forall i, (i < n)%nat ->
        JSON_parse (JSON_stringify (fixture_of f i)) = Some (fixture_of f i)
  | Web_testMessagePack | WebLarge_testMessagePack | Native_testMessagePack
  | NativeLowLevel_testMessagePack =>
      forall i, (i < n)%nat -> decode (encode (fixture_of f i)) = Some (fixture_of f i)
  | WebLarge_testAvro =>
      forall i, (i < n)%nat ->
        fromBuffer (toBuffer (fixture_of f i)) = Some (fixture_of f i)
  | Web_testFlatBuffers | WebLarge_testFlatBuffers =>
      forall i st, (i < n)%nat ->
        let buf := written (finished_table i (Builder_clear st)) in
        TestData_foo buf = Some "bar" /\ TestData_fooNumber buf = Z.of_nat i
  | Native_testFlatBuffers =>
      forall i, (i < n)%nat ->
        let buf := written (fresh_table i) in
        TestData_foo buf = Some "bar" /\ TestData_fooNumber buf = Z.of_nat i
  | _ => True
  end.

(** A value whose properties can be read. *)
Definition has_properties (v : value) : bool :=
  match v with
  | VUndefined | VNull => false
  | _ => true
  end.

(** The data set is one the large test [f] can process: the decoder
    accepts what the encoder made of it; for FlatBuffers, no entry of the
    array is [null]. *)
Definition accepted `{Externals} (f : test_function) (data : list value) : Prop :=
  match f with
  | WebLarge_testLargeJSON =>
      is_Some (JSON_parse_value (JSON_stringify_value (VArray data)))
  | WebLarge_testLargeMessagePack =>
      is_Some (decode_value (encode_value (VArray data)))
  | WebLarge_testLargeFlatBuffers => forallb has_properties data = true
  | _ => True
  end.

(** ** The runners *)

(** Events of a test function, as opposed to those of the runner around
    it (drawing the results, pausing, switching the controls). *)
Definition of_a_test (e : event) : bool :=
  match e with
  | Render _ _ | Sleep _ | Ui _ => false
  | _ => true
  end.

Definition test_events (t : list event) : list event := List.filter of_a_test t.

(** The tests [tests] run one after the other from state [s], each from
    the state the one before left, up to the first that raises. *)
Fixpoint runs (tests : list (M TestResult)) (s : State) : list (Out TestResult) :=
  match tests with
  | [] => []
  | test :: rest =>
      let o := test s in
      o :: match res o with
           | Some _ => runs rest (final o)
           | None => []
           end
  end.

(** What [runAllTests] does with its tests: run one, show the results so
    far with the new one appended, pause, go on with the next. *)
Fixpoint run_in_order (show : list TestResult -> M unit)
    (steps : list (M TestResult * M unit)) (done : list TestResult)
  : M (list TestResult) :=
  match steps with
  | [] => ret done
  | (test, pause) :: rest =>
      r <- test ;;
      show (done ++ [r]) ;;;
      pause ;;;
      run_in_order show rest (done ++ [r])
  end.

(** A pause of the runner: it returns, changes nothing and shows nothing. *)
Definition quiet (pause : M unit) : Prop :=
  forall s,
    res (pause s) = Some tt /\ final (pause s) = s /\
    test_events (evs (pause s)) = [] /\ shown_results (evs (pause s)) = [] /\
    shown_cards (evs (pause s)) = [].

(** The four [runAllTests]. *)
Inductive runner :=
| Web_runAllTests
| WebLarge_runAllTests
| Native_runAllTests
| NativeLowLevel_runAllTests.

Definition run_all `{Externals} (r : runner) (clock : nat -> number)
    (ITERATIONS : nat) (largeJsonData : list value) : M unit :=
  match r with
  | Web_runAllTests => Web.runAllTests clock ITERATIONS
  | WebLarge_runAllTests => WebLarge.runAllTests clock ITERATIONS largeJsonData
  | Native_runAllTests => Native.runAllTests clock ITERATIONS
  | NativeLowLevel_runAllTests => NativeLowLevel.runAllTests clock ITERATIONS
  end.

(** The tests each runner calls, in the order of its source text. *)
Definition tests_of (r : runner) : list test_function :=
  match r with
  | Web_runAllTests => [Web_testJSON; Web_testMessagePack; Web_testFlatBuffers]
  | WebLarge_runAllTests =>
      [WebLarge_testJSON; WebLarge_testMessagePack; WebLarge_testFlatBuffers;
       WebLarge_testAvro; WebLarge_testLargeJSON; WebLarge_testLargeMessagePack;
       WebLarge_testLargeFlatBuffers]
  | Native_runAllTests => [Native_testJSON; Native_testMessagePack; Native_testFlatBuffers]
  | NativeLowLevel_runAllTests =>
      [NativeLowLevel_testJSON; NativeLowLevel_testMessagePack;
       NativeLowLevel_testFlatBuffers]
  end.

(** Textual, compact binary, table binary, schema binary, then the large
    variants. *)
Definition declared_order : list string :=
  ["JSON"; "MessagePack"; "FlatBuffers"; "Avro";
   "JSON (5MB)"; "MessagePack (5MB)"; "FlatBuffers (5MB)"].

(** ** The reporter *)





(** The cards each runner draws for a list of results. *)
Definition cards_of `{Externals} (r : runner) (results : list TestResult) : list card :=
  match r with
  | WebLarge_runAllTests =>
      map (fun result =>
        {| card_format := format result;
           card_serialize := formatTime (serializeTime result);
           card_deserialize := formatTime (deserializeTime result);
           card_total := formatTime (totalTime result);
           card_average :=
             if (1 <? iterations result)%nat
             then formatTime (div (totalTime result)
                                  (of_Z (Z.of_nat (iterations result) * 2)))
             else "N/A (single operation)" |}) results
  | _ => Native.render results
  end.



(** ** Reading a diagnostic *)

(** [needle] occurs in [hay]. *)
Fixpoint includes (needle hay : string) : bool :=
  String.prefix needle hay
  || match hay with
     | EmptyString => false
     | String _ rest => includes needle rest
     end.

(** The diagnostic [w] names the format and iteration [i], and gives the
    expected and the actual value. *)
Definition names (i : nat) (w : string) : bool :=
  includes "FlatBuffers" w && includes (show_nat i) w.

Definition gives (i : nat) (expected actual : string) (w : string) : bool :=
  names i w && includes expected w && includes actual w.

(** The two [testFlatBuffers] of [SerializationTest.tsx], which check
    what they decode. *)
Definition checked_test `{Externals} (by_hand : bool) (clock : nat -> number)
    (ITERATIONS : nat) : M TestResult :=
  if by_hand then NativeLowLevel.testFlatBuffers clock ITERATIONS
  else Native.testFlatBuffers clock ITERATIONS.

Definition checked_payloads `{Externals} (by_hand : bool) (n : nat)
  : list (list Byte.byte) :=
  if by_hand then lowlevel_payloads n else native_payloads n.

(** The diagnostics of iteration [i] for the bytes [buf] of its payload. *)
Definition diagnostics_at `{Externals} (by_hand : bool) (i : nat) (buf : list Byte.byte)
  : list string :=
  if by_hand then lowlevel_warnings i buf (List.length buf)
  else table_warnings i (TestData_foo buf) (TestData_fooNumber buf).

(** ** The FlatBuffers wire format

    The builder and the table accessors as the [flatbuffers] library and
    the code [flatc] generates for [table TestData { foo: string;
    foo_number: int; }] behave on the calls of the two [testFlatBuffers]:
    a builder fills its buffer from the end, so [bytes] is the part in
    use and [offset()] its length.  The harness builds one table per
    buffer, so the search of [endObject] for an equal earlier vtable finds
    none and is left out; the tables of the large data set are not laid
    out.  The other libraries are those of [StandIn]. *)
Module Wire.

Record builder := {
  bytes : list Byte.byte;   (* the end of the buffer, from [space] on *)
  minalign : Z;
  vtable : list Z;          (* offset of each field of the open table, 0: not set *)
  object_start : Z
}.

Definition byte_of (z : Z) : Byte.byte :=
  default Byte.x00 (Byte.of_N (Z.to_N (Z.land z 255))).

Definition le16 (z : Z) : list Byte.byte := [byte_of z; byte_of (Z.shiftr z 8)].

Definition le32 (z : Z) : list Byte.byte :=
  [byte_of z; byte_of (Z.shiftr z 8); byte_of (Z.shiftr z 16); byte_of (Z.shiftr z 24)].

(** [new flatbuffers.Builder(size)], and [clear()] *)
Definition empty : builder :=
  {| bytes := []; minalign := 1; vtable := []; object_start := 0 |}.

(** [offset()]: [bb.capacity() - space] *)
Definition offset (b : builder) : Z := Z.of_nat (List.length (bytes b)).

Definition write (bs : list Byte.byte) (b : builder) : builder :=
  {| bytes := bs ++ bytes b; minalign := minalign b; vtable := vtable b;
     object_start := object_start b |}.

(** [prep(size, additional_bytes)]: zero bytes so that, [additional_bytes]
    further on, the offset is a multiple of [size]. *)
Definition prep (size additional_bytes : Z) (b : builder) : builder :=
  let align_size := Z.land (Z.lnot (offset b + additional_bytes) + 1) (size - 1) in
  {| bytes := replicate (Z.to_nat align_size) Byte.x00 ++ bytes b;
     minalign := Z.max (minalign b) size; vtable := vtable b;
     object_start := object_start b |}.

Definition addInt8 (value : Z) (b : builder) : builder :=
  write [byte_of value] (prep 1 0 b).

Definition addInt16 (value : Z) (b : builder) : builder :=
  write (le16 value) (prep 2 0 b).

Definition addInt32 (value : Z) (b : builder) : builder :=
  write (le32 value) (prep 4 0 b).

(** [addOffset(offset)]: the distance from the place written to back to
    [offset]. *)
Definition addOffset (off : Z) (b : builder) : builder :=
  let b := prep 4 0 b in
  write (le32 (offset b - off + 4)) b.

(** [slot(voffset)] *)
Definition slot (voffset : Z) (b : builder) : builder :=
  {| bytes := bytes b; minalign := minalign b;
     vtable := <[Z.to_nat voffset := offset b]> (vtable b);
     object_start := object_start b |}.

(** [addFieldInt32] and [addFieldOffset]: a value equal to the default is
    not written ([force_defaults] is [false]). *)
Definition addFieldInt32 (voffset value defaultValue : Z) (b : builder) : builder :=
  if value =? defaultValue then b else slot voffset (addInt32 value b).

Definition addFieldOffset (voffset value defaultValue : Z) (b : builder) : builder :=
  if value =? defaultValue then b else slot voffset (addOffset value b).

Definition startObject (numfields : Z) (b : builder) : builder :=
  {| bytes := bytes b; minalign := minalign b;
     vtable := replicate (Z.to_nat numfields) 0;
     object_start := offset b |}.

(** The vtable without the fields not set at its end. *)
Fixpoint trim (fields : list Z) : list Z :=
  match fields with
  | [] => []
  | v :: rest =>
      match trim rest with
      | [] => if v =? 0 then [] else [v]
      | kept => v :: kept
      end
  end.

(** [endObject()]: the place of the offset to the vtable, then the vtable
    in front of the table (fields from the last to the first, the size of
    the table, the size of the vtable), then the offset filled in. *)
Definition endObject (b : builder) : builder * Z :=
  let b := addInt32 0 b in
  let vtableloc := offset b in
  let fields := trim (vtable b) in
  let b := fold_right (fun v b => addInt16 (if v =? 0 then 0 else vtableloc - v) b)
             b fields in
  let b := addInt16 (vtableloc - object_start b) b in
  let b := addInt16 ((Z.of_nat (List.length fields) + 2) * 2) b in
  let at_ := Z.to_nat (offset b - vtableloc) in
  ({| bytes := take at_ (bytes b) ++ le32 (offset b - vtableloc)
               ++ drop (at_ + 4) (bytes b);
      minalign := minalign b; vtable := vtable b; object_start := object_start b |},
   vtableloc).

(** [finish(root_table)] *)
Definition finish (root_table : Z) (b : builder) : builder :=
  addOffset root_table (prep (minalign b) 4 b).

(** [createString(s)]: the terminating 0, the bytes of [s], its length. *)
Definition createString (s : value) (b : builder) : builder * Z :=
  match s with
  | VString s =>
      let utf8 := list_byte_of_string s in
      let b := addInt8 0 b in
      let num_elems := Z.of_nat (List.length utf8) in
      let b := prep 1 num_elems (prep 4 num_elems b) in
      let b := write (le32 num_elems) (write utf8 b) in
      (b, offset b)
  | _ => (b, 0)
  end.

(** [TestData.createTestData]: [startObject(2)], [addFieldOffset(0,
    fooOffset, 0)], the number as field 1, [endObject()]. *)
Definition createTestData (addFooNumber : Z -> builder -> builder)
    (fooOffset fooNumber : Z) (b : builder) : builder * Z :=
  endObject (addFooNumber fooNumber (addFieldOffset 0 fooOffset 0 (startObject 2 b))).

(** [bb.__offset(bb_pos, vtable_offset)] *)
Definition field_offset (buf : list Byte.byte) (bb_pos vtable_offset : Z) : Z :=
  let vtable := bb_pos - StandIn.readInt32 buf bb_pos in
  if vtable_offset <? StandIn.readInt16 buf vtable
  then StandIn.readInt16 buf (vtable + vtable_offset)
  else 0.

(** [getRootAsTestData(bb)]: the table is where the first four bytes say. *)
Definition root_table (buf : list Byte.byte) : Z := StandIn.readInt32 buf 0 + 0.

(** [bb.__string(offset)] *)
Definition string_at (buf : list Byte.byte) (offset : Z) : string :=
  let offset := offset + StandIn.readInt32 buf offset in
  let length := StandIn.readInt32 buf offset in
  string_of_list_byte (take (Z.to_nat length) (drop (Z.to_nat (offset + 4)) buf)).

(** [testData.foo()] and [testData.fooNumber()] *)
Definition foo (buf : list Byte.byte) : option string :=
  let bb_pos := root_table buf in
  let offset := field_offset buf bb_pos 4 in
  if offset =? 0 then None else Some (string_at buf (bb_pos + offset)).

Definition fooNumber (buf : list Byte.byte) : Z :=
  let bb_pos := root_table buf in
  let offset := field_offset buf bb_pos 6 in
  if offset =? 0 then 0 else StandIn.readInt32 buf (bb_pos + offset).

(** The libraries, with [createString] and [addFieldInt32] left open. *)
Definition externals_with (createString : value -> builder -> builder * Z)
    (addFieldInt32 : Z -> Z -> Z -> builder -> builder) : Externals := {|
  JSON_stringify := StandIn.stringify;
  JSON_parse := StandIn.parse;
  JSON_stringify_value := StandIn.stringify_value;
  JSON_parse_value := StandIn.parse_value;
  encode := StandIn.to_bytes;
  decode := StandIn.of_bytes;
  encode_value := fun v => list_byte_of_string (StandIn.stringify_value v);
  decode_value := fun b => StandIn.parse_value (string_of_list_byte b);
  toBuffer := StandIn.to_bytes;
  fromBuffer := StandIn.of_bytes;
  builder_state := builder;
  Builder_new := fun _ => empty;
  Builder_clear := fun _ => empty;
  Builder_createString := createString;
  Builder_startObject := startObject;
  Builder_addFieldOffset := addFieldOffset;
  Builder_addFieldInt32 := addFieldInt32;
  Builder_endObject := endObject;
  Builder_finish := finish;
  written := bytes;
  TestData_createTestData := createTestData (fun value => addFieldInt32 1 value 0);
  TestData_foo := foo;
  TestData_fooNumber := fooNumber;
  Person_createPerson := fun _ _ _ _ _ b => (b, 0);
  PersonList_createPersonsVector := fun _ b => (b, 0);
  PersonList_createPersonList := fun _ b => (b, 0);
  PersonList_personsLength := fun _ => 0%nat;
  PersonList_persons_version := fun _ _ => None;
  ByteBuffer_readInt32 := StandIn.readInt32;
  ByteBuffer_readInt16 := StandIn.readInt16;
  toFixed := fun x _ => StandIn.toFixed2 x
|}.

(** The library as it is. *)
Definition externals : Externals := externals_with createString addFieldInt32.

(** An encoder with a defect: every number is written one too large. *)
Definition miscounting : Externals :=
  externals_with createString
    (fun voffset value defaultValue => addFieldInt32 voffset (value + 1) defaultValue).

(** An encoder with another defect: whatever string is asked for, it
    writes "abcd" followed by a form feed, five bytes of which the last
    is 12. *)
Definition wrong_string : string := "abcd" ++ String (ascii_of_nat 12) "".

Definition misspelling : Externals :=
  externals_with (fun _ => createString (VString wrong_string)) addFieldInt32.

(** The table of fixture 7 as the library lays it out: the offset of the
    table, the vtable (its size, the size of the table, the places of
    [foo] and [foo_number] in the table), the table (the way back to the
    vtable, 7, the way to the string), the string (its length, "bar",
    0). *)
Definition table_7 : list Byte.byte :=
  [Byte.x0c; Byte.x00; Byte.x00; Byte.x00;
   Byte.x08; Byte.x00; Byte.x0c; Byte.x00; Byte.x08; Byte.x00; Byte.x04; Byte.x00;
   Byte.x08; Byte.x00; Byte.x00; Byte.x00;
   Byte.x07; Byte.x00; Byte.x00; Byte.x00;
   Byte.x04; Byte.x00; Byte.x00; Byte.x00;
   Byte.x03; Byte.x00; Byte.x00; Byte.x00;
   Byte.x62; Byte.x61; Byte.x72; Byte.x00].

End Wire.

(** ** More readings of a trace *)

(** The number of clock readings in a trace. *)
Definition reads (t : list event) : nat := List.length (List.filter is_Now t).

(** The changes of the controls, the pauses and the console logs of a
    trace, in order. *)
Definition ui_changes (t : list event) : list ui_change :=
  omap (fun e => match e with Ui c => Some c | _ => None end) t.

Definition pauses (t : list event) : list Z :=
  omap (fun e => match e with Sleep ms => Some ms | _ => None end) t.

Definition logged (t : list event) : list (list value) :=
  omap (fun e => match e with Log args => Some args | _ => None end) t.

(** An event of a pass: anything a test does but reading the clock. *)
Definition pass_event (e : event) : Prop :=
  match e with
  | Now | Render _ _ | Sleep _ | Ui _ => False
  | _ => True
  end.

(** [f] is [protocol] over clock-free passes that do not read the clock,
    after a silent setup that returns. *)
Definition follows_timed_protocol (f : (nat -> number) -> M TestResult)
    (label : string) (n : nat) : Prop :=
  exists (X A : Type) (setup : M X) (serializing : X -> M A)
         (deserializing : X -> A -> M unit),
    (clock_free setup /\ silent setup /\ forall s, is_Some (res (setup s))) /\
    (forall x, clock_free (serializing x) /\ emits pass_event (serializing x)) /\
    (forall x a, clock_free (deserializing x a) /\ emits pass_event (deserializing x a)) /\
    forall clock s,
      f clock s = protocol clock label n setup serializing deserializing s.

(** ** Controls and pauses of the runners *)

(** A pause of the runner: the waits [ms], in order, and nothing else. *)
Definition pause_of (ms : list Z) (pause : M unit) : Prop :=
  forall s, pause s = {| res := Some tt; evs := map Sleep ms; final := s |}.

(** What each runner does to the controls before its first test and
    after its last. *)
Definition opening (r : runner) : list ui_change :=
  match r with
  | Web_runAllTests | WebLarge_runAllTests =>
      [ButtonDisabled true; ButtonText "Running Tests..."; ResultsDisplay "none"]
  | Native_runAllTests | NativeLowLevel_runAllTests => [IsRunning true]
  end.

Definition closing (r : runner) : list ui_change :=
  match r with
  | Web_runAllTests | WebLarge_runAllTests =>
      [ButtonDisabled false; ButtonText "Run Performance Tests"; ResultsDisplay "block"]
  | Native_runAllTests | NativeLowLevel_runAllTests => [IsRunning false]
  end.

(** The waits after each test of a runner, in milliseconds. *)
Definition pause_plan (r : runner) : list (list Z) :=
  match r with
  | WebLarge_runAllTests => [[100]; [100; 100]; [100]; [100]; [100]; [100]; []]
  | _ => [[100]; [100]; []]
  end.

(** ** Decoders that reject *)

(** What a deserializing loop decodes from the payloads [ps]: it stops at
    the first one the decoder rejects. *)
Fixpoint decoded_until {P} (dec : P -> option TestData) (ps : list P) : list decoded :=
  match ps with
  | [] => []
  | p :: rest =>
      match dec p with
      | Some d => Data d :: decoded_until dec rest
      | None => [Threw]
      end
  end.

(** The decoder accepts [p]. *)
Definition decodes {P} (dec : P -> option TestData) (p : P) : bool :=
  match dec p with Some _ => true | None => false end.

(** The sum of the numbers decoded from [ps]. *)
Definition sum_of {P} (dec : P -> option TestData) (ps : list P) : Z :=
  fold_left (fun a p => a + match dec p with Some d => foo_number d | None => 0 end) ps 0.

(** The tests that go through a codec of their own: JSON, MessagePack
    and Avro on the small fixture. *)
Definition uses_codec (f : test_function) : bool :=
  match f with
  | Web_testJSON | WebLarge_testJSON | Native_testJSON | NativeLowLevel_testJSON
  | Web_testMessagePack | WebLarge_testMessagePack | Native_testMessagePack
  | NativeLowLevel_testMessagePack | WebLarge_testAvro => true
  | _ => false
  end.

(** The decoder of each of them, on a payload. *)
Definition decoded_by `{Externals} (f : test_function) (p : payload) : option TestData :=
  match f, p with
  | (Web_testJSON | WebLarge_testJSON | Native_testJSON | NativeLowLevel_testJSON),
    Text text => JSON_parse text
  | (Web_testMessagePack | WebLarge_testMessagePack | Native_testMessagePack
     | NativeLowLevel_testMessagePack), Bytes bytes => decode bytes
  | WebLarge_testAvro, Bytes bytes => fromBuffer bytes
  | _, _ => None
  end.

(** The web tests sum the decoded numbers and log the sum when it is 0;
    the text they log before it. *)
Definition sum_label (f : test_function) : option string :=
  match f with
  | Web_testJSON | WebLarge_testJSON => Some "JSON sum:"
  | Web_testMessagePack | WebLarge_testMessagePack => Some "MessagePack sum:"
  | WebLarge_testAvro => Some "Avro sum:"
  | _ => None
  end.

(** ** The persons of the large data set *)

(** [v.key] where it does not raise. *)
Definition property (v : value) (key : string) : value :=
  match v with
  | VObject fields =>
      match find (fun kv => String.eqb (fst kv) key) fields with
      | Some kv => snd kv
      | None => VUndefined
      end
  | _ => VUndefined
  end.

(** What [testLargeFlatBuffers] writes for a person: the four strings
    and the version, each with its default. *)
Definition person_record (person : value) : list value :=
  [js_or (property person "name") (VString "");
   js_or (property person "language") (VString "");
   js_or (property person "id") (VString "");
   js_or (property person "bio") (VString "");
   js_or (property person "version") (VNumber zero)].

(** One iteration of the loop over the persons, from the record of the
    person. *)
Definition person_written `{Externals} (record : list value) (vars : Builder * list Z)
  : M (Builder * list Z) :=
  let '(builder, personOffsets) := vars in
  let field k := default VUndefined (record !! k) in
  r <- method_offset (Builder_createString (field 0%nat)) builder ;;
  let '(builder, nameOffset) := r in
  r <- method_offset (Builder_createString (field 1%nat)) builder ;;
  let '(builder, languageOffset) := r in
  r <- method_offset (Builder_createString (field 2%nat)) builder ;;
  let '(builder, idOffset) := r in
  r <- method_offset (Builder_createString (field 3%nat)) builder ;;
  let '(builder, bioOffset) := r in
  r <- method_offset
         (Person_createPerson nameOffset languageOffset idOffset bioOffset
            (field 4%nat))
         builder ;;
  let '(builder, personOffset) := r in
  ret (builder, push personOffsets personOffset).

(** Two entries of the data set that the test cannot tell apart. *)
Definition same_person (p q : value) : Prop :=
  has_properties p = has_properties q /\ person_record p = person_record q.

(** What the codec of a large test makes of the data set. *)
Definition large_decoded `{Externals} (f : test_function) (data : list value)
  : option value :=
  match f with
  | WebLarge_testLargeJSON => JSON_parse_value (JSON_stringify_value (VArray data))
  | WebLarge_testLargeMessagePack => decode_value (encode_value (VArray data))
  | _ => None
  end.

Definition large_sum_label (f : test_function) : string :=
  match f with
  | WebLarge_testLargeJSON => "Large JSON sum:"
  | WebLarge_testLargeMessagePack => "Large MessagePack sum:"
  | _ => "Large FlatBuffers sum:"
  end.

Definition large_codec (f : test_function) : bool :=
  match f with
  | WebLarge_testLargeJSON | WebLarge_testLargeMessagePack => true
  | _ => false
  end.

(** The tests that compare what they decode with what they expect. *)
Definition checks_decoded (f : test_function) : bool :=
  match f with
  | Native_testFlatBuffers | NativeLowLevel_testFlatBuffers => true
  | _ => false
  end.

Definition not_a_warning (e : event) : Prop :=
  match e with Warn _ => False | _ => True end.

(** ** The trigger *)

(** The changes of the trigger in a trace: [runButton.disabled = b] on
    the page, [disabled={isRunning}] on the screen. *)
Definition trigger_changes (t : list event) : list bool :=
  omap (fun e => match e with
                 | Ui (ButtonDisabled b) | Ui (IsRunning b) => Some b
                 | _ => None
                 end) t.

(** Whether the trigger is disabled after the events [t]; [None] when
    [t] has not touched it. *)
Definition trigger_disabled_after (t : list event) : option bool :=
  last (trigger_changes t).

(** Anything but a change of the controls. *)
Definition is_work (e : event) : bool :=
  match e with Ui _ => false | _ => true end.

(** ** The table reader written by hand *)

(** What the deserializing loop of [NativeLowLevel.testFlatBuffers] takes
    from the bytes [buf] of a view of [length] bytes: the root, the two
    field offsets, and the string length and the number it goes on to
    read ([None] where the test on the offset keeps it from reading). *)
Record by_hand_reading := {
  root : Z;
  field0Offset : Z;
  field1Offset : Z;
  stringLength : option Z;
  numberValue : option Z
}.

Definition read_by_hand `{Externals} (buf : list Byte.byte) (length : nat)
  : by_hand_reading :=
  let root := ByteBuffer_readInt32 buf (Z.of_nat length - 4) in
  let vtableOffset := root - ByteBuffer_readInt32 buf root in
  let field0Offset := ByteBuffer_readInt16 buf (vtableOffset + 4) in
  let field1Offset := ByteBuffer_readInt16 buf (vtableOffset + 6) in
  {| root := root;
     field0Offset := field0Offset;
     field1Offset := field1Offset;
     stringLength :=
       if negb (field0Offset =? 0) then
         let stringOffset := ByteBuffer_readInt32 buf (root + field0Offset) in
         if negb (stringOffset =? 0)
         then Some (ByteBuffer_readInt32 buf (root + field0Offset + stringOffset))
         else None
       else None;
     numberValue :=
       if negb (field1Offset =? 0)
       then Some (ByteBuffer_readInt32 buf (root + field1Offset))
       else None |}.

(** The warnings of iteration [i] for what was read. *)
Definition reading_warnings (i : nat) (r : by_hand_reading) : list string :=
  match stringLength r with
  | Some stringLength =>
      if negb (stringLength =? 3)
      then [("FlatBuffers string length mismatch at iteration " ++ show_nat i)%string]
      else []
  | None => []
  end
  ++ match numberValue r with
     | Some numberValue =>
         if negb (numberValue =? Z.of_nat i)
         then [("FlatBuffers number mismatch at iteration " ++ show_nat i
                ++ ": expected " ++ show_nat i ++ ", got " ++ show_Z numberValue)%string]
         else []
     | None => []
     end.

(** The reader has reached neither field. *)
Definition no_field_read (r : by_hand_reading) : Prop :=
  field0Offset r = 0 /\ field1Offset r = 0 /\
  stringLength r = None /\ numberValue r = None.

(** ** The array held between the passes *)

(** The parts of a test function around its clock readings: what it sets
    up first, its serializing loop, which returns the array [serialized],
    its deserializing loop over that array, and the payload each slot of
    the array holds in a store ([None]: an empty slot). *)
Record passes `{Externals} := {
  pass_local : Type;
  pass_array : Type;
  pass_setup : M pass_local;
  pass_serializing : pass_local -> M pass_array;
  pass_deserializing : pass_local -> pass_array -> M unit;
  pass_slots : list (list Byte.byte) -> pass_array -> list (option payload)
}.

(** Tests that push what the encoder returns. *)
Definition codec_passes `{Externals} {P} (wrap : P -> payload) (enc : nat -> P)
    (deserializing : list P -> M unit) (n : nat) : passes :=
  {| pass_local := unit;
     pass_array := list P;
     pass_setup := ret tt;
     pass_serializing := fun _ => encoding wrap enc n;
     pass_deserializing := fun _ => deserializing;
     pass_slots := fun _ serialized => map (fun p => Some (wrap p)) serialized |}.

(** Tests that push a view of the builder's buffer. *)
Definition view_passes `{Externals} (serializing : M (list Uint8Array))
    (deserializing : list Uint8Array -> M unit) : passes :=
  {| pass_local := unit;
     pass_array := list Uint8Array;
     pass_setup := ret tt;
     pass_serializing := fun _ => serializing;
     pass_deserializing := fun _ => deserializing;
     pass_slots := fun h serialized =>
       map (fun v => Some (Bytes (read_heap h v))) serialized |}.

(** The web FlatBuffers test: one builder, and [new Array(ITERATIONS)]
    filled by index. *)
Definition web_flatbuffers_passes `{Externals} (n : nat) : passes :=
  {| pass_local := Builder;
     pass_array := Builder * list (option Uint8Array);
     pass_setup := new_Builder 1024;
     pass_serializing := web_flatbuffers_serializing n;
     pass_deserializing := fun _ => web_flatbuffers_deserializing n;
     pass_slots := fun h filled =>
       map (fun slot => (fun v => Bytes (read_heap h v)) <$> slot) (snd filled) |}.

Definition passes_of `{Externals} (f : test_function) (n : nat)
    (largeJsonData : list value) : passes :=
  match f with
  | Web_testJSON =>
      codec_passes Text (fun i => JSON_stringify (fixture i))
        (decoding_sum Text JSON_parse "JSON sum:" n) n
  | WebLarge_testJSON =>
      codec_passes Text (fun i => JSON_stringify (fixture_varying i))
        (decoding_sum Text JSON_parse "JSON sum:" n) n
  | Web_testMessagePack | WebLarge_testMessagePack =>
      codec_passes Bytes (fun i => encode (fixture i))
        (decoding_sum Bytes decode "MessagePack sum:" n) n
  | WebLarge_testAvro =>
      codec_passes Bytes (fun i => toBuffer (fixture i))
        (decoding_sum Bytes fromBuffer "Avro sum:" n) n
  | Web_testFlatBuffers | WebLarge_testFlatBuffers => web_flatbuffers_passes n
  | Native_testJSON | NativeLowLevel_testJSON =>
      codec_passes Text (fun i => JSON_stringify (fixture i))
        (decoding Text JSON_parse n) n
  | Native_testMessagePack | NativeLowLevel_testMessagePack =>
      codec_passes Bytes (fun i => encode (fixture i)) (decoding Bytes decode n) n
  | Native_testFlatBuffers =>
      view_passes (native_flatbuffers_serializing n) (native_flatbuffers_deserializing n)
  | NativeLowLevel_testFlatBuffers =>
      view_passes (lowlevel_serializing n) (lowlevel_deserializing n)
  | WebLarge_testLargeJSON =>
      {| pass_local := unit;
         pass_array := string;
         pass_setup := ret tt;
         pass_serializing := fun _ => stringify_value (VArray largeJsonData);
         pass_deserializing := fun _ => large_json_deserializing;
         pass_slots := fun _ serialized => [Some (Text serialized)] |}
  | WebLarge_testLargeMessagePack =>
      {| pass_local := unit;
         pass_array := list Byte.byte;
         pass_setup := ret tt;
         pass_serializing := fun _ => msgpack_encode_value (VArray largeJsonData);
         pass_deserializing := fun _ => large_msgpack_deserializing;
         pass_slots := fun _ serialized => [Some (Bytes serialized)] |}
  | WebLarge_testLargeFlatBuffers =>
      {| pass_local := unit;
         pass_array := Uint8Array;
         pass_setup := ret tt;
         pass_serializing := fun _ => large_flatbuffers_serializing largeJsonData;
         pass_deserializing := fun _ => large_flatbuffers_deserializing;
         pass_slots := fun h serialized => [Some (Bytes (read_heap h serialized))] |}
  end.

(** The run [o] of a test with passes [P] from state [s] holds [payloads]
    when its deserializing loop starts: the serializing loop has returned
    the array, having emitted one [Serialize] event per payload and
    nothing else; in the store it leaves, slot [i] of the array holds
    payload [i] and there is no other slot; two clock readings later the
    deserializing loop starts on that array, serializes nothing, and is
    given those payloads in order, all of them when the test returns. *)
Definition held_before_deserializing `{Externals} (P : passes)
    (payloads : list payload) (s : State) (o : Out TestResult) : Prop :=
  exists x serialized s0 s1,
    pass_setup P s = {| res := Some x; evs := []; final := s0 |} /\
    pass_serializing P x (tick s0)
    = {| res := Some serialized; evs := map Serialize payloads; final := s1 |} /\
    pass_slots P (heap s1) serialized = map Some payloads /\
    let o2 := pass_deserializing P x serialized (tick (tick s1)) in
    evs o = Now :: map Serialize payloads ++ Now :: Now :: evs o2
            ++ match res o2 with Some _ => [Now] | None => [] end /\
    (is_Some (res o) <-> is_Some (res o2)) /\
    serialized_payloads (evs o2) = [] /\
    deserialized_payloads (evs o2) `prefix_of` payloads /\
    (is_Some (res o2) -> deserialized_payloads (evs o2) = payloads).

(* ---- end of definitions ---- *)

(** * Properties *)

(** ** Facts about binary64 subtraction *)
Section NumberFacts.

Lemma digits2_pos_lt (m : positive) : Z.pos m < 2 ^ Z.pos (digits2_pos m).
Proof.
  induction m as [m IH|m IH|]; cbn [digits2_pos].
  - rewrite Pos2Z.inj_succ, Z.pow_succ_r by lia. lia.
  - rewrite Pos2Z.inj_succ, Z.pow_succ_r by lia. lia.
  - reflexivity.
Qed.

Lemma digits2_pos_ge (m : positive) : 2 ^ (Z.pos (digits2_pos m) - 1) <= Z.pos m.
Proof.
  induction m as [m IH|m IH|]; cbn [digits2_pos].
  - rewrite Pos2Z.inj_succ.
    replace (Z.succ (Z.pos (digits2_pos m)) - 1) with (Z.succ (Z.pos (digits2_pos m) - 1)) by lia.
    rewrite Z.pow_succ_r by lia. lia.
  - rewrite Pos2Z.inj_succ.
    replace (Z.succ (Z.pos (digits2_pos m)) - 1) with (Z.succ (Z.pos (digits2_pos m) - 1)) by lia.
    rewrite Z.pow_succ_r by lia. lia.
  - reflexivity.
Qed.

Lemma iter_xO_pow (d : positive) (m : positive) :
  Z.pos (Pos.iter xO m d) = Z.pos m * 2 ^ Z.pos d.
Proof.
  revert m. induction d as [|d IH] using Pos.peano_ind; intros m.
  - change (Pos.iter xO m 1) with (m~0)%positive. change (2 ^ 1) with 2. lia.
  - rewrite Pos.iter_succ, Pos2Z.inj_succ, Z.pow_succ_r by lia.
    rewrite Pos2Z.inj_xO, IH. lia.
Qed.

(** The aligned mantissa is the value scaled to the smaller exponent. *)
Lemma shl_align_value (m : positive) (e e' : Z) :
  e' <= e -> Z.pos (fst (shl_align m e e')) = Z.pos m * 2 ^ (e - e').
Proof.
  intros He. unfold shl_align.
  destruct (e' - e) as [|d|d] eqn:Hd; cbn [fst].
  - replace (e - e') with 0 by lia. lia.
  - lia.
  - rewrite iter_xO_pow. f_equal. f_equal. lia.
Qed.

(** A canonical mantissa has at most 53 bits, and exactly 53 above the
    smallest exponent. *)
Lemma bounded_digits (m : positive) (e : Z) :
  bounded prec emax m e = true ->
  Z.pos (digits2_pos m) <= prec /\
  emin prec emax <= e /\
  (emin prec emax < e -> Z.pos (digits2_pos m) = prec).
Proof.
  unfold bounded, canonical_mantissa, fexp.
  intros H. apply andb_prop in H as [H _]. apply Z.eqb_eq in H.
  lia.
Qed.

Lemma shr_1_nonneg (r : shr_record) : 0 <= shr_m r -> 0 <= shr_m (shr_1 r).
Proof.
  destruct r as [m r s]. cbn [shr_m].
  destruct m as [|p|p]; [cbn; lia| |lia].
  destruct p; cbn; lia.
Qed.

Lemma iter_shr_1_nonneg (p : positive) (r : shr_record) :
  0 <= shr_m r -> 0 <= shr_m (SpecFloat.iter_pos shr_1 p r).
Proof.
  revert r. induction p as [p IH|p IH|]; intros r Hr; cbn [SpecFloat.iter_pos].
  - apply IH, IH, shr_1_nonneg, Hr.
  - apply IH, IH, Hr.
  - apply shr_1_nonneg, Hr.
Qed.

Lemma shr_fexp_nonneg (m e : Z) (l : location) :
  0 <= m -> 0 <= shr_m (fst (shr_fexp prec emax m e l)).
Proof.
  intros Hm. unfold shr_fexp, shr.
  assert (H0 : 0 <= shr_m (shr_record_of_loc m l)).
  { destruct l as [|[]]; cbn; exact Hm. }
  destruct (fexp prec emax (Zdigits2 m + e) - e); cbn [fst]; auto.
  apply iter_shr_1_nonneg, H0.
Qed.

Lemma round_nearest_even_nonneg (m : Z) (l : location) :
  0 <= m -> 0 <= round_nearest_even m l.
Proof.
  intros Hm. destruct l as [|[]]; cbn; try lia.
  destruct (Z.even m); lia.
Qed.

(** Rounding a positive integer mantissa never yields NaN or a negative
    value. *)
Lemma binary_round_aux_nonneg (m e : Z) (l : location) :
  0 <= m -> nonneg (binary_round_aux prec emax false m e l) = true.
Proof.
  intros Hm. unfold binary_round_aux.
  pose proof (shr_fexp_nonneg m e l Hm) as H1.
  destruct (shr_fexp prec emax m e l) as [mrs' e'] eqn:E1. cbn [fst] in H1.
  pose proof (shr_fexp_nonneg _ e' loc_Exact
                (round_nearest_even_nonneg _ (loc_of_shr_record mrs') H1)) as H2.
  destruct (shr_fexp prec emax _ e' loc_Exact) as [mrs'' e''] eqn:E2.
  cbn [fst] in H2.
  destruct (shr_m mrs'') as [|p|p]; [reflexivity| |lia].
  destruct (e'' <=? emax - prec); reflexivity.
Qed.

Lemma binary_normalize_nonneg (m e : Z) :
  0 <= m -> nonneg (binary_normalize prec emax m e false) = true.
Proof.
  intros Hm. destruct m as [|p|p]; [reflexivity| |lia].
  cbn [binary_normalize]. unfold binary_round.
  destruct (shl_align p e _) as [mz ez].
  apply binary_round_aux_nonneg. lia.
Qed.

(** Order of two canonical positive doubles, read on their values. *)
Lemma finite_le_value (m1 m2 : positive) (e1 e2 : Z) :
  bounded prec emax m1 e1 = true ->
  bounded prec emax m2 e2 = true ->
  e1 < e2 ->
  Z.pos m1 * 2 ^ (e1 - Z.min e1 e2) <= Z.pos m2 * 2 ^ (e2 - Z.min e1 e2).
Proof.
  intros B1 B2 He.
  apply bounded_digits in B1 as (D1 & L1 & _).
  apply bounded_digits in B2 as (_ & _ & N2).
  rewrite Z.min_l by lia. replace (e1 - e1) with 0 by lia.
  rewrite Z.pow_0_r, Z.mul_1_r.
  pose proof (digits2_pos_lt m1) as U1.
  pose proof (digits2_pos_ge m2) as G2.
  rewrite N2 in G2 by lia.
  assert (P1 : 2 ^ Z.pos (digits2_pos m1) <= 2 ^ prec)
    by (apply Z.pow_le_mono_r; lia).
  assert (P2 : 2 ^ 1 <= 2 ^ (e2 - e1)) by (apply Z.pow_le_mono_r; lia).
  assert (P3 : 2 ^ prec = 2 ^ (prec - 1) * 2 ^ 1)
    by (rewrite <- Z.pow_add_r by (unfold prec; lia); f_equal; lia).
  assert (0 < 2 ^ (prec - 1)) by (apply Z.pow_pos_nonneg; unfold prec; lia).
  nia.
Qed.

(** The difference of two finite doubles, the later one at least the
    earlier one, is at least zero: subtraction rounds the exact difference
    and rounding keeps the sign. *)
Lemma sub_nonneg (x y : number) :
  finite x = true -> finite y = true -> leb x y = true ->
  nonneg (sub y x) = true.
Proof.
  intros Fx Fy Hle.
  destruct x as [sx| | |sx mx ex]; try discriminate;
    destruct y as [sy| | |sy my ey]; try discriminate.
  - destruct sx, sy; reflexivity.
  - destruct sy; [discriminate|reflexivity].
  - destruct sx; [reflexivity|discriminate].
  - cbn [finite] in Fx, Fy.
    unfold sub, SFsub. apply binary_normalize_nonneg.
    rewrite (shl_align_value my ey) by lia.
    rewrite (shl_align_value mx ex) by lia.
    rewrite (Z.min_comm ey ex).
    assert (0 < Z.pos mx * 2 ^ (ex - Z.min ex ey))
      by (apply Z.mul_pos_pos; [lia|apply Z.pow_pos_nonneg; lia]).
    assert (0 < Z.pos my * 2 ^ (ey - Z.min ex ey))
      by (apply Z.mul_pos_pos; [lia|apply Z.pow_pos_nonneg; lia]).
    revert Hle. unfold leb, SFleb, SFcompare.
    change (Pos.compare_cont Eq mx my) with (Pos.compare mx my).
    destruct sx, sy; cbn [cond_Zopp]; try discriminate; try lia.
    + (* both negative *)
      destruct (Z.compare_spec ex ey) as [E|E|E].
      * subst ey. rewrite Z.min_id, Z.sub_diag, Z.pow_0_r.
        destruct (Pos.compare_spec mx my) as [E'|E'|E'];
          cbn; intros Hle; try discriminate; lia.
      * discriminate.
      * intros _. pose proof (finite_le_value my mx ey ex Fy Fx E) as V.
        rewrite (Z.min_comm ey ex) in V. lia.
    + (* both positive *)
      destruct (Z.compare_spec ex ey) as [E|E|E].
      * subst ey. rewrite Z.min_id, Z.sub_diag, Z.pow_0_r.
        destruct (Pos.compare_spec mx my) as [E'|E'|E'];
          cbn; intros Hle; try discriminate; lia.
      * intros _. pose proof (finite_le_value mx my ex ey Fx Fy E) as V. lia.
      * discriminate.
Qed.

End NumberFacts.



(** ** Laws of the monad *)
Section MonadFacts.

Lemma bind_Some {A B} (m : M A) (k : A -> M B) s a :
  res (m s) = Some a -> bind m k s = after (evs (m s)) (k a (final (m s))).
Proof. intros E. unfold bind. now rewrite E. Qed.

Lemma bind_None {A B} (m : M A) (k : A -> M B) s :
  res (m s) = None ->
  bind m k s = {| res := None; evs := evs (m s); final := final (m s) |}.
Proof. intros E. unfold bind. now rewrite E. Qed.

Lemma after_after {A} e1 e2 (o : Out A) : after e1 (after e2 o) = after (e1 ++ e2) o.
Proof. unfold after. cbn. now rewrite app_assoc. Qed.

Lemma after_nil {A} (o : Out A) : after [] o = o.
Proof. now destruct o. Qed.

Lemma bind_assoc {A B C} (m : M A) (f : A -> M B) (g : B -> M C) s :
  bind (bind m f) g s = bind m (fun a => bind (f a) g) s.
Proof.
  unfold bind. destruct (res (m s)) as [a|]; cbn; [|reflexivity].
  destruct (res (f a (final (m s)))); cbn; [|reflexivity].
  now rewrite app_assoc.
Qed.

Lemma bind_ext {A B} (m : M A) (k k' : A -> M B) s :
  (forall a s', k a s' = k' a s') -> bind m k s = bind m k' s.
Proof.
  intros E. unfold bind. destruct (res (m s)); [|reflexivity]. now rewrite E.
Qed.

Lemma bind_ret_l {A B} (a : A) (k : A -> M B) s : bind (ret a) k s = k a s.
Proof. unfold bind, ret. cbn. now destruct (k a s). Qed.

Lemma for_each_app {S} (body : nat -> S -> M S) xs ys init s :
  for_each body (xs ++ ys) init s
  = bind (for_each body xs init) (for_each body ys) s.
Proof.
  revert init s. induction xs as [|x xs IH]; intros init s; cbn [for_each app].
  - now rewrite bind_ret_l.
  - rewrite bind_assoc. apply bind_ext. intros a s'. apply IH.
Qed.

End MonadFacts.

(** ** Clock-free computations *)

Create HintDb clock_free.

Section ClockFree.
Context `{Externals}.

Lemma with_ticks_same s : with_ticks (ticks s) s = s.
Proof. now destruct s. Qed.

Lemma clock_free_ticks {A} (m : M A) s :
  clock_free m -> ticks (final (m s)) = ticks s.
Proof.
  intros Hm. specialize (Hm s (ticks s)). rewrite with_ticks_same in Hm.
  rewrite Hm at 1. reflexivity.
Qed.

Lemma clock_free_ret {A} (a : A) : clock_free (ret a).
Proof. intros s t. reflexivity. Qed.

Lemma clock_free_throw {A} : clock_free (@throw A).
Proof. intros s t. reflexivity. Qed.

Lemma clock_free_emit e : clock_free (emit e).
Proof. intros s t. reflexivity. Qed.

Lemma clock_free_bind {A B} (m : M A) (k : A -> M B) :
  clock_free m -> (forall a, clock_free (k a)) -> clock_free (bind m k).
Proof.
  intros Hm Hk s t. unfold bind. cbv zeta. rewrite !(Hm s t).
  cbn [at_ticks res evs final].
  destruct (res (m s)) as [a|]; [|reflexivity].
  rewrite !(Hk a (final (m s)) t). reflexivity.
Qed.

Lemma clock_free_when b (m : M unit) : clock_free m -> clock_free (when b m).
Proof. intros Hm. unfold when. destruct b; [exact Hm|apply clock_free_ret]. Qed.

Lemma clock_free_for_each {S} (body : nat -> S -> M S) indices init :
  (forall i s, clock_free (body i s)) -> clock_free (for_each body indices init).
Proof.
  intros Hb. revert init. induction indices as [|i rest IH]; intros init; cbn.
  - apply clock_free_ret.
  - apply clock_free_bind; auto.
Qed.

Lemma clock_free_for_range {S} n init (body : nat -> S -> M S) :
  (forall i s, clock_free (body i s)) -> clock_free (for_range n init body).
Proof. apply clock_free_for_each. Qed.

Lemma clock_free_view_bytes v : clock_free (view_bytes v).
Proof. intros s t. reflexivity. Qed.

Lemma clock_free_alloc b : clock_free (alloc b).
Proof. intros s t. reflexivity. Qed.

Lemma clock_free_sync b : clock_free (sync b).
Proof.
  intros s t. unfold sync. cbn.
  destruct (_ <=? _)%nat; reflexivity.
Qed.

Lemma clock_free_asUint8Array b : clock_free (asUint8Array b).
Proof. intros s t. reflexivity. Qed.

Lemma clock_free_get_property v key : clock_free (get_property v key).
Proof. destruct v; intros st t; reflexivity. Qed.

Lemma clock_free_pair {A B C} (p : A * B) (k : A -> B -> M C) :
  (forall a b, clock_free (k a b)) -> clock_free (let '(a, b) := p in k a b).
Proof. destruct p. auto. Qed.

Lemma clock_free_option {A B} (o : option A) (k : A -> M B) (d : M B) :
  (forall a, clock_free (k a)) -> clock_free d ->
  clock_free (match o with Some a => k a | None => d end).
Proof. destruct o; auto. Qed.

End ClockFree.

#[export] Hint Resolve clock_free_ret clock_free_throw clock_free_emit
  clock_free_when clock_free_for_range clock_free_for_each
  clock_free_view_bytes clock_free_alloc clock_free_sync
  clock_free_asUint8Array clock_free_get_property : clock_free.

Ltac head_constant t :=
  lazymatch t with
  | ?f _ => head_constant f
  | _ => t
  end.

(** Decides [clock_free] for a computation built from the primitives. *)
Ltac clock_free :=
  repeat (intros;
    first
    [ solve [auto with clock_free]
    | apply clock_free_bind
    | apply clock_free_for_range
    | apply clock_free_when
    | progress cbv beta
    | lazymatch goal with
      | |- clock_free (let '(_, _) := ?p in _) => destruct p
      | |- clock_free (match ?o with _ => _ end) => destruct o
      | |- clock_free ?m => let f := head_constant m in unfold f
      end ]).

Section Protocol.
Context {X A : Type}.
Variables (label : string) (n : nat).
Variables (setup : M X) (serializing : X -> M A) (deserializing : X -> A -> M unit).
Hypothesis setup_free : clock_free setup.
Hypothesis serializing_free : forall x, clock_free (serializing x).
Hypothesis deserializing_free : forall x a, clock_free (deserializing x a).

Lemma bind_now {B} clock (k : number -> M B) s :
  bind (performance_now clock) k s = after [Now] (k (clock (ticks s)) (tick s)).
Proof. reflexivity. Qed.

Lemma protocol_run clock s :
  protocol clock label n setup serializing deserializing s
  = protocol_outcome clock label n setup serializing deserializing s.
Proof.
  unfold protocol, protocol_outcome. cbv zeta.
  pose proof (clock_free_ticks setup s setup_free) as T0.
  destruct (res (setup s)) as [x|] eqn:R0;
    [rewrite (bind_Some _ _ _ _ R0)|now rewrite (bind_None _ _ _ R0)].
  set (s0 := final (setup s)) in *.
  rewrite bind_now.
  pose proof (clock_free_ticks (serializing x) (tick s0) (serializing_free x)) as T1.
  cbn [tick ticks] in T1. rewrite T0 in T1.
  destruct (res (serializing x (tick s0))) as [a|] eqn:R1;
    [rewrite (bind_Some _ _ _ _ R1)|now rewrite (bind_None _ _ _ R1)].
  set (s1 := final (serializing x (tick s0))) in *.
  rewrite !bind_now.
  pose proof (clock_free_ticks (deserializing x a) (tick (tick s1))
                (deserializing_free x a)) as T2.
  cbn [tick ticks] in T2. rewrite T1 in T2.
  destruct (res (deserializing x a (tick (tick s1)))) as [[]|] eqn:R2;
    [rewrite (bind_Some _ _ _ _ R2)|now rewrite (bind_None _ _ _ R2)].
  set (s2 := final (deserializing x a (tick (tick s1)))) in *.
  rewrite bind_now. unfold ret, after, result_at. cbn [res evs final tick ticks].
  rewrite T0, T1, T2. cbn [Nat.add].
  reflexivity.
Qed.

(** The total is the sum of the two measured times, whenever a result is
    returned. *)
Lemma protocol_total clock s :
  match res (protocol clock label n setup serializing deserializing s) with
  | Some r => totalTime r = add (serializeTime r) (deserializeTime r)
  | None => True
  end.
Proof.
  rewrite protocol_run. unfold protocol_outcome. cbv zeta.
  destruct (res (setup s)) as [x|]; cbn [res evs final]; auto.
  destruct (res (serializing x _)) as [a|]; cbn [res evs final]; auto.
  destruct (res (deserializing x a _)); cbn; auto.
Qed.

(** Label and iteration count of a returned result. *)
Lemma protocol_label clock s :
  match res (protocol clock label n setup serializing deserializing s) with
  | Some r => format r = label /\ iterations r = n
  | None => True
  end.
Proof.
  rewrite protocol_run. unfold protocol_outcome. cbv zeta.
  destruct (res (setup s)) as [x|]; cbn [res evs final]; auto.
  destruct (res (serializing x _)) as [a|]; cbn [res evs final]; auto.
  destruct (res (deserializing x a _)); cbn; auto.
Qed.

(** Each measured time is a later reading minus an earlier one. *)
Lemma protocol_times clock s :
  match res (protocol clock label n setup serializing deserializing s) with
  | Some r =>
      serializeTime r = sub (clock (1 + ticks s)%nat) (clock (ticks s)) /\
      deserializeTime r = sub (clock (3 + ticks s)%nat) (clock (2 + ticks s)%nat)
  | None => True
  end.
Proof.
  rewrite protocol_run. unfold protocol_outcome. cbv zeta.
  destruct (res (setup s)) as [x|]; cbn [res evs final]; auto.
  destruct (res (serializing x _)) as [a|]; cbn [res evs final]; auto.
  destruct (res (deserializing x a _)); cbn; auto.
Qed.

(** Two clocks: same events, same final state, same outcome up to the
    measured times. *)
Lemma protocol_two_clocks clock1 clock2 s :
  let o1 := protocol clock1 label n setup serializing deserializing s in
  let o2 := protocol clock2 label n setup serializing deserializing s in
  evs o1 = evs o2 /\ final o1 = final o2 /\
  match res o1, res o2 with
  | Some r1, Some r2 => format r1 = format r2 /\ iterations r1 = iterations r2
  | None, None => True
  | _, _ => False
  end.
Proof.
  cbv zeta. rewrite !protocol_run. unfold protocol_outcome. cbv zeta.
  destruct (res (setup s)) as [x|]; cbn [res evs final]; auto.
  destruct (res (serializing x _)) as [a|]; cbn [res evs final]; auto.
  destruct (res (deserializing x a _)); cbn; auto.
Qed.

End Protocol.

(** ** Every test function follows the protocol *)

(** Proves a test function equal to [protocol] over its passes: both
    sides are the same chain of [bind]s up to associativity. *)
Ltac same_chain :=
  repeat first
    [ reflexivity
    | apply bind_ext; intros ? ?
    | rewrite bind_ret_l
    | rewrite bind_assoc
    | match goal with
      | |- context [let '(_, _) := ?p in _] => is_var p; destruct p
      end ].

Section Shapes.
Context `{Externals}.
Variable clock : nat -> number.
Variable n : nat.

Lemma Web_testJSON_protocol s :
  Web.testJSON clock n s
  = protocol clock "JSON" n (ret tt)
      (fun _ => encoding Text (fun i => JSON_stringify (fixture i)) n)
      (fun _ => decoding_sum Text JSON_parse "JSON sum:" n) s.
Proof. unfold Web.testJSON, protocol, encoding, decoding_sum. same_chain. Qed.

Lemma Web_testMessagePack_protocol s :
  Web.testMessagePack clock n s
  = protocol clock "MessagePack" n (ret tt)
      (fun _ => encoding Bytes (fun i => encode (fixture i)) n)
      (fun _ => decoding_sum Bytes decode "MessagePack sum:" n) s.
Proof. unfold Web.testMessagePack, protocol, encoding, decoding_sum. same_chain. Qed.

Lemma Web_testFlatBuffers_protocol s :
  Web.testFlatBuffers clock n s
  = protocol clock "FlatBuffers" n (new_Builder 1024)
      (web_flatbuffers_serializing n)
      (fun _ => web_flatbuffers_deserializing n) s.
Proof.
  unfold Web.testFlatBuffers, protocol, web_flatbuffers_serializing,
    web_flatbuffers_deserializing, web_flatbuffers_iteration, table_iteration.
  same_chain.
Qed.

Lemma WebLarge_testJSON_protocol s :
  WebLarge.testJSON clock n s
  = protocol clock "JSON" n (ret tt)
      (fun _ => encoding Text (fun i => JSON_stringify (fixture_varying i)) n)
      (fun _ => decoding_sum Text JSON_parse "JSON sum:" n) s.
Proof. unfold WebLarge.testJSON, protocol, encoding, decoding_sum. same_chain. Qed.

Lemma WebLarge_testAvro_protocol s :
  WebLarge.testAvro clock n s
  = protocol clock "Avro" n (ret tt)
      (fun _ => encoding Bytes (fun i => toBuffer (fixture i)) n)
      (fun _ => decoding_sum Bytes fromBuffer "Avro sum:" n) s.
Proof. unfold WebLarge.testAvro, protocol, encoding, decoding_sum. same_chain. Qed.

Lemma WebLarge_testLargeJSON_protocol data s :
  WebLarge.testLargeJSON clock data s
  = protocol clock "JSON (5MB)" 1 (ret tt)
      (fun _ => stringify_value (VArray data))
      (fun _ => large_json_deserializing) s.
Proof. unfold WebLarge.testLargeJSON, protocol, large_json_deserializing. same_chain. Qed.

Lemma WebLarge_testLargeMessagePack_protocol data s :
  WebLarge.testLargeMessagePack clock data s
  = protocol clock "MessagePack (5MB)" 1 (ret tt)
      (fun _ => msgpack_encode_value (VArray data))
      (fun _ => large_msgpack_deserializing) s.
Proof.
  unfold WebLarge.testLargeMessagePack, protocol, large_msgpack_deserializing.
  same_chain.
Qed.

Lemma WebLarge_testLargeFlatBuffers_protocol data s :
  WebLarge.testLargeFlatBuffers clock data s
  = protocol clock "FlatBuffers (5MB)" 1 (ret tt)
      (fun _ => large_flatbuffers_serializing data)
      (fun _ => large_flatbuffers_deserializing) s.
Proof.
  unfold WebLarge.testLargeFlatBuffers, protocol, large_flatbuffers_serializing,
    large_flatbuffers_building, person_iteration, large_flatbuffers_deserializing,
    sum_versions.
  same_chain.
Qed.

Lemma Native_testJSON_protocol s :
  Native.testJSON clock n s
  = protocol clock "JSON" n (ret tt)
      (fun _ => encoding Text (fun i => JSON_stringify (fixture i)) n)
      (fun _ => decoding Text JSON_parse n) s.
Proof. unfold Native.testJSON, protocol, encoding, decoding. same_chain. Qed.

Lemma Native_testMessagePack_protocol s :
  Native.testMessagePack clock n s
  = protocol clock "MessagePack" n (ret tt)
      (fun _ => encoding Bytes (fun i => encode (fixture i)) n)
      (fun _ => decoding Bytes decode n) s.
Proof. unfold Native.testMessagePack, protocol, encoding, decoding. same_chain. Qed.

Lemma Native_testFlatBuffers_protocol s :
  Native.testFlatBuffers clock n s
  = protocol clock "FlatBuffers" n (ret tt)
      (fun _ => native_flatbuffers_serializing n)
      (fun _ => native_flatbuffers_deserializing n) s.
Proof.
  unfold Native.testFlatBuffers, protocol, native_flatbuffers_serializing,
    native_flatbuffers_deserializing, native_flatbuffers_iteration,
    checked_iteration.
  same_chain.
Qed.

Lemma NativeLowLevel_testFlatBuffers_protocol s :
  NativeLowLevel.testFlatBuffers clock n s
  = protocol clock "FlatBuffers" n (ret tt)
      (fun _ => lowlevel_serializing n)
      (fun _ => lowlevel_deserializing n) s.
Proof.
  unfold NativeLowLevel.testFlatBuffers, protocol, lowlevel_serializing,
    lowlevel_deserializing, lowlevel_iteration, by_hand_iteration.
  same_chain.
Qed.

End Shapes.

Section PassesClockFree.
Context `{Externals}.

Lemma clock_free_encoder_call {P} (wrap : P -> payload) p :
  clock_free (encoder_call wrap p).
Proof. clock_free. Qed.

Lemma clock_free_decoder_call {P A} (wrap : P -> payload) (seen : A -> decoded) dec arg :
  clock_free (decoder_call wrap seen dec arg).
Proof. clock_free. Qed.

Lemma clock_free_method f b : clock_free (method f b).
Proof. clock_free. Qed.

Lemma clock_free_method_offset f b : clock_free (method_offset f b).
Proof. clock_free. Qed.

Lemma clock_free_new_Builder size : clock_free (new_Builder size).
Proof. clock_free. Qed.

Lemma clock_free_slice v : clock_free (slice v).
Proof. clock_free. Qed.

Lemma clock_free_new_ByteBuffer v : clock_free (new_ByteBuffer v).
Proof. clock_free. Qed.

Lemma clock_free_view_length v : clock_free (view_length v).
Proof. clock_free. Qed.

Lemma clock_free_getRootAsTestData buf : clock_free (getRootAsTestData buf).
Proof. clock_free. Qed.

Lemma clock_free_getRootAsPersonList buf : clock_free (getRootAsPersonList buf).
Proof. clock_free. Qed.

End PassesClockFree.

#[export] Hint Resolve clock_free_encoder_call clock_free_decoder_call
  clock_free_method clock_free_method_offset clock_free_new_Builder
  clock_free_slice clock_free_new_ByteBuffer clock_free_view_length
  clock_free_getRootAsTestData clock_free_getRootAsPersonList : clock_free.

Section FollowsProtocol.
Context `{Externals}.

Lemma clock_free_encoding {P} (wrap : P -> payload) enc n :
  clock_free (encoding wrap enc n).
Proof. clock_free. Qed.

Lemma clock_free_decoding_sum {P} (wrap : P -> payload) dec label n serialized :
  clock_free (decoding_sum wrap dec label n serialized).
Proof. clock_free. Qed.

Lemma clock_free_decoding {P} (wrap : P -> payload) dec n serialized :
  clock_free (decoding wrap dec n serialized).
Proof. clock_free. Qed.

Lemma clock_free_web_flatbuffers_serializing n b :
  clock_free (web_flatbuffers_serializing n b).
Proof. clock_free. Qed.

Lemma clock_free_web_flatbuffers_deserializing n filled :
  clock_free (web_flatbuffers_deserializing n filled).
Proof. clock_free. Qed.

Lemma clock_free_native_flatbuffers_serializing n :
  clock_free (native_flatbuffers_serializing n).
Proof. clock_free. Qed.

Lemma clock_free_native_flatbuffers_deserializing n serialized :
  clock_free (native_flatbuffers_deserializing n serialized).
Proof. clock_free. Qed.

Lemma clock_free_lowlevel_serializing n : clock_free (lowlevel_serializing n).
Proof. clock_free. Qed.

Lemma clock_free_lowlevel_deserializing n serialized :
  clock_free (lowlevel_deserializing n serialized).
Proof. clock_free. Qed.

Lemma clock_free_large_json_deserializing serialized :
  clock_free (large_json_deserializing serialized).
Proof. clock_free. Qed.

Lemma clock_free_large_msgpack_deserializing serialized :
  clock_free (large_msgpack_deserializing serialized).
Proof. clock_free. Qed.

Lemma clock_free_large_flatbuffers_serializing data :
  clock_free (large_flatbuffers_serializing data).
Proof. clock_free. Qed.

Lemma clock_free_large_flatbuffers_deserializing serialized :
  clock_free (large_flatbuffers_deserializing serialized).
Proof. clock_free. Qed.

End FollowsProtocol.

#[export] Hint Resolve clock_free_encoding clock_free_decoding_sum
  clock_free_decoding clock_free_web_flatbuffers_serializing
  clock_free_web_flatbuffers_deserializing
  clock_free_native_flatbuffers_serializing
  clock_free_native_flatbuffers_deserializing
  clock_free_lowlevel_serializing clock_free_lowlevel_deserializing
  clock_free_large_json_deserializing clock_free_large_msgpack_deserializing
  clock_free_large_flatbuffers_serializing
  clock_free_large_flatbuffers_deserializing : clock_free.

Section AllTests.
Context `{Externals}.

Lemma follows_intro {X A} f label n (setup : M X) (serializing : X -> M A)
    (deserializing : X -> A -> M unit) :
  (forall clock s, f clock s = protocol clock label n setup serializing deserializing s) ->
  clock_free setup ->
  (forall x, clock_free (serializing x)) ->
  (forall x a, clock_free (deserializing x a)) ->
  follows_protocol f label n.
Proof. intros E F0 F1 F2. exists X, A, setup, serializing, deserializing. auto. Qed.

(** Every test function of every revision is an instance of the protocol. *)
Lemma run_test_follows_protocol f ITERATIONS largeJsonData :
  follows_protocol (fun clock => run_test f clock ITERATIONS largeJsonData)
    (label_of f) (count_of f ITERATIONS).
Proof.
  destruct f; cbn [run_test label_of count_of is_large];
    unfold WebLarge.testMessagePack, WebLarge.testFlatBuffers,
      NativeLowLevel.testJSON, NativeLowLevel.testMessagePack;
    eapply follows_intro;
    first
      [ intros clock s;
        first [ apply Web_testJSON_protocol
              | apply Web_testMessagePack_protocol
              | apply Web_testFlatBuffers_protocol
              | apply WebLarge_testJSON_protocol
              | apply WebLarge_testAvro_protocol
              | apply WebLarge_testLargeJSON_protocol
              | apply WebLarge_testLargeMessagePack_protocol
              | apply WebLarge_testLargeFlatBuffers_protocol
              | apply Native_testJSON_protocol
              | apply Native_testMessagePack_protocol
              | apply Native_testFlatBuffers_protocol
              | apply NativeLowLevel_testFlatBuffers_protocol ]
      | clock_free ].
Qed.

End AllTests.

(** ** The result record *)

(** C1. For every test function of every format, small and large, the
    [totalTime] of the returned result is exactly
    [serializeTime + deserializeTime]: it is computed as that sum from the
    two measured times, not measured on its own. *)
Theorem totalTime_is_the_sum `{Externals} (f : test_function)
    (clock : nat -> number) (ITERATIONS : nat) (largeJsonData : list value)
    (s : State) :
  match res (run_test f clock ITERATIONS largeJsonData s) with
  | Some r => totalTime r = add (serializeTime r) (deserializeTime r)
  | None => True
  end.
Proof.
  destruct (run_test_follows_protocol f ITERATIONS largeJsonData)
    as (X & A & setup & ser & de & F0 & F1 & F2 & E).
  rewrite E. now apply protocol_total.
Qed.

(** C9. For every test function, when successive clock readings never go
    back (and are finite doubles, as [performance.now] returns them), the
    [serializeTime] and [deserializeTime] of the returned result are at
    least zero: each is a later reading minus an earlier one. *)
Theorem measured_times_nonneg `{Externals} (f : test_function)
    (clock : nat -> number) (ITERATIONS : nat) (largeJsonData : list value)
    (s : State) :
  finite_readings clock ->
  monotone clock ->
  match res (run_test f clock ITERATIONS largeJsonData s) with
  | Some r =>
      serializeTime r = sub (clock (1 + ticks s)%nat) (clock (ticks s)) /\
      deserializeTime r = sub (clock (3 + ticks s)%nat) (clock (2 + ticks s)%nat) /\
      nonneg (serializeTime r) = true /\
      nonneg (deserializeTime r) = true
  | None => True
  end.
Proof.
  intros Hfin Hmono.
  destruct (run_test_follows_protocol f ITERATIONS largeJsonData)
    as (X & A & setup & ser & de & F0 & F1 & F2 & E).
  rewrite E.
  pose proof (protocol_times (label_of f) (count_of f ITERATIONS)
                setup ser de F0 F1 F2 clock s) as T.
  destruct (res (protocol clock _ _ setup ser de s)) as [r|]; [|exact I].
  destruct T as [T1 T2]. rewrite T1, T2.
  repeat split; apply sub_nonneg; auto; apply Hmono.
Qed.

(** C10. Two runs of the same test function that differ only in the
    clock: the same events in the same order (hence the same payloads and
    the same decoded values), the same final store, and results with the
    same label and the same iteration count; one run raises exactly when
    the other does. *)
Theorem clock_changes_only_the_times `{Externals} (f : test_function)
    (clock1 clock2 : nat -> number) (ITERATIONS : nat)
    (largeJsonData : list value) (s : State) :
  let o1 := run_test f clock1 ITERATIONS largeJsonData s in
  let o2 := run_test f clock2 ITERATIONS largeJsonData s in
  evs o1 = evs o2 /\
  final o1 = final o2 /\
  match res o1, res o2 with
  | Some r1, Some r2 => format r1 = format r2 /\ iterations r1 = iterations r2
  | None, None => True
  | _, _ => False
  end.
Proof.
  destruct (run_test_follows_protocol f ITERATIONS largeJsonData)
    as (X & A & setup & ser & de & F0 & F1 & F2 & E).
  cbv zeta. rewrite !E. now apply protocol_two_clocks.
Qed.

(** ** Events of a computation *)
Section Emits.
Context `{Externals}.
Variable P : event -> Prop.

Lemma emits_ret {A} (a : A) : emits P (ret a).
Proof. intros s. constructor. Qed.

Lemma emits_throw {A} : emits P (@throw A).
Proof. intros s. constructor. Qed.

Lemma emits_emit e : P e -> emits P (emit e).
Proof. intros He s. cbn. auto. Qed.

Lemma emits_bind {A B} (m : M A) (k : A -> M B) :
  emits P m -> (forall a, emits P (k a)) -> emits P (bind m k).
Proof.
  intros Hm Hk s. unfold bind. specialize (Hm s).
  destruct (res (m s)) as [a|]; cbn; [|exact Hm].
  apply Forall_app. split; [exact Hm|apply Hk].
Qed.

Lemma emits_when b (m : M unit) : emits P m -> emits P (when b m).
Proof. intros Hm. unfold when. destruct b; [exact Hm|apply emits_ret]. Qed.

Lemma emits_for_each {S} (body : nat -> S -> M S) indices init :
  (forall i s, emits P (body i s)) -> emits P (for_each body indices init).
Proof.
  intros Hb. revert init. induction indices as [|i rest IH]; intros init; cbn.
  - apply emits_ret.
  - apply emits_bind; auto.
Qed.

Lemma emits_for_range {S} n init (body : nat -> S -> M S) :
  (forall i s, emits P (body i s)) -> emits P (for_range n init body).
Proof. apply emits_for_each. Qed.

Lemma silent_emits {A} (m : M A) : silent m -> emits P m.
Proof. intros Hm s. rewrite Hm. constructor. Qed.

End Emits.

Section Silent.
Context `{Externals}.

Lemma silent_ret {A} (a : A) : silent (ret a).
Proof. intros s. reflexivity. Qed.

Lemma silent_throw {A} : silent (@throw A).
Proof. intros s. reflexivity. Qed.

Lemma silent_bind {A B} (m : M A) (k : A -> M B) :
  silent m -> (forall a, silent (k a)) -> silent (bind m k).
Proof.
  intros Hm Hk s. unfold bind. rewrite (Hm s).
  destruct (res (m s)) as [a|]; cbn; [apply Hk|reflexivity].
Qed.

Lemma silent_for_each {S} (body : nat -> S -> M S) indices init :
  (forall i s, silent (body i s)) -> silent (for_each body indices init).
Proof.
  intros Hb. revert init. induction indices as [|i rest IH]; intros init; cbn.
  - apply silent_ret.
  - apply silent_bind; auto.
Qed.

Lemma silent_for_range {S} n init (body : nat -> S -> M S) :
  (forall i s, silent (body i s)) -> silent (for_range n init body).
Proof. apply silent_for_each. Qed.

Lemma silent_view_bytes v : silent (view_bytes v).
Proof. intros s. reflexivity. Qed.

Lemma silent_alloc b : silent (alloc b).
Proof. intros s. reflexivity. Qed.

Lemma silent_sync b : silent (sync b).
Proof. intros s. unfold sync. destruct (_ <=? _)%nat; reflexivity. Qed.

Lemma silent_get_property v key : silent (get_property v key).
Proof. destruct v; intros st; reflexivity. Qed.

End Silent.

Create HintDb silent.
Create HintDb emits.

#[export] Hint Resolve silent_ret silent_throw silent_view_bytes silent_alloc
  silent_sync silent_get_property : silent.

(** Decides [silent] for a computation built from the heap primitives. *)
Ltac silent :=
  repeat (intros;
    first
    [ solve [auto with silent]
    | apply silent_bind
    | apply silent_for_range
    | progress cbv beta
    | lazymatch goal with
      | |- silent (let '(_, _) := ?p in _) => destruct p
      | |- silent (match ?o with _ => _ end) => destruct o
      | |- silent ?m => let f := head_constant m in unfold f
      end ]).

Section SilentCalls.
Context `{Externals}.

Lemma silent_method f b : silent (method f b).
Proof. silent. Qed.

Lemma silent_method_offset f b : silent (method_offset f b).
Proof. silent. Qed.

Lemma silent_new_Builder size : silent (new_Builder size).
Proof. silent. Qed.

Lemma silent_slice v : silent (slice v).
Proof. silent. Qed.

Lemma silent_new_ByteBuffer v : silent (new_ByteBuffer v).
Proof. silent. Qed.

Lemma silent_view_length v : silent (view_length v).
Proof. silent. Qed.

End SilentCalls.

#[export] Hint Resolve silent_method silent_method_offset silent_new_Builder
  silent_slice silent_new_ByteBuffer silent_view_length : silent.

#[export] Hint Resolve emits_ret emits_throw : emits.

(** Decides [emits P] for a computation built from the primitives; the
    events it emits are checked against [P] by computation. *)
Ltac emits :=
  repeat (intros;
    first
    [ solve [auto with emits]
    | solve [apply silent_emits; silent]
    | apply emits_bind
    | apply emits_for_range
    | apply emits_when
    | apply emits_emit; solve [exact I | reflexivity | cbn; auto]
    | progress cbv beta
    | lazymatch goal with
      | |- emits _ (let '(_, _) := ?p in _) => destruct p
      | |- emits _ (match ?o with _ => _ end) => destruct o
      | |- emits _ ?m => let f := head_constant m in unfold f
      end ]).

(** ** The codec loops *)
Section CodecLoops.
Context `{Externals}.
Context {P : Type} (wrap : P -> payload).

Lemma encoding_loop (enc : nat -> P) indices acc s :
  for_each (fun i serialized =>
              p <- encoder_call wrap (enc i) ;; ret (push serialized p))
           indices acc s
  = {| res := Some (acc ++ map enc indices);
       evs := map (fun i => Serialize (wrap (enc i))) indices;
       final := s |}.
Proof.
  revert acc. induction indices as [|i rest IH]; intros acc; cbn [for_each map].
  - unfold ret. now rewrite app_nil_r.
  - erewrite bind_Some by reflexivity. cbn [res evs final bind encoder_call emit ret].
    rewrite IH. unfold after, push. cbn. rewrite <- app_assoc. reflexivity.
Qed.

(** The serializing pass never raises: it returns the [n] payloads in
    order and emits one [Serialize] event for each. *)
Lemma encoding_run (enc : nat -> P) n s :
  encoding wrap enc n s
  = {| res := Some (map enc (seq 0 n));
       evs := map (fun i => Serialize (wrap (enc i))) (seq 0 n);
       final := s |}.
Proof. unfold encoding, for_range. now rewrite encoding_loop. Qed.

Variable dec : P -> option TestData.
Variable serialized : list P.
Context {S : Type} (g : S -> TestData -> S).

Abbreviation body := (decode_body wrap dec serialized g).

Lemma decode_step_ok i rest acc s p d :
  serialized !! i = Some p -> dec p = Some d ->
  for_each body (i :: rest) acc s
  = after [Deserialize (wrap p) (Data d)] (for_each body rest (g acc d) s).
Proof.
  intros Ei Ed. cbn [for_each]. unfold decode_body at 1, array_get.
  rewrite Ei. cbn [decoder_call]. rewrite Ed. reflexivity.
Qed.

Lemma decode_step_rejected i rest acc s p :
  serialized !! i = Some p -> dec p = None ->
  for_each body (i :: rest) acc s
  = {| res := None; evs := [Deserialize (wrap p) Threw]; final := s |}.
Proof.
  intros Ei Ed. cbn [for_each]. unfold decode_body at 1, array_get.
  rewrite Ei. cbn [decoder_call]. rewrite Ed. reflexivity.
Qed.

Lemma decode_step_missing i rest acc s :
  serialized !! i = None ->
  for_each body (i :: rest) acc s = {| res := None; evs := []; final := s |}.
Proof.
  intros Ei. cbn [for_each]. unfold decode_body at 1, array_get.
  rewrite Ei. reflexivity.
Qed.

Lemma retained_cons_Some i rest p :
  serialized !! i = Some p ->
  retained wrap serialized (i :: rest) = wrap p :: retained wrap serialized rest.
Proof. intros Ei. unfold retained. cbn. now rewrite Ei. Qed.

Lemma retained_cons_None i rest :
  serialized !! i = None ->
  retained wrap serialized (i :: rest) = retained wrap serialized rest.
Proof. intros Ei. unfold retained. cbn. now rewrite Ei. Qed.

(** Whatever the decoder does, the deserializing loop gives it the
    retained payloads in order, stops at the first one it rejects, emits
    no [Serialize] event and leaves the store alone. *)
Lemma decode_loop_events indices acc s :
  final (for_each body indices acc s) = s /\
  serialized_payloads (evs (for_each body indices acc s)) = [] /\
  warnings (evs (for_each body indices acc s)) = [] /\
  Forall test_event (evs (for_each body indices acc s)) /\
  deserialized_payloads (evs (for_each body indices acc s))
    `prefix_of` retained wrap serialized indices /\
  (is_Some (res (for_each body indices acc s)) ->
   deserialized_payloads (evs (for_each body indices acc s))
   = retained wrap serialized indices).
Proof.
  revert acc s. induction indices as [|i rest IH]; intros acc s.
  - cbn. repeat split; auto.
  - destruct (serialized !! i) as [p|] eqn:Ei.
    + rewrite (retained_cons_Some i rest p Ei).
      destruct (dec p) as [d|] eqn:Ed.
      * rewrite (decode_step_ok i rest acc s p d Ei Ed).
        destruct (IH (g acc d) s) as (F & S0 & W & T & Pre & All).
        unfold after. cbn [res evs final app].
        change (deserialized_payloads (Deserialize (wrap p) (Data d) :: ?t))
          with (wrap p :: deserialized_payloads t).
        change (serialized_payloads (Deserialize (wrap p) (Data d) :: ?t))
          with (serialized_payloads t).
        change (warnings (Deserialize (wrap p) (Data d) :: ?t)) with (warnings t).
        repeat split; auto.
        -- constructor; [exact I|exact T].
        -- now apply (prefix_app [wrap p]).
        -- intros Hs. now rewrite (All Hs).
      * rewrite (decode_step_rejected i rest acc s p Ei Ed). cbn [res evs final].
        repeat split; auto.
        -- repeat constructor.
        -- apply (prefix_app [wrap p] []), prefix_nil.
        -- intros [? ?]; discriminate.
    + rewrite (retained_cons_None i rest Ei).
      rewrite (decode_step_missing i rest acc s Ei). cbn [res evs final].
      repeat split; auto.
      * apply prefix_nil.
      * intros [? ?]; discriminate.
Qed.

(** When every payload is there and decodes, the loop visits all of them
    and decodes each to its value. *)
Lemma decode_loop_ok (payload_of : nat -> P) (value_of : nat -> TestData)
    indices acc s :
  (forall i, i ∈ indices ->
     serialized !! i = Some (payload_of i) /\ dec (payload_of i) = Some (value_of i)) ->
  for_each body indices acc s
  = {| res := Some (fold_left (fun a i => g a (value_of i)) indices acc);
       evs := map (fun i => Deserialize (wrap (payload_of i)) (Data (value_of i))) indices;
       final := s |}.
Proof.
  revert acc. induction indices as [|i rest IH]; intros acc Hall.
  - reflexivity.
  - destruct (Hall i) as [Ei Ed]; [left|].
    rewrite (decode_step_ok i rest acc s _ _ Ei Ed).
    rewrite IH by (intros j Hj; apply Hall; now right).
    reflexivity.
Qed.

End CodecLoops.

(** ** Builders on the heap *)
Section BuilderFacts.
Context `{Externals}.

Lemma frame_refl h l : (l < List.length h)%nat -> frame h l h l.
Proof. intros Hl. split; [lia|]. intros k Hk Hne. auto. Qed.

Lemma frame_trans h1 l1 h2 l2 h3 l3 :
  frame h1 l1 h2 l2 -> frame h2 l2 h3 l3 -> frame h1 l1 h3 l3.
Proof.
  intros [L12 F12] [L23 F23]. split; [lia|].
  intros k Hk Hne. destruct (F12 k Hk Hne) as [E12 N2].
  destruct (F23 k ltac:(lia) N2) as [E23 N3].
  split; [congruence|exact N3].
Qed.

Lemma read_heap_same h h' v :
  h' !! buffer v = h !! buffer v -> read_heap h' v = read_heap h v.
Proof. intros E. unfold read_heap, buffer_at. now rewrite E. Qed.

(** A view on another buffer than the builder's reads the same bytes
    after the builder has moved on. *)
Lemma frame_read h l h' l' v :
  frame h l h' l' -> (buffer v < List.length h)%nat -> buffer v <> l ->
  read_heap h' v = read_heap h v /\ buffer v <> l' /\ (buffer v < List.length h')%nat.
Proof.
  intros [L F] Hv Hne. destruct (F _ Hv Hne) as [E N].
  split; [now apply read_heap_same|]. split; [exact N|lia].
Qed.

Lemma write_tail_length old live :
  (List.length live <= List.length old)%nat ->
  List.length (write_tail old live) = List.length old.
Proof.
  intros Hle. unfold write_tail. rewrite length_app, length_take. lia.
Qed.

Lemma write_tail_read old live :
  (List.length live <= List.length old)%nat ->
  take (List.length live)
       (drop (List.length (write_tail old live) - List.length live) (write_tail old live))
  = live.
Proof.
  intros Hle. rewrite write_tail_length by exact Hle. unfold write_tail.
  rewrite drop_app_length' by (rewrite length_take; lia).
  apply firstn_all.
Qed.

Lemma sync_spec b s :
  (bb b < List.length (heap s))%nat ->
  exists b' s',
    sync b s = {| res := Some b'; evs := []; final := s' |} /\
    state b' = state b /\
    ticks s' = ticks s /\
    in_sync (heap s') b' /\
    frame (heap s) (bb b) (heap s') (bb b').
Proof.
  intros Hb. unfold sync. cbv zeta.
  destruct (List.length (written (state b)) <=? List.length (buffer_at (heap s) (bb b)))%nat
    eqn:Hfit.
  - apply Nat.leb_le in Hfit.
    eexists _, _. split; [reflexivity|]. cbn [ticks heap].
    split; [reflexivity|]. split; [reflexivity|].
    split; [split|].
    + now rewrite length_insert.
    + unfold read_heap, window_of, buffer_at. cbn [buffer byteOffset byteLength].
      rewrite list_lookup_insert_eq by exact Hb. cbn [default].
      now apply write_tail_read.
    + split; [now rewrite length_insert|].
      intros k Hk Hne. split; [|exact Hne].
      now rewrite list_lookup_insert_ne by congruence.
  - eexists _, _. split; [reflexivity|]. cbn [ticks heap state bb].
    split; [reflexivity|]. split; [reflexivity|].
    split; [split|].
    + rewrite length_app. cbn. lia.
    + unfold read_heap, window_of, buffer_at. cbn [buffer byteOffset byteLength state bb].
      rewrite lookup_app_r by lia. rewrite Nat.sub_diag.
      cbn [lookup list_lookup default from_option id].
      rewrite length_app, length_replicate.
      rewrite drop_app_length' by (rewrite length_replicate; lia).
      apply firstn_all.
    + split; [rewrite length_app; lia|].
      intros k Hk Hne. split; [|lia].
      now rewrite lookup_app_l by exact Hk.
Qed.

Lemma method_spec f b s :
  (bb b < List.length (heap s))%nat ->
  exists b' s',
    method f b s = {| res := Some b'; evs := []; final := s' |} /\
    state b' = f (state b) /\
    ticks s' = ticks s /\
    in_sync (heap s') b' /\
    frame (heap s) (bb b) (heap s') (bb b').
Proof.
  intros Hb. unfold method.
  apply (sync_spec {| bb := bb b; state := f (state b) |} s Hb).
Qed.

Lemma method_offset_spec f b s :
  (bb b < List.length (heap s))%nat ->
  exists b' s',
    method_offset f b s
    = {| res := Some (b', snd (f (state b))); evs := []; final := s' |} /\
    state b' = fst (f (state b)) /\
    ticks s' = ticks s /\
    in_sync (heap s') b' /\
    frame (heap s) (bb b) (heap s') (bb b').
Proof.
  intros Hb. unfold method_offset.
  destruct (f (state b)) as [st off] eqn:Ef. cbn [fst snd].
  destruct (sync_spec {| bb := bb b; state := st |} s Hb)
    as (b' & s' & E & St & T & Sy & Fr).
  exists b', s'. rewrite (bind_Some _ _ _ b') by (rewrite E; reflexivity).
  rewrite E. cbn [res evs final after ret app]. auto.
Qed.

(** [asUint8Array] of a builder in sync: a window on its buffer that reads
    the written bytes. *)
Lemma asUint8Array_spec b s :
  in_sync (heap s) b ->
  asUint8Array b s
  = {| res := Some (window_of b (heap s));
       evs := [Serialize (Bytes (written (state b)))];
       final := s |}.
Proof.
  intros [Hb Hr]. unfold asUint8Array. cbv zeta.
  fold (window_of b (heap s)). now rewrite Hr.
Qed.

(** [slice] returns a view on a new buffer that reads what the original
    read; every buffer there was is unchanged. *)
Lemma slice_spec v s :
  slice v s
  = {| res := Some {| buffer := List.length (heap s); byteOffset := 0;
                      byteLength := List.length (read_heap (heap s) v) |};
       evs := [];
       final := {| ticks := ticks s; heap := heap s ++ [read_heap (heap s) v] |} |}.
Proof. reflexivity. Qed.

Lemma read_heap_fresh h bytes :
  read_heap (h ++ [bytes])
    {| buffer := List.length h; byteOffset := 0; byteLength := List.length bytes |}
  = bytes.
Proof.
  unfold read_heap, buffer_at. cbn [buffer byteOffset byteLength].
  rewrite lookup_app_r by lia. rewrite Nat.sub_diag. cbn.
  apply firstn_all.
Qed.

Lemma read_heap_app h extra v :
  (buffer v < List.length h)%nat -> read_heap (h ++ extra) v = read_heap h v.
Proof. intros Hv. apply read_heap_same. now apply lookup_app_l. Qed.

End BuilderFacts.

(** ** The serializing loop of [Web.testFlatBuffers] *)
Section WebFlatBuffers.
Context `{Externals}.

Lemma bind_eq {A B} (m : M A) (k : A -> M B) s a e s' :
  m s = {| res := Some a; evs := e; final := s' |} ->
  bind m k s = after e (k a s').
Proof. intros E. unfold bind. now rewrite E. Qed.

Lemma finished_table_eq i st :
  finished_table i st
  = let cs := Builder_createString (VString "bar") st in
    let ct := TestData_createTestData (snd cs) (Z.of_nat i) (fst cs) in
    Builder_finish (snd ct) (fst ct).
Proof.
  unfold finished_table. cbv zeta.
  destruct (Builder_createString _ st) as [st1 off1]. cbn [fst snd].
  now destruct (TestData_createTestData off1 _ st1).
Qed.

(** One iteration: the builder is refilled in place (or moved), its
    window is copied to a new buffer, and every buffer that was not the
    builder's is left as it was. *)
Lemma web_iteration i b arr s :
  (bb b < List.length (heap s))%nat ->
  exists b' h',
    let payload := written (finished_table i (Builder_clear (state b))) in
    web_flatbuffers_iteration i (b, arr) s
    = {| res := Some (b', array_set arr i
                        {| buffer := List.length h'; byteOffset := 0;
                           byteLength := List.length payload |});
         evs := [Serialize (Bytes payload)];
         final := {| ticks := ticks s; heap := h' ++ [payload] |} |} /\
    state b' = finished_table i (Builder_clear (state b)) /\
    (bb b' < List.length h')%nat /\
    frame (heap s) (bb b) h' (bb b').
Proof.
  intros Hb. unfold web_flatbuffers_iteration.
  destruct (method_spec Builder_clear b s Hb)
    as (b1 & s1 & E1 & St1 & T1 & [Hb1 _] & F1).
  destruct (method_offset_spec (Builder_createString (VString "bar")) b1 s1 Hb1)
    as (b2 & s2 & E2 & St2 & T2 & [Hb2 _] & F2).
  destruct (method_offset_spec
              (TestData_createTestData
                 (snd (Builder_createString (VString "bar") (state b1)))
                 (Z.of_nat i)) b2 s2 Hb2)
    as (b3 & s3 & E3 & St3 & T3 & [Hb3 _] & F3).
  destruct (method_spec
              (Builder_finish
                 (snd (TestData_createTestData
                         (snd (Builder_createString (VString "bar") (state b1)))
                         (Z.of_nat i) (state b2)))) b3 s3 Hb3)
    as (b4 & s4 & E4 & St4 & T4 & Sy4 & F4).
  assert (St : state b4 = finished_table i (Builder_clear (state b))).
  { rewrite finished_table_eq. cbv zeta. rewrite St4, St3, St2, St1. reflexivity. }
  exists b4, (heap s4). cbv zeta.
  rewrite (bind_eq _ _ _ _ _ _ E1), (bind_eq _ _ _ _ _ _ E2).
  cbn [fst snd].
  rewrite (bind_eq _ _ _ _ _ _ E3), (bind_eq _ _ _ _ _ _ E4).
  rewrite (bind_eq _ _ _ _ _ _ (asUint8Array_spec b4 s4 Sy4)).
  rewrite (bind_eq _ _ _ _ _ _ (slice_spec _ s4)).
  destruct Sy4 as [Hb4 R4]. rewrite R4, <- St.
  unfold after, ret. cbn [res evs final app].
  rewrite T4, T3, T2, T1.
  split; [reflexivity|]. split; [reflexivity|]. split; [exact Hb4|].
  eapply frame_trans; [exact F1|]. eapply frame_trans; [exact F2|].
  eapply frame_trans; [exact F3|exact F4].
Qed.

End WebFlatBuffers.

(** ** Arrays with holes *)
Section SparseArrays.
Context {A : Type}.

Lemma array_get_set_eq (a : list (option A)) i x :
  array_get_sparse (array_set a i x) i = Some x.
Proof.
  unfold array_get_sparse, array_set.
  destruct (i <? List.length a)%nat eqn:Hi.
  - apply Nat.ltb_lt in Hi. now rewrite list_lookup_insert_eq.
  - apply Nat.ltb_ge in Hi.
    rewrite lookup_app_r by lia.
    rewrite lookup_app_r by (rewrite length_replicate; lia).
    rewrite length_replicate, Nat.sub_diag. reflexivity.
Qed.

Lemma array_get_set_ne (a : list (option A)) i j x :
  i <> j -> array_get_sparse (array_set a i x) j = array_get_sparse a j.
Proof.
  intros Hne. unfold array_get_sparse, array_set.
  destruct (i <? List.length a)%nat eqn:Hi.
  - now rewrite list_lookup_insert_ne.
  - apply Nat.ltb_ge in Hi.
    destruct (Nat.lt_ge_cases j (List.length a)) as [Hj|Hj].
    + now rewrite lookup_app_l.
    + rewrite (lookup_ge_None_2 a j) by lia.
      rewrite lookup_app_r by lia.
      destruct (Nat.lt_ge_cases (j - List.length a) (i - List.length a)) as [Hk|Hk].
      * rewrite lookup_app_l by (rewrite length_replicate; lia).
        rewrite lookup_replicate_2 by lia. reflexivity.
      * rewrite lookup_app_r by (rewrite length_replicate; lia).
        rewrite length_replicate.
        destruct (j - List.length a - (i - List.length a))%nat eqn:Hd; [lia|].
        reflexivity.
Qed.

End SparseArrays.

Section WebFlatBuffersLoop.
Context `{Externals}.

Lemma web_payloads_length indices st :
  List.length (web_payloads indices st) = List.length indices.
Proof.
  revert st. induction indices as [|i rest IH]; intros st; cbn; [reflexivity|].
  now rewrite IH.
Qed.

(** The serializing loop, from iteration [i] on: it never raises, emits
    one [Serialize] event per iteration, and at its end every array slot
    it filled holds a view that is not on the builder's buffer and still
    reads the payload of its iteration. *)
Lemma web_loop k : forall i b arr s,
  (bb b < List.length (heap s))%nat ->
  exists b' arr' h',
    for_each web_flatbuffers_iteration (seq i k) (b, arr) s
    = {| res := Some (b', arr');
         evs := map (fun p => Serialize (Bytes p)) (web_payloads (seq i k) (state b));
         final := {| ticks := ticks s; heap := h' |} |} /\
    (bb b' < List.length h')%nat /\
    (forall v, (buffer v < List.length (heap s))%nat -> buffer v <> bb b ->
       read_heap h' v = read_heap (heap s) v /\
       buffer v <> bb b' /\ (buffer v < List.length h')%nat) /\
    (forall j, (j < i \/ i + k <= j)%nat ->
       array_get_sparse arr' j = array_get_sparse arr j) /\
    (forall m, (m < k)%nat ->
       exists v, array_get_sparse arr' (i + m) = Some v /\
                 buffer v <> bb b' /\
                 web_payloads (seq i k) (state b) !! m = Some (read_heap h' v)).
Proof.
  induction k as [|k IH]; intros i b arr s Hb.
  - exists b, arr, (heap s). cbn [seq for_each web_payloads map].
    split; [destruct s; reflexivity|].
    split; [exact Hb|]. split; [auto|]. split; [auto|].
    intros m Hm. lia.
  - cbn [seq for_each].
    destruct (web_iteration i b arr s Hb) as (b1 & h1 & E1 & St1 & Hb1 & F1).
    cbv zeta in E1.
    set (payload := written (finished_table i (Builder_clear (state b)))) in *.
    set (copy := {| buffer := List.length h1; byteOffset := 0;
                    byteLength := List.length payload |}) in *.
    set (s1 := {| ticks := ticks s; heap := h1 ++ [payload] |}) in *.
    assert (Hb1' : (bb b1 < List.length (heap s1))%nat)
      by (cbn; rewrite length_app; cbn; lia).
    destruct (IH (S i) b1 (array_set arr i copy) s1 Hb1')
      as (b' & arr' & h' & E & Hb' & Old & Out & In).
    exists b', arr', h'.
    rewrite (bind_eq _ _ _ _ _ _ E1), E.
    cbn [web_payloads map]. fold payload. rewrite <- St1.
    split; [reflexivity|]. split; [exact Hb'|].
    split; [|split].
    + intros v Hv Hne.
      destruct (frame_read _ _ _ _ v F1 Hv Hne) as (R1 & N1 & L1).
      destruct (Old v) as (R & N & L);
        [cbn; rewrite length_app; lia|exact N1|].
      split; [|auto]. rewrite R. cbn [heap s1].
      rewrite read_heap_app by exact L1. exact R1.
    + intros j Hj. rewrite Out by lia. apply array_get_set_ne. lia.
    + intros [|m] Hm.
      * exists copy. rewrite Nat.add_0_r.
        rewrite Out by lia. rewrite array_get_set_eq.
        destruct (Old copy) as (R & N & L);
          [cbn; rewrite length_app; cbn; lia|cbn; lia|].
        split; [reflexivity|]. split; [exact N|].
        cbn [lookup list_lookup]. rewrite R. cbn [heap s1].
        unfold copy. now rewrite read_heap_fresh.
      * destruct (In m ltac:(lia)) as (v & Ev & Nv & Pv).
        exists v. replace (i + S m)%nat with (S i + m)%nat by lia.
        split; [exact Ev|]. split; [exact Nv|]. exact Pv.
Qed.

End WebFlatBuffersLoop.

(** ** Loops over FlatBuffers views *)
Section ViewLoops.
Context `{Externals}.

Lemma read_heap_length h v : (List.length (read_heap h v) <= byteLength v)%nat.
Proof. unfold read_heap. rewrite length_take. lia. Qed.

Lemma table_step view_at i sum s v :
  view_at i = Some v ->
  table_iteration view_at i sum s
  = {| res := Some (sum + (TestData_fooNumber (read_heap (heap s) v)
                           + length_or_0 (TestData_foo (read_heap (heap s) v))));
       evs := table_events (read_heap (heap s) v);
       final := s |}.
Proof. intros E. unfold table_iteration. rewrite E. reflexivity. Qed.

Lemma checked_step serialized i s v :
  serialized !! i = Some v ->
  checked_iteration serialized i tt s
  = {| res := Some tt; evs := checked_events i (read_heap (heap s) v); final := s |}.
Proof.
  intros E. unfold checked_iteration, checked_events, table_warnings, array_get.
  rewrite E. cbn [new_ByteBuffer].
  unfold bind, view_bytes, getRootAsTestData, bind, emit, ret, console_warn.
  cbn [res evs final].
  destruct (differs _ _), (negb _); reflexivity.
Qed.

Lemma by_hand_step serialized i s v :
  serialized !! i = Some v ->
  by_hand_iteration serialized i tt s
  = {| res := Some tt;
       evs := Deserialize (Bytes (read_heap (heap s) v)) Raw
              :: map Warn (lowlevel_warnings i (read_heap (heap s) v) (byteLength v));
       final := s |}.
Proof.
  intros E. unfold by_hand_iteration, lowlevel_warnings, array_get.
  rewrite E. cbn [new_ByteBuffer view_length].
  unfold bind, view_bytes, bind, emit, ret, console_warn.
  cbn [res evs final]. cbv zeta.
  destruct (negb (ByteBuffer_readInt16 _ _ =? 0)); cbn [when andb];
    [destruct (negb (ByteBuffer_readInt32 _ _ =? 0)); cbn [when andb];
     [destruct (negb (ByteBuffer_readInt32 _ _ =? 3)); cbn [when andb]|]|];
    destruct (negb (ByteBuffer_readInt16 _ _ =? 0)); cbn [when andb];
    try (destruct (negb (ByteBuffer_readInt32 _ _ =? Z.of_nat i)); cbn [when andb]);
    reflexivity.
Qed.

(** A loop whose iterations leave the state alone: it visits every
    index, in order. *)
Lemma pure_loop {S} (body : nat -> S -> M S) (step : nat -> S -> S)
    (emitted : nat -> list event) indices acc s :
  (forall i a, i ∈ indices ->
     body i a s = {| res := Some (step i a); evs := emitted i; final := s |}) ->
  for_each body indices acc s
  = {| res := Some (fold_left (fun a i => step i a) indices acc);
       evs := concat (map emitted indices);
       final := s |}.
Proof.
  revert acc.
  induction indices as [|i rest IH]; intros acc Hstep; cbn [for_each].
  - reflexivity.
  - rewrite (bind_eq _ _ _ _ _ _ (Hstep i acc ltac:(left))).
    rewrite IH by (intros j a Hj; apply Hstep; now right).
    reflexivity.
Qed.

(** A serializing loop with a fresh builder per iteration: when each
    iteration only adds buffers and pushes a view that reads its payload,
    every view still reads its payload at the end of the loop. *)
Lemma fresh_loop (iteration : nat -> list Uint8Array -> M (list Uint8Array))
    (payload_of : nat -> list Byte.byte) :
  (forall i acc s, exists v h',
     iteration i acc s
     = {| res := Some (push acc v);
          evs := [Serialize (Bytes (payload_of i))];
          final := {| ticks := ticks s; heap := h' |} |} /\
     (List.length (heap s) <= List.length h')%nat /\
     (forall k, (k < List.length (heap s))%nat -> h' !! k = heap s !! k) /\
     (buffer v < List.length h')%nat /\
     byteLength v = List.length (payload_of i) /\
     read_heap h' v = payload_of i) ->
  forall k i acc s, exists vs h',
    for_each iteration (seq i k) acc s
    = {| res := Some (acc ++ vs);
         evs := map (fun j => Serialize (Bytes (payload_of j))) (seq i k);
         final := {| ticks := ticks s; heap := h' |} |} /\
    (List.length (heap s) <= List.length h')%nat /\
    (forall k, (k < List.length (heap s))%nat -> h' !! k = heap s !! k) /\
    List.length vs = k /\
    (forall m, (m < k)%nat ->
       exists v, vs !! m = Some v /\
                 byteLength v = List.length (payload_of (i + m)%nat) /\
                 read_heap h' v = payload_of (i + m)%nat).
Proof.
  intros Hit. induction k as [|k IH]; intros i acc s.
  - exists [], (heap s). cbn [seq for_each map]. rewrite app_nil_r.
    split; [destruct s; reflexivity|]. split; [lia|]. split; [auto|].
    split; [reflexivity|]. intros m Hm. lia.
  - cbn [seq for_each].
    destruct (Hit i acc s) as (v & h1 & E1 & L1 & K1 & B1 & Len1 & R1).
    destruct (IH (S i) (push acc v) {| ticks := ticks s; heap := h1 |})
      as (vs & h' & E & L & K & Lvs & In).
    cbn [ticks heap] in *.
    exists (v :: vs), h'.
    rewrite (bind_eq _ _ _ _ _ _ E1), E. unfold after, push.
    cbn [res evs final map app]. rewrite <- app_assoc. cbn [app].
    split; [reflexivity|]. split; [lia|].
    split; [intros j Hj; rewrite K by lia; now apply K1|].
    split; [cbn; now rewrite Lvs|].
    intros [|m] Hm.
    + exists v. rewrite Nat.add_0_r. split; [reflexivity|]. split; [exact Len1|].
      rewrite <- R1. apply read_heap_same, K, B1.
    + destruct (In m ltac:(lia)) as (w & Ew & Lw & Rw).
      exists w. replace (i + S m)%nat with (S i + m)%nat by lia. auto.
Qed.

Lemma finished_by_hand_eq i st :
  finished_by_hand i st
  = let cs := Builder_createString (VString "bar") st in
    let eo := Builder_endObject
                (Builder_addFieldInt32 1 (Z.of_nat i) 0
                   (Builder_addFieldOffset 0 (snd cs) 0
                      (Builder_startObject 2 (fst cs)))) in
    Builder_finish (snd eo) (fst eo).
Proof.
  unfold finished_by_hand. cbv zeta.
  destruct (Builder_createString _ st) as [st1 off1]. cbn [fst snd].
  now destruct (Builder_endObject _).
Qed.

Lemma new_Builder_spec size s :
  new_Builder size s
  = {| res := Some {| bb := List.length (heap s); state := Builder_new size |};
       evs := [];
       final := {| ticks := ticks s; heap := heap s ++ [replicate size Byte.x00] |} |}.
Proof. reflexivity. Qed.

(** From a builder just allocated on heap [h] to the view of what it
    wrote: the buffers of [h] are untouched. *)
Lemma fresh_view h zeros b4 h4 :
  frame (h ++ [zeros]) (List.length h) h4 (bb b4) ->
  in_sync h4 b4 ->
  (List.length h <= List.length h4)%nat /\
  (forall k, (k < List.length h)%nat -> h4 !! k = h !! k) /\
  (buffer (window_of b4 h4) < List.length h4)%nat /\
  byteLength (window_of b4 h4) = List.length (written (state b4)) /\
  read_heap h4 (window_of b4 h4) = written (state b4).
Proof.
  intros [L F] [Hb R]. rewrite length_app in L. cbn in L.
  split; [lia|]. split; [|auto].
  intros k Hk. destruct (F k) as [E _]; [rewrite length_app; cbn; lia|lia|].
  rewrite E. now apply lookup_app_l.
Qed.

Lemma native_iteration i acc s :
  exists v h',
    native_flatbuffers_iteration i acc s
    = {| res := Some (push acc v);
         evs := [Serialize (Bytes (written (fresh_table i)))];
         final := {| ticks := ticks s; heap := h' |} |} /\
    (List.length (heap s) <= List.length h')%nat /\
    (forall k, (k < List.length (heap s))%nat -> h' !! k = heap s !! k) /\
    (buffer v < List.length h')%nat /\
    byteLength v = List.length (written (fresh_table i)) /\
    read_heap h' v = written (fresh_table i).
Proof.
  unfold native_flatbuffers_iteration.
  pose proof (new_Builder_spec 1024 s) as E0.
  set (b0 := {| bb := List.length (heap s); state := Builder_new 1024 |}) in *.
  set (s0 := {| ticks := ticks s; heap := heap s ++ [replicate 1024 Byte.x00] |}) in *.
  assert (Hb0 : (bb b0 < List.length (heap s0))%nat)
    by (cbn; rewrite length_app; cbn; lia).
  destruct (method_offset_spec (Builder_createString (VString "bar")) b0 s0 Hb0)
    as (b2 & s2 & E2 & St2 & T2 & [Hb2 _] & F2).
  destruct (method_offset_spec
              (TestData_createTestData
                 (snd (Builder_createString (VString "bar") (state b0)))
                 (Z.of_nat i)) b2 s2 Hb2)
    as (b3 & s3 & E3 & St3 & T3 & [Hb3 _] & F3).
  destruct (method_spec
              (Builder_finish
                 (snd (TestData_createTestData
                         (snd (Builder_createString (VString "bar") (state b0)))
                         (Z.of_nat i) (state b2)))) b3 s3 Hb3)
    as (b4 & s4 & E4 & St4 & T4 & Sy4 & F4).
  assert (St : state b4 = fresh_table i).
  { unfold fresh_table. rewrite finished_table_eq. cbv zeta.
    rewrite St4, St3, St2. reflexivity. }
  exists (window_of b4 (heap s4)), (heap s4).
  rewrite (bind_eq _ _ _ _ _ _ E0), (bind_eq _ _ _ _ _ _ E2).
  cbn [fst snd].
  rewrite (bind_eq _ _ _ _ _ _ E3), (bind_eq _ _ _ _ _ _ E4).
  rewrite (bind_eq _ _ _ _ _ _ (asUint8Array_spec b4 s4 Sy4)).
  unfold after, ret. cbn [res evs final app].
  rewrite <- St.
  split; [f_equal; destruct s4; cbn in *; f_equal; congruence|].
  apply (fresh_view (heap s) (replicate 1024 Byte.x00)); [|exact Sy4].
  eapply frame_trans; [exact F2|]. eapply frame_trans; [exact F3|exact F4].
Qed.

Lemma lowlevel_iteration_spec i acc s :
  exists v h',
    lowlevel_iteration i acc s
    = {| res := Some (push acc v);
         evs := [Serialize (Bytes (written (fresh_by_hand i)))];
         final := {| ticks := ticks s; heap := h' |} |} /\
    (List.length (heap s) <= List.length h')%nat /\
    (forall k, (k < List.length (heap s))%nat -> h' !! k = heap s !! k) /\
    (buffer v < List.length h')%nat /\
    byteLength v = List.length (written (fresh_by_hand i)) /\
    read_heap h' v = written (fresh_by_hand i).
Proof.
  unfold lowlevel_iteration.
  pose proof (new_Builder_spec 1024 s) as E0.
  set (b0 := {| bb := List.length (heap s); state := Builder_new 1024 |}) in *.
  set (s0 := {| ticks := ticks s; heap := heap s ++ [replicate 1024 Byte.x00] |}) in *.
  assert (Hb0 : (bb b0 < List.length (heap s0))%nat)
    by (cbn; rewrite length_app; cbn; lia).
  destruct (method_offset_spec (Builder_createString (VString "bar")) b0 s0 Hb0)
    as (b1 & s1 & E1 & St1 & T1 & [Hb1 _] & F1).
  destruct (method_spec (Builder_startObject 2) b1 s1 Hb1)
    as (b2 & s2 & E2 & St2 & T2 & [Hb2 _] & F2).
  destruct (method_spec
              (Builder_addFieldOffset 0
                 (snd (Builder_createString (VString "bar") (state b0))) 0) b2 s2 Hb2)
    as (b3 & s3 & E3 & St3 & T3 & [Hb3 _] & F3).
  destruct (method_spec (Builder_addFieldInt32 1 (Z.of_nat i) 0) b3 s3 Hb3)
    as (b4 & s4 & E4 & St4 & T4 & [Hb4 _] & F4).
  destruct (method_offset_spec Builder_endObject b4 s4 Hb4)
    as (b5 & s5 & E5 & St5 & T5 & [Hb5 _] & F5).
  destruct (method_spec (Builder_finish (snd (Builder_endObject (state b4)))) b5 s5 Hb5)
    as (b6 & s6 & E6 & St6 & T6 & Sy6 & F6).
  assert (St : state b6 = fresh_by_hand i).
  { unfold fresh_by_hand. rewrite finished_by_hand_eq. cbv zeta.
    rewrite St6, St5, St4, St3, St2, St1. reflexivity. }
  exists (window_of b6 (heap s6)), (heap s6).
  rewrite (bind_eq _ _ _ _ _ _ E0), (bind_eq _ _ _ _ _ _ E1).
  cbn [fst snd].
  rewrite (bind_eq _ _ _ _ _ _ E2), (bind_eq _ _ _ _ _ _ E3),
    (bind_eq _ _ _ _ _ _ E4), (bind_eq _ _ _ _ _ _ E5).
  cbn [fst snd].
  rewrite (bind_eq _ _ _ _ _ _ E6).
  rewrite (bind_eq _ _ _ _ _ _ (asUint8Array_spec b6 s6 Sy6)).
  unfold after, ret. cbn [res evs final app].
  rewrite <- St.
  split; [f_equal; destruct s6; cbn in *; f_equal; congruence|].
  apply (fresh_view (heap s) (replicate 1024 Byte.x00)); [|exact Sy6].
  eapply frame_trans; [exact F1|]. eapply frame_trans; [exact F2|].
  eapply frame_trans; [exact F3|]. eapply frame_trans; [exact F4|].
  eapply frame_trans; [exact F5|exact F6].
Qed.

End ViewLoops.

(** ** Reading traces *)
Section Traces.

Lemma serialized_payloads_app t1 t2 :
  serialized_payloads (t1 ++ t2) = serialized_payloads t1 ++ serialized_payloads t2.
Proof. apply omap_app. Qed.

Lemma deserialized_payloads_app t1 t2 :
  deserialized_payloads (t1 ++ t2)
  = deserialized_payloads t1 ++ deserialized_payloads t2.
Proof. apply omap_app. Qed.

Lemma decoded_values_app t1 t2 :
  decoded_values (t1 ++ t2) = decoded_values t1 ++ decoded_values t2.
Proof. apply omap_app. Qed.

Lemma warnings_app t1 t2 : warnings (t1 ++ t2) = warnings t1 ++ warnings t2.
Proof. apply omap_app. Qed.

Lemma serialized_payloads_Serialize payloads :
  serialized_payloads (map Serialize payloads) = payloads.
Proof. induction payloads as [|p l IH]; cbn; [reflexivity|]. now f_equal. Qed.

Lemma deserialized_payloads_Serialize payloads :
  deserialized_payloads (map Serialize payloads) = [].
Proof. induction payloads as [|p l IH]; cbn; auto. Qed.

Lemma decoded_values_Serialize payloads :
  decoded_values (map Serialize payloads) = [].
Proof. induction payloads as [|p l IH]; cbn; auto. Qed.

Lemma warnings_Serialize payloads : warnings (map Serialize payloads) = [].
Proof. induction payloads as [|p l IH]; cbn; auto. Qed.

Lemma decoded_values_Now t : decoded_values (Now :: t) = decoded_values t.
Proof. reflexivity. Qed.

Lemma warnings_Now t : warnings (Now :: t) = warnings t.
Proof. reflexivity. Qed.

Lemma map_lookup_seq {A} (l : list A) (d : A) :
  map (fun i => default d (l !! i)) (seq 0 (List.length l)) = l.
Proof.
  apply list_eq. intros i. rewrite list_lookup_fmap.
  destruct (Nat.lt_ge_cases i (List.length l)) as [Hi|Hi].
  - rewrite lookup_seq_lt by exact Hi. cbn.
    destruct (lookup_lt_is_Some_2 l i Hi) as [x Hx]. now rewrite Hx.
  - rewrite lookup_seq_ge by exact Hi. cbn. symmetry.
    now apply lookup_ge_None_2.
Qed.

End Traces.

(** ** From the passes to the run *)
Section Assembling.
Context {X A : Type}.
Variables (label : string) (n : nat).
Variables (setup : M X) (serializing : X -> M A) (deserializing : X -> A -> M unit).
Hypothesis setup_free : clock_free setup.
Hypothesis serializing_free : forall x, clock_free (serializing x).
Hypothesis deserializing_free : forall x a, clock_free (deserializing x a).
Variables (clock : nat -> number) (s s0 s1 : State) (x : X) (a : A).
Variable e1 : list event.
Hypothesis setup_run : setup s = {| res := Some x; evs := []; final := s0 |}.
Hypothesis serializing_run :
  serializing x (tick s0) = {| res := Some a; evs := e1; final := s1 |}.

Lemma protocol_of_passes :
  protocol clock label n setup serializing deserializing s
  = let o2 := deserializing x a (tick (tick s1)) in
    match res o2 with
    | None => {| res := None; evs := Now :: e1 ++ Now :: Now :: evs o2;
                 final := final o2 |}
    | Some _ => {| res := Some (result_at clock label n (ticks s));
                   evs := Now :: e1 ++ Now :: Now :: evs o2 ++ [Now];
                   final := tick (final o2) |}
    end.
Proof.
  rewrite protocol_run by assumption. unfold protocol_outcome. cbv zeta.
  rewrite setup_run. cbn [res evs final]. rewrite serializing_run.
  cbn [res evs final app]. reflexivity.
Qed.

Lemma separated_intro payloads :
  e1 = map Serialize payloads ->
  serialized_payloads (evs (deserializing x a (tick (tick s1)))) = [] ->
  deserialized_payloads (evs (deserializing x a (tick (tick s1))))
    `prefix_of` payloads ->
  (is_Some (res (deserializing x a (tick (tick s1)))) ->
   deserialized_payloads (evs (deserializing x a (tick (tick s1)))) = payloads) ->
  separated (protocol clock label n setup serializing deserializing s) payloads.
Proof.
  intros E1 S2 P2 A2. rewrite protocol_of_passes. cbv zeta. subst e1.
  destruct (res (deserializing x a (tick (tick s1)))) as [[]|] eqn:R2.
  - exists (evs (deserializing x a (tick (tick s1))) ++ [Now]). cbn [res evs].
    rewrite serialized_payloads_app, deserialized_payloads_app, S2. cbn.
    rewrite app_nil_r. repeat split; auto.
  - exists (evs (deserializing x a (tick (tick s1)))). cbn [res evs].
    repeat split; auto.
Qed.

Lemma decodes_to_intro payloads expected :
  e1 = map Serialize payloads ->
  is_Some (res (deserializing x a (tick (tick s1)))) ->
  decoded_values (evs (deserializing x a (tick (tick s1)))) = expected ->
  decodes_to (protocol clock label n setup serializing deserializing s) expected.
Proof.
  intros E1 [[] R2] D2. rewrite protocol_of_passes. cbv zeta. subst e1.
  rewrite R2. split; [eexists; reflexivity|]. cbn [evs].
  rewrite decoded_values_Now, decoded_values_app, decoded_values_Serialize.
  cbn [app]. rewrite !decoded_values_Now, decoded_values_app, D2. cbn.
  now rewrite app_nil_r.
Qed.

Lemma warnings_of_passes payloads :
  e1 = map Serialize payloads ->
  warnings (evs (protocol clock label n setup serializing deserializing s))
  = warnings (evs (deserializing x a (tick (tick s1)))).
Proof.
  intros E1. rewrite protocol_of_passes. cbv zeta. subst e1.
  destruct (res (deserializing x a (tick (tick s1)))); cbn [evs];
    rewrite warnings_Now, warnings_app, warnings_Serialize; cbn [app];
    rewrite !warnings_Now; [|reflexivity].
  rewrite warnings_app. cbn. now rewrite app_nil_r.
Qed.

Lemma returns_of_passes :
  is_Some (res (deserializing x a (tick (tick s1)))) ->
  res (protocol clock label n setup serializing deserializing s)
  = Some (result_at clock label n (ticks s)).
Proof.
  intros [[] R2]. rewrite protocol_of_passes. cbv zeta. now rewrite R2.
Qed.

End Assembling.

(** ** The passes of the JSON, MessagePack and Avro tests *)
Section CodecPasses.
Context `{Externals}.
Context {P : Type} (wrap : P -> payload) (dec : P -> option TestData).

Lemma retained_seq (l : list P) k : forall i,
  (i + k <= List.length l)%nat ->
  retained wrap l (seq i k) = map wrap (take k (drop i l)).
Proof.
  induction k as [|k IH]; intros i Hi; [reflexivity|].
  cbn [seq].
  destruct (lookup_lt_is_Some_2 l i ltac:(lia)) as [p Ep].
  rewrite (retained_cons_Some wrap l i _ p Ep), IH by lia.
  rewrite (drop_S l p i Ep). reflexivity.
Qed.

Lemma retained_all (l : list P) :
  retained wrap l (seq 0 (List.length l)) = map wrap l.
Proof. rewrite retained_seq by lia. rewrite drop_0. now rewrite firstn_all. Qed.

Lemma when_log_events b args s :
  evs (when b (console_log args) s) = (if b then [Log args] else []) /\
  res (when b (console_log args) s) = Some tt /\
  final (when b (console_log args) s) = s.
Proof. destruct b; cbn; auto. Qed.

(** Events of a pass that ends with the optional [console.log]. *)
Lemma then_log_events {S} (loop : M S) (cond : S -> bool) (args : S -> list value) s :
  let o := bind loop (fun sum => when (cond sum) (console_log (args sum))) s in
  (is_Some (res o) <-> is_Some (res (loop s))) /\
  final o = final (loop s) /\
  serialized_payloads (evs o) = serialized_payloads (evs (loop s)) /\
  deserialized_payloads (evs o) = deserialized_payloads (evs (loop s)) /\
  decoded_values (evs o) = decoded_values (evs (loop s)) /\
  warnings (evs o) = warnings (evs (loop s)).
Proof.
  cbv zeta. unfold bind.
  destruct (res (loop s)) as [sum|]; cbn [res evs final].
  - destruct (when_log_events (cond sum) (args sum) (final (loop s)))
      as (E & R & F).
    rewrite E, R, F.
    rewrite serialized_payloads_app, deserialized_payloads_app,
      decoded_values_app, warnings_app.
    destruct (cond sum); cbn; rewrite ?app_nil_r;
      repeat split; auto; intros _; eexists; reflexivity.
  - repeat split; auto; intros [? ?]; discriminate.
Qed.

Lemma decoding_sum_events label n serialized s :
  let o := decoding_sum wrap dec label n serialized s in
  serialized_payloads (evs o) = [] /\
  deserialized_payloads (evs o) `prefix_of` retained wrap serialized (seq 0 n) /\
  (is_Some (res o) ->
   deserialized_payloads (evs o) = retained wrap serialized (seq 0 n)).
Proof.
  cbv zeta. unfold decoding_sum, for_range.
  destruct (then_log_events
              (for_each (decode_body wrap dec serialized
                           (fun sum parsed => sum + foo_number parsed))
                        (seq 0 n) 0)
              (fun sum => sum =? 0)
              (fun sum => [VString label; VNumber (of_Z sum)]) s)
    as (R & F & S0 & D & _ & _).
  destruct (decode_loop_events wrap dec serialized
              (fun sum parsed => sum + foo_number parsed) (seq 0 n) 0 s)
    as (_ & S1 & _ & _ & Pre & All).
  unfold decode_body in *. rewrite S0, D.
  split; [exact S1|]. split; [exact Pre|].
  intros Hs. apply All, R, Hs.
Qed.

Lemma decoding_events n serialized s :
  let o := decoding wrap dec n serialized s in
  serialized_payloads (evs o) = [] /\
  deserialized_payloads (evs o) `prefix_of` retained wrap serialized (seq 0 n) /\
  (is_Some (res o) ->
   deserialized_payloads (evs o) = retained wrap serialized (seq 0 n)).
Proof.
  cbv zeta. unfold decoding, for_range.
  destruct (decode_loop_events wrap dec serialized
              (fun (_ : unit) (_ : TestData) => tt) (seq 0 n) tt s)
    as (_ & S1 & _ & _ & Pre & All).
  unfold decode_body in *. auto.
Qed.

Lemma decoding_sum_ok label n serialized s (payload_of : nat -> P)
    (value_of : nat -> TestData) :
  (forall i, (i < n)%nat ->
     serialized !! i = Some (payload_of i) /\ dec (payload_of i) = Some (value_of i)) ->
  let o := decoding_sum wrap dec label n serialized s in
  is_Some (res o) /\
  decoded_values (evs o) = map (fun i => Data (value_of i)) (seq 0 n).
Proof.
  intros Hall. cbv zeta. unfold decoding_sum, for_range.
  destruct (then_log_events
              (for_each (decode_body wrap dec serialized
                           (fun sum parsed => sum + foo_number parsed))
                        (seq 0 n) 0)
              (fun sum => sum =? 0)
              (fun sum => [VString label; VNumber (of_Z sum)]) s)
    as (R & _ & _ & _ & D & _).
  unfold decode_body in *. rewrite D.
  fold (decode_body wrap dec serialized (fun sum parsed => sum + foo_number parsed)) in *.
  rewrite (decode_loop_ok wrap dec serialized _ payload_of value_of) in *
    by (intros i Hi; apply Hall; apply elem_of_seq in Hi; lia).
  cbn [res evs] in *. split; [apply R; eexists; reflexivity|].
  clear. induction (seq 0 n) as [|i l IH]; cbn; [reflexivity|]. now f_equal.
Qed.

Lemma decoding_ok n serialized s (payload_of : nat -> P)
    (value_of : nat -> TestData) :
  (forall i, (i < n)%nat ->
     serialized !! i = Some (payload_of i) /\ dec (payload_of i) = Some (value_of i)) ->
  let o := decoding wrap dec n serialized s in
  is_Some (res o) /\
  decoded_values (evs o) = map (fun i => Data (value_of i)) (seq 0 n).
Proof.
  intros Hall. cbv zeta. unfold decoding, for_range.
  fold (decode_body wrap dec serialized (fun (_ : unit) (_ : TestData) => tt)).
  rewrite (decode_loop_ok wrap dec serialized _ payload_of value_of)
    by (intros i Hi; apply Hall; apply elem_of_seq in Hi; lia).
  cbn [res evs]. split; [eexists; reflexivity|].
  clear. induction (seq 0 n) as [|i l IH]; cbn; [reflexivity|]. now f_equal.
Qed.

End CodecPasses.

(** ** The deserializing passes over FlatBuffers views *)
Section ViewPasses.
Context `{Externals}.

(** Reading the trace of a loop that emits, per index, one [Deserialize]
    event followed by warnings. *)
Lemma iterations_trace (D : list Byte.byte -> decoded)
    (W : nat -> list Byte.byte -> list string)
    (bytes_at : nat -> list Byte.byte) (indices : list nat) :
  let t := concat (map (fun i => Deserialize (Bytes (bytes_at i)) (D (bytes_at i))
                                 :: map Warn (W i (bytes_at i))) indices) in
  serialized_payloads t = [] /\
  deserialized_payloads t = map (fun i => Bytes (bytes_at i)) indices /\
  decoded_values t = map (fun i => D (bytes_at i)) indices /\
  warnings t = concat (map (fun i => W i (bytes_at i)) indices).
Proof.
  cbv zeta. induction indices as [|i l (IS & ID & IV & IW)]; cbn [map concat].
  - repeat split.
  - assert (Ws : forall ms, serialized_payloads (map Warn ms) = [] /\
                            deserialized_payloads (map Warn ms) = [] /\
                            decoded_values (map Warn ms) = [] /\
                            warnings (map Warn ms) = ms).
    { induction ms as [|m ms (A & B & C & D')]; cbn; repeat split; auto.
      now f_equal. }
    destruct (Ws (W i (bytes_at i))) as (A & B & C & D').
    rewrite serialized_payloads_app, deserialized_payloads_app,
      decoded_values_app, warnings_app, IS, ID, IV, IW.
    change (serialized_payloads (Deserialize ?p ?d :: ?l)) with (serialized_payloads l).
    change (deserialized_payloads (Deserialize ?p ?d :: ?l))
      with (p :: deserialized_payloads l).
    change (decoded_values (Deserialize ?p ?d :: ?l)) with (d :: decoded_values l).
    change (warnings (Deserialize ?p ?d :: ?l)) with (warnings l).
    rewrite A, B, C, D'. repeat split.
Qed.

Lemma elem_of_seq_0 i n : i ∈ seq 0 n -> (i < n)%nat.
Proof. intros Hi. apply elem_of_seq in Hi. lia. Qed.

(** The deserializing pass of [Web.testFlatBuffers] over views that read
    [bufs]. *)
Lemma web_deserializing_run n filled s (bufs : list (list Byte.byte)) :
  List.length bufs = n ->
  (forall m, (m < n)%nat ->
     exists v, array_get_sparse (snd filled) m = Some v /\
               bufs !! m = Some (read_heap (heap s) v)) ->
  let o := web_flatbuffers_deserializing n filled s in
  is_Some (res o) /\
  serialized_payloads (evs o) = [] /\
  deserialized_payloads (evs o) = map Bytes bufs /\
  decoded_values (evs o)
  = map (fun b => Table (TestData_foo b) (TestData_fooNumber b)) bufs /\
  warnings (evs o) = [].
Proof.
  intros Hlen Hviews. cbv zeta. unfold web_flatbuffers_deserializing, for_range.
  destruct (then_log_events
              (for_each (table_iteration (array_get_sparse (snd filled))) (seq 0 n) 0)
              (fun sum => sum =? 0)
              (fun sum => [VString "FlatBuffers sum:"; VNumber (of_Z sum)]) s)
    as (R & _ & S0 & D0 & V0 & W0).
  rewrite S0, D0, V0, W0. clear S0 D0 V0 W0.
  set (bytes_at := fun i => default [] (bufs !! i)).
  rewrite (pure_loop _
             (fun i sum => sum + (TestData_fooNumber (bytes_at i)
                                  + length_or_0 (TestData_foo (bytes_at i))))
             (fun i => table_events (bytes_at i))) in *.
  2:{ intros i a Hi. destruct (Hviews i (elem_of_seq_0 _ _ Hi)) as (v & Ev & Bv).
      rewrite (table_step _ i a s v Ev). unfold bytes_at. rewrite Bv. reflexivity. }
  2:{ intros i a Hi. destruct (Hviews i (elem_of_seq_0 _ _ Hi)) as (v & Ev & Bv).
      rewrite (table_step _ i a s v Ev). unfold bytes_at. rewrite Bv. reflexivity. }
  cbn [res evs] in *.
  destruct (iterations_trace
              (fun b => Table (TestData_foo b) (TestData_fooNumber b))
              (fun _ _ => []) bytes_at (seq 0 n)) as (A & B & C & D).
  cbv zeta in *. cbn [map] in A, B, C, D. unfold table_events.
  rewrite A, B, C, D. subst n.
  split; [apply R; eexists; reflexivity|]. split; [reflexivity|].
  split; [|split].
  - rewrite <- (map_lookup_seq bufs []) at 2. now rewrite map_map.
  - rewrite <- (map_lookup_seq bufs []) at 2. now rewrite map_map.
  - clear. induction (seq 0 (List.length bufs)); cbn; auto.
Qed.

(** A deserializing pass of a React Native test: the loop body is
    [iteration], which emits one [Deserialize] event and the warnings [W]
    for the bytes under each view. *)
Lemma native_deserializing_run
    (iteration : list Uint8Array -> nat -> unit -> M unit)
    (D : list Byte.byte -> decoded) (W : nat -> list Byte.byte -> list string)
    n serialized s (bufs : list (list Byte.byte)) :
  (forall i v, serialized !! i = Some v ->
     byteLength v = List.length (read_heap (heap s) v) ->
     iteration serialized i tt s
     = {| res := Some tt;
          evs := Deserialize (Bytes (read_heap (heap s) v)) (D (read_heap (heap s) v))
                 :: map Warn (W i (read_heap (heap s) v));
          final := s |}) ->
  List.length bufs = n ->
  (forall m, (m < n)%nat ->
     exists v, serialized !! m = Some v /\
               byteLength v = List.length (read_heap (heap s) v) /\
               bufs !! m = Some (read_heap (heap s) v)) ->
  let o := for_range n tt (iteration serialized) s in
  is_Some (res o) /\
  serialized_payloads (evs o) = [] /\
  deserialized_payloads (evs o) = map Bytes bufs /\
  decoded_values (evs o) = map D bufs /\
  warnings (evs o)
  = concat (map (fun i => W i (default [] (bufs !! i))) (seq 0 n)).
Proof.
  intros Hit Hlen Hviews. cbv zeta. unfold for_range.
  set (bytes_at := fun i => default [] (bufs !! i)).
  rewrite (pure_loop _ (fun _ _ => tt)
             (fun i => Deserialize (Bytes (bytes_at i)) (D (bytes_at i))
                       :: map Warn (W i (bytes_at i)))).
  2:{ intros i [] Hi.
      destruct (Hviews i (elem_of_seq_0 _ _ Hi)) as (v & Ev & Lv & Bv).
      rewrite (Hit i v Ev Lv). unfold bytes_at. rewrite Bv. reflexivity. }
  cbn [res evs].
  destruct (iterations_trace D W bytes_at (seq 0 n)) as (A & B & C & D').
  cbv zeta in *. rewrite A, B, C, D'. subst n.
  split; [eexists; reflexivity|]. split; [reflexivity|].
  split; [|split; [|reflexivity]].
  - rewrite <- (map_lookup_seq bufs []) at 2. now rewrite map_map.
  - rewrite <- (map_lookup_seq bufs []) at 2. now rewrite map_map.
Qed.

End ViewPasses.

(** ** The three FlatBuffers tests, run *)
Section FlatBuffersRuns.
Context `{Externals}.
Variable clock : nat -> number.

Lemma flatbuffers_run_intro {X A} label n (setup : M X) (serializing : X -> M A)
    (deserializing : X -> A -> M unit) s s0 s1 x a bufs D ws :
  clock_free setup ->
  (forall x, clock_free (serializing x)) ->
  (forall x a, clock_free (deserializing x a)) ->
  setup s = {| res := Some x; evs := []; final := s0 |} ->
  serializing x (tick s0)
  = {| res := Some a; evs := map Serialize (map Bytes bufs); final := s1 |} ->
  List.length bufs = n ->
  (let o := deserializing x a (tick (tick s1)) in
   is_Some (res o) /\
   serialized_payloads (evs o) = [] /\
   deserialized_payloads (evs o) = map Bytes bufs /\
   decoded_values (evs o) = map D bufs /\
   warnings (evs o) = ws) ->
  flatbuffers_run (protocol clock label n setup serializing deserializing s)
    (result_at clock label n (ticks s)) n bufs D ws.
Proof.
  intros F0 F1 F2 E0 E1 Hlen (R & S2 & D2 & V2 & W2).
  split; [eapply returns_of_passes; eauto|].
  split; [exact Hlen|]. split; [|split].
  - eapply separated_intro; eauto.
    + rewrite D2. reflexivity.
  - eapply decodes_to_intro; eauto.
  - erewrite warnings_of_passes; eauto.
Qed.

Lemma Web_testFlatBuffers_run n s :
  flatbuffers_run (Web.testFlatBuffers clock n s)
    (result_at clock "FlatBuffers" n (ticks s)) n
    (web_payloads (seq 0 n) (Builder_new 1024))
    (fun b => Table (TestData_foo b) (TestData_fooNumber b)) [].
Proof.
  rewrite Web_testFlatBuffers_protocol.
  set (b0 := {| bb := List.length (heap s); state := Builder_new 1024 |}).
  set (s0 := {| ticks := ticks s; heap := heap s ++ [replicate 1024 Byte.x00] |}).
  assert (Hb0 : (bb b0 < List.length (heap (tick s0)))%nat)
    by (cbn; rewrite length_app; cbn; lia).
  destruct (web_loop n 0 b0 (new_Array n) (tick s0) Hb0)
    as (b' & arr' & h' & E & Hb' & _ & _ & In).
  eapply (flatbuffers_run_intro _ _ _ _ _ s s0 _ b0 (b', arr'));
    [clock_free|clock_free|clock_free| | | |].
  - apply new_Builder_spec.
  - unfold web_flatbuffers_serializing, for_range. rewrite E.
    now rewrite map_map.
  - rewrite web_payloads_length. apply length_seq.
  - apply web_deserializing_run.
    + rewrite web_payloads_length. apply length_seq.
    + intros m Hm. destruct (In m Hm) as (v & Ev & _ & Pv).
      exists v. split; [exact Ev|exact Pv].
Qed.

Lemma native_views_read n s :
  exists vs h',
    native_flatbuffers_serializing n s
    = {| res := Some vs;
         evs := map Serialize (map Bytes (native_payloads n));
         final := {| ticks := ticks s; heap := h' |} |} /\
    forall m, (m < n)%nat ->
      exists v, vs !! m = Some v /\
                byteLength v = List.length (read_heap h' v) /\
                native_payloads n !! m = Some (read_heap h' v).
Proof.
  destruct (fresh_loop native_flatbuffers_iteration
              (fun i => written (fresh_table i)) native_iteration n 0 [] s)
    as (vs & h' & E & _ & _ & _ & In).
  exists vs, h'. split.
  - unfold native_flatbuffers_serializing, for_range, native_payloads.
    rewrite E. now rewrite !map_map.
  - intros m Hm. destruct (In m Hm) as (v & Ev & Lv & Rv). cbn in Lv, Rv.
    exists v. split; [exact Ev|]. rewrite Rv. split; [exact Lv|].
    unfold native_payloads. rewrite list_lookup_fmap, lookup_seq_lt by exact Hm.
    reflexivity.
Qed.

Lemma lowlevel_views_read n s :
  exists vs h',
    lowlevel_serializing n s
    = {| res := Some vs;
         evs := map Serialize (map Bytes (lowlevel_payloads n));
         final := {| ticks := ticks s; heap := h' |} |} /\
    forall m, (m < n)%nat ->
      exists v, vs !! m = Some v /\
                byteLength v = List.length (read_heap h' v) /\
                lowlevel_payloads n !! m = Some (read_heap h' v).
Proof.
  destruct (fresh_loop lowlevel_iteration
              (fun i => written (fresh_by_hand i)) lowlevel_iteration_spec n 0 [] s)
    as (vs & h' & E & _ & _ & _ & In).
  exists vs, h'. split.
  - unfold lowlevel_serializing, for_range, lowlevel_payloads.
    rewrite E. now rewrite !map_map.
  - intros m Hm. destruct (In m Hm) as (v & Ev & Lv & Rv). cbn in Lv, Rv.
    exists v. split; [exact Ev|]. rewrite Rv. split; [exact Lv|].
    unfold lowlevel_payloads. rewrite list_lookup_fmap, lookup_seq_lt by exact Hm.
    reflexivity.
Qed.

Lemma Native_testFlatBuffers_run n s :
  flatbuffers_run (Native.testFlatBuffers clock n s)
    (result_at clock "FlatBuffers" n (ticks s)) n
    (native_payloads n)
    (fun b => Table (TestData_foo b) (TestData_fooNumber b))
    (concat (map (fun i =>
                    let b := default [] (native_payloads n !! i) in
                    table_warnings i (TestData_foo b) (TestData_fooNumber b))
                 (seq 0 n))).
Proof.
  rewrite Native_testFlatBuffers_protocol.
  destruct (native_views_read n (tick s)) as (vs & h' & E & In).
  eapply (flatbuffers_run_intro _ _ _ _ _ s s _ tt vs);
    [clock_free|clock_free|clock_free| | | |].
  - reflexivity.
  - exact E.
  - unfold native_payloads. now rewrite length_map, length_seq.
  - apply (native_deserializing_run checked_iteration
             (fun b => Table (TestData_foo b) (TestData_fooNumber b))
             (fun i b => table_warnings i (TestData_foo b) (TestData_fooNumber b))).
    + intros i v Ev _. apply (checked_step vs i _ v Ev).
    + unfold native_payloads. now rewrite length_map, length_seq.
    + exact In.
Qed.

Lemma NativeLowLevel_testFlatBuffers_run n s :
  flatbuffers_run (NativeLowLevel.testFlatBuffers clock n s)
    (result_at clock "FlatBuffers" n (ticks s)) n
    (lowlevel_payloads n)
    (fun _ => Raw)
    (concat (map (fun i =>
                    let b := default [] (lowlevel_payloads n !! i) in
                    lowlevel_warnings i b (List.length b))
                 (seq 0 n))).
Proof.
  rewrite NativeLowLevel_testFlatBuffers_protocol.
  destruct (lowlevel_views_read n (tick s)) as (vs & h' & E & In).
  eapply (flatbuffers_run_intro _ _ _ _ _ s s _ tt vs);
    [clock_free|clock_free|clock_free| | | |].
  - reflexivity.
  - exact E.
  - unfold lowlevel_payloads. now rewrite length_map, length_seq.
  - apply (native_deserializing_run by_hand_iteration (fun _ => Raw)
             (fun i b => lowlevel_warnings i b (List.length b))).
    + intros i v Ev Lv. rewrite (by_hand_step vs i _ v Ev). now rewrite Lv.
    + unfold lowlevel_payloads. now rewrite length_map, length_seq.
    + exact In.
Qed.

End FlatBuffersRuns.

(** ** The JSON, MessagePack and Avro tests, run *)
Section CodecRuns.
Context `{Externals}.
Context {P : Type} (wrap : P -> payload) (enc : nat -> P) (dec : P -> option TestData).
Variables (clock : nat -> number) (label : string) (n : nat) (s : State).

Lemma encoded_lookup i :
  (i < n)%nat -> map enc (seq 0 n) !! i = Some (enc i).
Proof. intros Hi. now rewrite list_lookup_fmap, lookup_seq_lt. Qed.

Lemma encoded_retained :
  retained wrap (map enc (seq 0 n)) (seq 0 n) = map (fun i => wrap (enc i)) (seq 0 n).
Proof.
  rewrite <- (length_seq n 0) at 2. rewrite <- (length_map enc).
  now rewrite retained_all, map_map.
Qed.

Lemma summing_test_separated text :
  separated
    (protocol clock label n (ret tt) (fun _ => encoding wrap enc n)
       (fun _ => decoding_sum wrap dec text n) s)
    (map (fun i => wrap (enc i)) (seq 0 n)).
Proof.
  destruct (decoding_sum_events wrap dec text n (map enc (seq 0 n)) (tick (tick (tick s))))
    as (S2 & P2 & A2).
  rewrite encoded_retained in P2, A2.
  eapply separated_intro
    with (s0 := s) (s1 := tick s) (x := tt) (a := map enc (seq 0 n));
    [clock_free|clock_free|clock_free|reflexivity|apply encoding_run| | | |];
    [now rewrite map_map|exact S2|exact P2|exact A2].
Qed.

Lemma plain_test_separated :
  separated
    (protocol clock label n (ret tt) (fun _ => encoding wrap enc n)
       (fun _ => decoding wrap dec n) s)
    (map (fun i => wrap (enc i)) (seq 0 n)).
Proof.
  destruct (decoding_events wrap dec n (map enc (seq 0 n)) (tick (tick (tick s))))
    as (S2 & P2 & A2).
  rewrite encoded_retained in P2, A2.
  eapply separated_intro
    with (s0 := s) (s1 := tick s) (x := tt) (a := map enc (seq 0 n));
    [clock_free|clock_free|clock_free|reflexivity|apply encoding_run| | | |];
    [now rewrite map_map|exact S2|exact P2|exact A2].
Qed.

Variable value_of : nat -> TestData.
Hypothesis round_trip : forall i, (i < n)%nat -> dec (enc i) = Some (value_of i).

Lemma summing_test_decodes text :
  decodes_to
    (protocol clock label n (ret tt) (fun _ => encoding wrap enc n)
       (fun _ => decoding_sum wrap dec text n) s)
    (map (fun i => Data (value_of i)) (seq 0 n)).
Proof.
  destruct (decoding_sum_ok wrap dec text n (map enc (seq 0 n)) (tick (tick (tick s)))
              enc value_of) as (R & D).
  { intros i Hi. split; [now apply encoded_lookup|now apply round_trip]. }
  eapply decodes_to_intro
    with (s0 := s) (s1 := tick s) (x := tt) (a := map enc (seq 0 n));
    [clock_free|clock_free|clock_free|reflexivity|apply encoding_run| | |];
    [symmetry; apply map_map|exact R|exact D].
Qed.

Lemma plain_test_decodes :
  decodes_to
    (protocol clock label n (ret tt) (fun _ => encoding wrap enc n)
       (fun _ => decoding wrap dec n) s)
    (map (fun i => Data (value_of i)) (seq 0 n)).
Proof.
  destruct (decoding_ok wrap dec n (map enc (seq 0 n)) (tick (tick (tick s)))
              enc value_of) as (R & D).
  { intros i Hi. split; [now apply encoded_lookup|now apply round_trip]. }
  eapply decodes_to_intro
    with (s0 := s) (s1 := tick s) (x := tt) (a := map enc (seq 0 n));
    [clock_free|clock_free|clock_free|reflexivity|apply encoding_run| | |];
    [symmetry; apply map_map|exact R|exact D].
Qed.

End CodecRuns.

(** ** The two passes *)

Lemma payloads_of_length `{Externals} (f : test_function) (n : nat) :
  is_large f = false -> List.length (payloads_of f n) = n.
Proof.
  destruct f; intros Hf; try discriminate; cbn [payloads_of];
    unfold native_payloads, lowlevel_payloads;
    rewrite ?length_map, ?web_payloads_length; apply length_seq.
Qed.

(** ** The array held when the deserializing loop starts *)
Section Held.
Context `{Externals}.

(** Every test function is [protocol] over its passes. *)
Lemma run_test_passes (f : test_function) clock n data s :
  run_test f clock n data s
  = protocol clock (label_of f) (count_of f n)
      (pass_setup (passes_of f n data)) (pass_serializing (passes_of f n data))
      (pass_deserializing (passes_of f n data)) s.
Proof.
  destruct f; cbn [run_test label_of count_of is_large passes_of];
    unfold WebLarge.testMessagePack, WebLarge.testFlatBuffers,
      NativeLowLevel.testJSON, NativeLowLevel.testMessagePack.
  - apply Web_testJSON_protocol.
  - apply Web_testMessagePack_protocol.
  - apply Web_testFlatBuffers_protocol.
  - apply WebLarge_testJSON_protocol.
  - apply Web_testMessagePack_protocol.
  - apply Web_testFlatBuffers_protocol.
  - apply WebLarge_testAvro_protocol.
  - apply WebLarge_testLargeJSON_protocol.
  - apply WebLarge_testLargeMessagePack_protocol.
  - apply WebLarge_testLargeFlatBuffers_protocol.
  - apply Native_testJSON_protocol.
  - apply Native_testMessagePack_protocol.
  - apply Native_testFlatBuffers_protocol.
  - apply Native_testJSON_protocol.
  - apply Native_testMessagePack_protocol.
  - apply NativeLowLevel_testFlatBuffers_protocol.
Qed.

Lemma held_intro (P : passes) clock label n s x a s0 s1 payloads :
  clock_free (pass_setup P) ->
  (forall x, clock_free (pass_serializing P x)) ->
  (forall x a, clock_free (pass_deserializing P x a)) ->
  pass_setup P s = {| res := Some x; evs := []; final := s0 |} ->
  pass_serializing P x (tick s0)
  = {| res := Some a; evs := map Serialize payloads; final := s1 |} ->
  pass_slots P (heap s1) a = map Some payloads ->
  serialized_payloads (evs (pass_deserializing P x a (tick (tick s1)))) = [] ->
  deserialized_payloads (evs (pass_deserializing P x a (tick (tick s1))))
    `prefix_of` payloads ->
  (is_Some (res (pass_deserializing P x a (tick (tick s1)))) ->
   deserialized_payloads (evs (pass_deserializing P x a (tick (tick s1)))) = payloads) ->
  held_before_deserializing P payloads s
    (protocol clock label n (pass_setup P) (pass_serializing P)
       (pass_deserializing P) s).
Proof.
  intros F0 F1 F2 E0 E1 Sl S2 P2 A2.
  exists x, a, s0, s1. split; [exact E0|]. split; [exact E1|]. split; [exact Sl|].
  cbv zeta.
  rewrite (protocol_of_passes label n _ _ _ F0 F1 F2 clock s s0 s1 x a _ E0 E1).
  cbv zeta.
  destruct (res (pass_deserializing P x a (tick (tick s1)))) as [[]|] eqn:R2;
    cbn [res evs].
  - split; [reflexivity|]. split; [split; intros _; eexists; reflexivity|].
    auto.
  - rewrite app_nil_r. split; [reflexivity|].
    split; [split; intros [? ?]; discriminate|]. auto.
Qed.

(** Slots that hold the payloads, index by index. *)
Lemma slots_hold {A} (g : A -> option payload) (l : list A) (payloads : list payload) :
  List.length l = List.length payloads ->
  (forall m, (m < List.length payloads)%nat ->
     exists a, l !! m = Some a /\ g a = payloads !! m) ->
  map g l = map Some payloads.
Proof.
  intros Hlen Hat. apply list_eq. intros m. rewrite !list_lookup_fmap.
  destruct (Nat.lt_ge_cases m (List.length payloads)) as [Hm|Hm].
  - destruct (Hat m Hm) as (a & Ea & Ga).
    destruct (lookup_lt_is_Some_2 payloads m Hm) as [p Ep].
    rewrite Ea, Ep. cbn. now rewrite Ga, Ep.
  - rewrite (lookup_ge_None_2 l m) by lia.
    rewrite (lookup_ge_None_2 payloads m) by lia. reflexivity.
Qed.

Section Codec.
Context {P : Type} (wrap : P -> payload) (enc : nat -> P) (dec : P -> option TestData).
Variables (clock : nat -> number) (label : string) (n : nat) (s : State).

Lemma codec_held (deserializing : list P -> M unit) :
  (forall serialized, clock_free (deserializing serialized)) ->
  (forall serialized s',
     let o := deserializing serialized s' in
     serialized_payloads (evs o) = [] /\
     deserialized_payloads (evs o) `prefix_of` retained wrap serialized (seq 0 n) /\
     (is_Some (res o) ->
      deserialized_payloads (evs o) = retained wrap serialized (seq 0 n))) ->
  held_before_deserializing (codec_passes wrap enc deserializing n)
    (map (fun i => wrap (enc i)) (seq 0 n)) s
    (protocol clock label n (ret tt) (fun _ => encoding wrap enc n)
       (fun _ => deserializing) s).
Proof.
  intros Free Ev.
  destruct (Ev (map enc (seq 0 n)) (tick (tick (tick s)))) as (S2 & P2 & A2).
  rewrite encoded_retained in P2, A2.
  apply (held_intro (codec_passes wrap enc deserializing n) clock label n s tt
           (map enc (seq 0 n)) s (tick s)).
  - cbn [codec_passes pass_setup]. clock_free.
  - intros x. cbn [codec_passes pass_serializing]. clock_free.
  - intros x a. apply Free.
  - reflexivity.
  - cbn [codec_passes pass_serializing]. rewrite encoding_run. now rewrite map_map.
  - cbn [codec_passes pass_slots]. now rewrite !map_map.
  - exact S2.
  - exact P2.
  - exact A2.
Qed.

Lemma summing_test_held text :
  held_before_deserializing (codec_passes wrap enc (decoding_sum wrap dec text n) n)
    (map (fun i => wrap (enc i)) (seq 0 n)) s
    (protocol clock label n (ret tt) (fun _ => encoding wrap enc n)
       (fun _ => decoding_sum wrap dec text n) s).
Proof.
  apply codec_held; [clock_free|].
  intros serialized s'. apply decoding_sum_events.
Qed.

Lemma plain_test_held :
  held_before_deserializing (codec_passes wrap enc (decoding wrap dec n) n)
    (map (fun i => wrap (enc i)) (seq 0 n)) s
    (protocol clock label n (ret tt) (fun _ => encoding wrap enc n)
       (fun _ => decoding wrap dec n) s).
Proof.
  apply codec_held; [clock_free|].
  intros serialized s'. apply decoding_events.
Qed.

End Codec.

(** The array of the web FlatBuffers test keeps the length it was created
    with. *)
Lemma array_set_length {A} (a : list (option A)) i x :
  (i < List.length a)%nat -> List.length (array_set a i x) = List.length a.
Proof.
  intros Hi. unfold array_set. apply Nat.ltb_lt in Hi. rewrite Hi.
  apply length_insert.
Qed.

Lemma web_loop_length k : forall i b arr s b' arr',
  (bb b < List.length (heap s))%nat ->
  (i + k <= List.length arr)%nat ->
  res (for_each web_flatbuffers_iteration (seq i k) (b, arr) s) = Some (b', arr') ->
  List.length arr' = List.length arr.
Proof.
  induction k as [|k IH]; intros i b arr s b' arr' Hb Hk R.
  - cbn in R. now injection R as _ <-.
  - cbn [seq for_each] in R.
    destruct (web_iteration i b arr s Hb) as (b1 & h1 & E1 & _ & Hb1 & _).
    cbv zeta in E1. rewrite (bind_eq _ _ _ _ _ _ E1) in R. cbn [after res] in R.
    apply IH in R.
    + rewrite R. apply array_set_length. lia.
    + cbn. rewrite length_app. cbn. lia.
    + rewrite array_set_length by lia. lia.
Qed.

Lemma web_flatbuffers_held clock n s :
  held_before_deserializing (web_flatbuffers_passes n)
    (map Bytes (web_payloads (seq 0 n) (Builder_new 1024))) s
    (protocol clock "FlatBuffers" n (new_Builder 1024)
       (web_flatbuffers_serializing n)
       (fun _ => web_flatbuffers_deserializing n) s).
Proof.
  set (b0 := {| bb := List.length (heap s); state := Builder_new 1024 |}).
  set (s0 := {| ticks := ticks s; heap := heap s ++ [replicate 1024 Byte.x00] |}).
  assert (Hb0 : (bb b0 < List.length (heap (tick s0)))%nat)
    by (cbn; rewrite length_app; cbn; lia).
  destruct (web_loop n 0 b0 (new_Array n) (tick s0) Hb0)
    as (b' & arr' & h' & E & Hb' & _ & _ & In).
  assert (Hlen : List.length arr' = n).
  { rewrite (web_loop_length n 0 b0 (new_Array n) (tick s0) b' arr' Hb0).
    - unfold new_Array. apply length_replicate.
    - unfold new_Array. rewrite length_replicate. lia.
    - now rewrite E. }
  assert (Hviews : forall m, (m < n)%nat ->
            exists v, array_get_sparse arr' m = Some v /\
                      web_payloads (seq 0 n) (Builder_new 1024) !! m
                      = Some (read_heap h' v)).
  { intros m Hm. destruct (In m Hm) as (v & Ev & _ & Pv). exists v. auto. }
  destruct (web_deserializing_run n (b', arr')
              (tick (tick {| ticks := ticks (tick s0); heap := h' |}))
              (web_payloads (seq 0 n) (Builder_new 1024)))
    as (R2 & S2 & D2 & _ & _).
  { rewrite web_payloads_length. apply length_seq. }
  { exact Hviews. }
  apply (held_intro (web_flatbuffers_passes n) clock "FlatBuffers" n s b0 (b', arr')
           s0 {| ticks := ticks (tick s0); heap := h' |}).
  - cbn [web_flatbuffers_passes pass_setup]. clock_free.
  - intros x. cbn [web_flatbuffers_passes pass_serializing]. clock_free.
  - intros x a. cbn [web_flatbuffers_passes pass_deserializing]. clock_free.
  - apply new_Builder_spec.
  - cbn [web_flatbuffers_passes pass_serializing].
    unfold web_flatbuffers_serializing, for_range. rewrite E. now rewrite map_map.
  - cbn [web_flatbuffers_passes pass_slots snd heap].
    apply slots_hold.
    + rewrite length_map, web_payloads_length, length_seq. exact Hlen.
    + intros m Hm. rewrite length_map, web_payloads_length, length_seq in Hm.
      destruct (Hviews m Hm) as (v & Ev & Pv).
      unfold array_get_sparse in Ev.
      destruct (arr' !! m) as [[w|]|] eqn:Em; try discriminate.
      cbn in Ev. injection Ev as ->.
      exists (Some v). split; [reflexivity|].
      rewrite list_lookup_fmap, Pv. reflexivity.
  - exact S2.
  - cbn [web_flatbuffers_passes pass_deserializing]. rewrite D2. reflexivity.
  - intros _. exact D2.
Qed.

(** Tests with a builder of their own per iteration. *)
Lemma views_held (iteration : nat -> list Uint8Array -> M (list Uint8Array))
    (reading : list Uint8Array -> nat -> unit -> M unit)
    (payload_of : nat -> list Byte.byte)
    (D : list Byte.byte -> decoded) (W : nat -> list Byte.byte -> list string)
    clock label n s :
  (forall i acc, clock_free (iteration i acc)) ->
  (forall serialized i u, clock_free (reading serialized i u)) ->
  (forall i acc s, exists v h',
     iteration i acc s
     = {| res := Some (push acc v);
          evs := [Serialize (Bytes (payload_of i))];
          final := {| ticks := ticks s; heap := h' |} |} /\
     (List.length (heap s) <= List.length h')%nat /\
     (forall k, (k < List.length (heap s))%nat -> h' !! k = heap s !! k) /\
     (buffer v < List.length h')%nat /\
     byteLength v = List.length (payload_of i) /\
     read_heap h' v = payload_of i) ->
  (forall serialized s i v, serialized !! i = Some v ->
     byteLength v = List.length (read_heap (heap s) v) ->
     reading serialized i tt s
     = {| res := Some tt;
          evs := Deserialize (Bytes (read_heap (heap s) v)) (D (read_heap (heap s) v))
                 :: map Warn (W i (read_heap (heap s) v));
          final := s |}) ->
  held_before_deserializing
    (view_passes (for_range n [] iteration)
       (fun serialized => for_range n tt (reading serialized)))
    (map (fun i => Bytes (payload_of i)) (seq 0 n)) s
    (protocol clock label n (ret tt) (fun _ => for_range n [] iteration)
       (fun _ serialized => for_range n tt (reading serialized)) s).
Proof.
  intros F1 F2 Hit Hread.
  destruct (fresh_loop iteration payload_of Hit n 0 [] (tick s))
    as (vs & h' & E & _ & _ & L & In).
  set (s1 := {| ticks := ticks (tick s); heap := h' |}).
  assert (Hviews : forall m, (m < n)%nat ->
            exists v, vs !! m = Some v /\
                      byteLength v = List.length (read_heap (heap (tick (tick s1))) v) /\
                      map payload_of (seq 0 n) !! m
                      = Some (read_heap (heap (tick (tick s1))) v)).
  { intros m Hm. destruct (In m Hm) as (v & Ev & Lv & Rv). cbn in Lv, Rv.
    exists v. cbn [tick heap s1]. rewrite Rv. split; [exact Ev|]. split; [exact Lv|].
    now rewrite list_lookup_fmap, lookup_seq_lt. }
  destruct (native_deserializing_run reading D W n vs (tick (tick s1))
              (map payload_of (seq 0 n)))
    as (R2 & S2 & D2 & _ & _).
  { intros i v Ev Lv. now apply Hread. }
  { now rewrite length_map, length_seq. }
  { exact Hviews. }
  rewrite map_map in D2.
  apply (held_intro (view_passes (for_range n [] iteration)
                       (fun serialized => for_range n tt (reading serialized)))
           clock label n s tt vs s s1).
  - cbn [view_passes pass_setup]. clock_free.
  - intros x. cbn [view_passes pass_serializing]. clock_free.
  - intros x a. cbn [view_passes pass_deserializing]. clock_free.
  - reflexivity.
  - cbn [view_passes pass_serializing]. unfold for_range. rewrite E.
    cbn [app]. now rewrite map_map.
  - cbn [view_passes pass_slots heap s1]. apply slots_hold.
    + now rewrite L, length_map, length_seq.
    + intros m Hm. rewrite length_map, length_seq in Hm.
      destruct (In m Hm) as (v & Ev & _ & Rv). cbn in Rv.
      exists v. split; [exact Ev|]. rewrite Rv.
      now rewrite list_lookup_fmap, lookup_seq_lt.
  - exact S2.
  - cbn [view_passes pass_deserializing]. rewrite D2. reflexivity.
  - intros _. exact D2.
Qed.

End Held.

(** C5. A small-fixture test run with iteration count [N] is the timing
    protocol over its two loops, and when its deserializing loop starts
    the array [serialized] holds exactly the [N] payloads, in order: the
    serializing loop has returned (it never raises), having emitted one
    [Serialize] event for each payload and nothing else; in the store it
    leaves, slot [i] of the array it returns holds payload [i] and the
    array has no other slot; the clock is then read twice and the
    deserializing loop runs on that array, serializes nothing, and is
    given those payloads in order, all of them when the test returns a
    result. *)
Theorem payloads_held_when_deserializing_begins `{Externals} (f : test_function)
    (clock : nat -> number) (N : nat) (largeJsonData : list value) (s : State) :
  is_large f = false ->
  let P := passes_of f N largeJsonData in
  (forall clock' s',
     run_test f clock' N largeJsonData s'
     = protocol clock' (label_of f) N (pass_setup P) (pass_serializing P)
         (pass_deserializing P) s') /\
  List.length (payloads_of f N) = N /\
  held_before_deserializing P (payloads_of f N) s (run_test f clock N largeJsonData s).
Proof.
  intros Hf. cbv zeta.
  assert (Hc : count_of f N = N) by (unfold count_of; now rewrite Hf).
  split; [intros clock' s'; rewrite run_test_passes; now rewrite Hc|].
  split; [now apply payloads_of_length|].
  rewrite run_test_passes, Hc.
  destruct f; try discriminate; cbn [passes_of payloads_of label_of].
  - apply summing_test_held.
  - apply summing_test_held.
  - apply web_flatbuffers_held.
  - apply summing_test_held.
  - apply summing_test_held.
  - apply web_flatbuffers_held.
  - apply summing_test_held.
  - apply plain_test_held.
  - apply plain_test_held.
  - unfold native_payloads. rewrite map_map.
    apply (views_held native_flatbuffers_iteration checked_iteration
             (fun i => written (fresh_table i))
             (fun b => Table (TestData_foo b) (TestData_fooNumber b))
             (fun i b => table_warnings i (TestData_foo b) (TestData_fooNumber b))).
    + clock_free.
    + clock_free.
    + apply native_iteration.
    + intros serialized s' i v Ev _. apply (checked_step serialized i s' v Ev).
  - apply plain_test_held.
  - apply plain_test_held.
  - unfold lowlevel_payloads. rewrite map_map.
    apply (views_held lowlevel_iteration by_hand_iteration
             (fun i => written (fresh_by_hand i)) (fun _ => Raw)
             (fun i b => lowlevel_warnings i b (List.length b))).
    + clock_free.
    + clock_free.
    + apply lowlevel_iteration_spec.
    + intros serialized s' i v Ev Lv.
      rewrite (by_hand_step serialized i s' v Ev). now rewrite Lv.
Qed.

(** ** Round trips *)
Section RoundTrips.
Context `{Externals}.

Lemma separated_payloads o payloads :
  separated o payloads -> is_Some (res o) ->
  serialized_payloads (evs o) = payloads /\
  deserialized_payloads (evs o) = payloads.
Proof.
  intros (rest & E & S0 & _ & All) [r R]. rewrite R in All. rewrite E.
  change (serialized_payloads (Now :: ?l)) with (serialized_payloads l).
  change (deserialized_payloads (Now :: ?l)) with (deserialized_payloads l).
  rewrite serialized_payloads_app, deserialized_payloads_app,
    serialized_payloads_Serialize, deserialized_payloads_Serialize.
  change (serialized_payloads (Now :: Now :: rest)) with (serialized_payloads rest).
  change (deserialized_payloads (Now :: Now :: rest))
    with (deserialized_payloads rest).
  rewrite S0, All. cbn. now rewrite app_nil_r.
Qed.

Lemma web_payloads_decoded {B} (D : list Byte.byte -> B) (E : nat -> B) k :
  forall i st,
    (forall j st', (i <= j < i + k)%nat ->
       D (written (finished_table j (Builder_clear st'))) = E j) ->
    map D (web_payloads (seq i k) st) = map E (seq i k).
Proof.
  induction k as [|k IH]; intros i st Hall; [reflexivity|].
  cbn [seq web_payloads map]. f_equal.
  - apply Hall. lia.
  - apply IH. intros j st' Hj. apply Hall. lia.
Qed.

Lemma decodes_fields o (f : test_function) n (E : nat -> decoded) :
  decodes_to o (map E (seq 0 n)) ->
  (forall i, fields_of (E i) = Some (Some (generated_string f i), Z.of_nat i)) ->
  is_Some (res o) /\
  map fields_of (decoded_values (evs o))
  = map (fun i => Some (Some (generated_string f i), Z.of_nat i)) (seq 0 n).
Proof.
  intros [R D] HE. split; [exact R|]. rewrite D, map_map.
  apply map_ext. exact HE.
Qed.

Lemma flatbuffers_decodes o r n bufs D ws (E : nat -> decoded) :
  flatbuffers_run o r n bufs D ws ->
  map D bufs = map E (seq 0 n) ->
  decodes_to o (map E (seq 0 n)).
Proof.
  intros (R & _ & _ & V & _) HE. split; [rewrite R; eexists; reflexivity|].
  now rewrite V.
Qed.

End RoundTrips.

(** ** The reused builder *)

(** C4. [Web.testFlatBuffers] reuses one builder for all [N] iterations
    and stores [buf.slice()].  Whatever the builder writes: the test
    returns; the [N] payloads deserialized after the serializing loop has
    finished are, in order, the [N] payloads as they were serialized, none
    overwritten by a later iteration; and the view stored at index [i] is
    on a buffer that is not the builder's and still reads payload [i] when
    the loop ends.  With a table accessor that gives back the number
    built, payload [i] read then yields [foo_number == i]. *)
Theorem web_flatbuffers_payloads_are_copies `{Externals}
    (clock : nat -> number) (N : nat) (s : State) :
  (forall i st, (i < N)%nat ->
     TestData_fooNumber (written (finished_table i (Builder_clear st))) = Z.of_nat i) ->
  let o := Web.testFlatBuffers clock N s in
  is_Some (res o) /\
  List.length (serialized_payloads (evs o)) = N /\
  deserialized_payloads (evs o) = serialized_payloads (evs o) /\
  map (fun d => snd <$> fields_of d) (decoded_values (evs o))
  = map (fun i => Some (Z.of_nat i)) (seq 0 N) /\
  forall b s', (bb b < List.length (heap s'))%nat ->
    exists b' serialized h',
      res (web_flatbuffers_serializing N b s') = Some (b', serialized) /\
      heap (final (web_flatbuffers_serializing N b s')) = h' /\
      forall i, (i < N)%nat ->
        exists v, array_get_sparse serialized i = Some v /\
                  buffer v <> bb b' /\
                  web_payloads (seq 0 N) (state b) !! i = Some (read_heap h' v).
Proof.
  intros Hnum. cbv zeta.
  destruct (Web_testFlatBuffers_run clock N s) as (R & Len & Sep & V & _).
  assert (Rs : is_Some (res (Web.testFlatBuffers clock N s)))
    by (rewrite R; eexists; reflexivity).
  destruct (separated_payloads _ _ Sep Rs) as [Ser De].
  split; [exact Rs|]. split; [now rewrite Ser, length_map|].
  split; [now rewrite Ser, De|]. split.
  - rewrite V, map_map.
    apply (web_payloads_decoded
             (fun b => snd <$> fields_of (Table (TestData_foo b) (TestData_fooNumber b)))
             (fun i => Some (Z.of_nat i)) N 0 (Builder_new 1024)).
    intros j st' Hj. cbn. f_equal. apply Hnum. lia.
  - intros b s' Hb.
    destruct (web_loop N 0 b (new_Array N) s' Hb)
      as (b' & arr' & h' & E & _ & _ & _ & In).
    exists b', arr', h'. unfold web_flatbuffers_serializing, for_range.
    rewrite E. split; [reflexivity|]. split; [reflexivity|]. exact In.
Qed.

(** ** The tests on the large data set *)
Section LargeTests.
Context `{Externals}.

Lemma silent_large_flatbuffers_building data :
  silent (large_flatbuffers_building data).
Proof. silent. Qed.

Lemma get_property_spec v key :
  has_properties v = true ->
  exists w, forall s, get_property v key s = {| res := Some w; evs := []; final := s |}.
Proof.
  destruct v; intros Hv; try discriminate; eexists; intros st; reflexivity.
Qed.

Lemma person_iteration_returns data i b offsets s person :
  (bb b < List.length (heap s))%nat ->
  data !! i = Some person -> has_properties person = true ->
  exists b' offsets' s',
    person_iteration data i (b, offsets) s
    = {| res := Some (b', offsets'); evs := []; final := s' |} /\
    (bb b' < List.length (heap s'))%nat.
Proof.
  intros Hb Ei Hp. unfold person_iteration, array_get. rewrite Ei. cbn [default].
  destruct (get_property_spec person "name" Hp) as (name & En).
  destruct (get_property_spec person "language" Hp) as (language & El).
  destruct (get_property_spec person "id" Hp) as (id & Eid).
  destruct (get_property_spec person "bio" Hp) as (bio & Eb).
  destruct (get_property_spec person "version" Hp) as (version & Ev).
  rewrite (bind_eq _ _ _ _ _ _ (En s)).
  destruct (method_offset_spec (Builder_createString (js_or name (VString ""))) b s Hb)
    as (b1 & s1 & E1 & _ & _ & [Hb1 _] & _).
  rewrite (bind_eq _ _ _ _ _ _ E1), (bind_eq _ _ _ _ _ _ (El s1)).
  destruct (method_offset_spec (Builder_createString (js_or language (VString "")))
              b1 s1 Hb1) as (b2 & s2 & E2 & _ & _ & [Hb2 _] & _).
  rewrite (bind_eq _ _ _ _ _ _ E2), (bind_eq _ _ _ _ _ _ (Eid s2)).
  destruct (method_offset_spec (Builder_createString (js_or id (VString "")))
              b2 s2 Hb2) as (b3 & s3 & E3 & _ & _ & [Hb3 _] & _).
  rewrite (bind_eq _ _ _ _ _ _ E3), (bind_eq _ _ _ _ _ _ (Eb s3)).
  destruct (method_offset_spec (Builder_createString (js_or bio (VString "")))
              b3 s3 Hb3) as (b4 & s4 & E4 & _ & _ & [Hb4 _] & _).
  rewrite (bind_eq _ _ _ _ _ _ E4), (bind_eq _ _ _ _ _ _ (Ev s4)).
  match goal with
  | |- context [method_offset ?f b4] =>
      destruct (method_offset_spec f b4 s4 Hb4) as (b5 & s5 & E5 & _ & _ & [Hb5 _] & _);
      rewrite (bind_eq _ _ _ _ _ _ E5)
  end.
  eexists _, _, _. split; [reflexivity|exact Hb5].
Qed.

Lemma person_loop_returns data k : forall i b offsets s,
  (bb b < List.length (heap s))%nat ->
  forallb has_properties data = true ->
  (i + k <= List.length data)%nat ->
  exists b' offsets' s',
    for_each (person_iteration data) (seq i k) (b, offsets) s
    = {| res := Some (b', offsets'); evs := []; final := s' |} /\
    (bb b' < List.length (heap s'))%nat.
Proof.
  induction k as [|k IH]; intros i b offsets s Hb Hall Hi.
  - eexists _, _, _. split; [reflexivity|exact Hb].
  - cbn [seq for_each].
    destruct (lookup_lt_is_Some_2 data i ltac:(lia)) as [person Ei].
    assert (Hp : has_properties person = true).
    { rewrite forallb_forall in Hall. apply Hall.
      apply list_elem_of_In, list_elem_of_lookup. eauto. }
    destruct (person_iteration_returns data i b offsets s person Hb Ei Hp)
      as (b1 & o1 & s1 & E1 & Hb1).
    destruct (IH (S i) b1 o1 s1 Hb1 Hall ltac:(lia)) as (b' & o' & s' & E & Hb').
    exists b', o', s'. rewrite (bind_eq _ _ _ _ _ _ E1), E.
    split; [reflexivity|exact Hb'].
Qed.

Lemma large_flatbuffers_building_returns data s :
  forallb has_properties data = true ->
  exists b s', large_flatbuffers_building data s
               = {| res := Some b; evs := []; final := s' |} /\
               in_sync (heap s') b.
Proof.
  intros Hall. unfold large_flatbuffers_building.
  rewrite (bind_eq _ _ _ _ _ _ (new_Builder_spec _ s)), after_nil.
  set (b0 := {| bb := List.length (heap s); state := Builder_new _ |}).
  set (s0 := {| ticks := ticks s; heap := heap s ++ [_] |}).
  destruct (person_loop_returns data (List.length data) 0 b0 [] s0)
    as (b1 & o1 & s1 & E1 & Hb1);
    [unfold b0, s0; cbn [bb heap]; rewrite length_app; cbn [List.length]; lia
    |exact Hall|lia|].
  unfold for_range. rewrite (bind_eq _ _ _ _ _ _ E1).
  destruct (method_offset_spec (PersonList_createPersonsVector o1) b1 s1 Hb1)
    as (b2 & s2 & E2 & _ & _ & [Hb2 _] & _).
  rewrite (bind_eq _ _ _ _ _ _ E2).
  match goal with
  | |- context [method_offset ?f b2] =>
      destruct (method_offset_spec f b2 s2 Hb2) as (b3 & s3 & E3 & _ & _ & [Hb3 _] & _);
      rewrite (bind_eq _ _ _ _ _ _ E3)
  end.
  match goal with
  | |- context [method ?f b3] =>
      destruct (method_spec f b3 s3 Hb3) as (b4 & s4 & E4 & _ & _ & Sy4 & _);
      rewrite E4
  end.
  exists b4, s4. split; [reflexivity|exact Sy4].
Qed.

(** The serializing pass emits its single [Serialize] event when the
    builder calls have returned, and nothing when one of them raised. *)
Lemma large_flatbuffers_serializing_events data s :
  let o := large_flatbuffers_serializing data s in
  deserialized_payloads (evs o) = [] /\
  match res o with
  | Some _ => List.length (serialized_payloads (evs o)) = 1%nat
  | None => serialized_payloads (evs o) = []
  end.
Proof.
  cbv zeta. unfold large_flatbuffers_serializing, bind.
  rewrite (silent_large_flatbuffers_building data s).
  destruct (res (large_flatbuffers_building data s)); cbn; auto.
Qed.

Lemma large_flatbuffers_serializing_returns data s :
  forallb has_properties data = true ->
  is_Some (res (large_flatbuffers_serializing data s)).
Proof.
  intros Hall.
  destruct (large_flatbuffers_building_returns data s Hall) as (b & s' & E & _).
  unfold large_flatbuffers_serializing. rewrite (bind_eq _ _ _ _ _ _ E).
  cbn. eexists; reflexivity.
Qed.

Lemma concat_nils {A B} (l : list A) : concat (map (fun _ => @nil B) l) = [].
Proof. induction l; cbn; auto. Qed.

(** The loop over the persons returns and is silent. *)
Lemma sum_versions_run personList s :
  exists sum, sum_versions personList s = {| res := Some sum; evs := []; final := s |}.
Proof.
  eexists. unfold sum_versions, for_range.
  rewrite (pure_loop _
             (fun i a => match PersonList_persons_version personList i with
                         | Some version => add a version
                         | None => a
                         end)
             (fun _ => [])).
  - now rewrite concat_nils.
  - intros i a _. destruct (PersonList_persons_version _ i); reflexivity.
Qed.

(** The deserializing pass always returns, after one [Deserialize] event. *)
Lemma large_flatbuffers_deserializing_events v s :
  let o := large_flatbuffers_deserializing v s in
  is_Some (res o) /\
  serialized_payloads (evs o) = [] /\
  List.length (deserialized_payloads (evs o)) = 1%nat.
Proof.
  cbv zeta. unfold large_flatbuffers_deserializing.
  assert (E0 : new_ByteBuffer (Some v) s
               = {| res := Some (read_heap (heap s) v); evs := []; final := s |})
    by reflexivity.
  rewrite (bind_eq _ _ _ _ _ _ E0), after_nil.
  set (buf := read_heap (heap s) v).
  assert (E1 : getRootAsPersonList buf s
               = {| res := Some buf;
                    evs := [Deserialize (Bytes buf)
                              (Persons (map (PersonList_persons_version buf)
                                            (seq 0 (PersonList_personsLength buf))))];
                    final := s |}) by reflexivity.
  rewrite (bind_eq _ _ _ _ _ _ E1).
  destruct (sum_versions_run buf s) as (sum & E2).
  rewrite (bind_eq _ _ _ _ _ _ E2), after_nil.
  destruct (when_log_events (eqb sum zero)
              [VString "Large FlatBuffers sum:"; VNumber sum] s) as (E & R & _).
  unfold after. cbn [res evs]. rewrite E, R.
  split; [eexists; reflexivity|].
  destruct (eqb sum zero); cbn; auto.
Qed.

(** A decoder call on a payload emits exactly one [Deserialize] event,
    whether it returns or raises; console output follows only when it
    returned. *)
Lemma decoded_then_log_events {P} (wrap : P -> payload) dec p
    (cond : value -> bool) (args : value -> list value) s :
  let o := bind (decoder_call wrap Any dec (Some p))
                (fun parsed => when (cond parsed) (console_log (args parsed))) s in
  (is_Some (res o) <-> is_Some (dec p)) /\
  serialized_payloads (evs o) = [] /\
  List.length (deserialized_payloads (evs o)) = 1%nat.
Proof.
  cbv zeta. unfold bind. cbn [decoder_call].
  destruct (dec p) as [v|]; cbn [bind emit ret throw res evs final app].
  - destruct (cond v); cbn; repeat split; auto; intros _; eexists; reflexivity.
  - repeat split; auto; intros [? ?]; discriminate.
Qed.

End LargeTests.

(** ** Runs of the tests on the large data set *)
Section LargeRuns.
Context `{Externals}.
Variables (clock : nat -> number) (data : list value) (s : State).

Lemma large_codec_run {P} (wrap : P -> payload) (p : P) label
    (deserializing : P -> M unit) :
  (forall a, clock_free (deserializing a)) ->
  let o := protocol clock label 1 (ret tt) (fun _ => encoder_call wrap p)
             (fun _ => deserializing) s in
  let o2 := deserializing p (tick (tick (tick s))) in
  serialized_payloads (evs o) = wrap p :: serialized_payloads (evs o2) /\
  deserialized_payloads (evs o) = deserialized_payloads (evs o2) /\
  (is_Some (res o) <-> is_Some (res o2)).
Proof.
  intros F. cbv zeta.
  rewrite (protocol_of_passes label 1 (ret tt) (fun _ => encoder_call wrap p)
             (fun _ => deserializing)) with (s0 := s) (s1 := tick s) (x := tt) (a := p)
             (e1 := [Serialize (wrap p)]);
    [|clock_free|clock_free|clock_free|reflexivity|reflexivity].
  cbv zeta.
  destruct (res (deserializing p (tick (tick (tick s))))) as [[]|] eqn:R; cbn [res evs].
  - cbn. rewrite serialized_payloads_app, deserialized_payloads_app. cbn.
    rewrite !app_nil_r. repeat split; intros; eexists; reflexivity.
  - cbn. repeat split; auto; intros [? ?]; discriminate.
Qed.

Lemma large_codec_test {P} (wrap : P -> payload) (p : P) label dec
    (cond : value -> bool) (args : value -> list value) :
  let o := protocol clock label 1 (ret tt) (fun _ => encoder_call wrap p)
             (fun _ serialized =>
                bind (decoder_call wrap Any dec (Some serialized))
                     (fun parsed => when (cond parsed) (console_log (args parsed)))) s in
  List.length (serialized_payloads (evs o)) = 1%nat /\
  List.length (deserialized_payloads (evs o)) = 1%nat /\
  (is_Some (res o) <-> is_Some (dec p)).
Proof.
  cbv zeta.
  destruct (large_codec_run wrap p label
              (fun serialized =>
                 bind (decoder_call wrap Any dec (Some serialized))
                      (fun parsed => when (cond parsed) (console_log (args parsed)))))
    as (S1 & D1 & R1); [clock_free|].
  destruct (decoded_then_log_events wrap dec p cond args (tick (tick (tick s))))
    as (R2 & S2 & D2).
  rewrite S1, D1, S2, D2, R1, R2. auto.
Qed.

Lemma large_flatbuffers_test :
  let o := protocol clock "FlatBuffers (5MB)" 1 (ret tt)
             (fun _ => large_flatbuffers_serializing data)
             (fun _ => large_flatbuffers_deserializing) s in
  (List.length (serialized_payloads (evs o)) <= 1)%nat /\
  (List.length (deserialized_payloads (evs o)) <= 1)%nat /\
  match res o with
  | Some _ => List.length (serialized_payloads (evs o)) = 1%nat /\
              List.length (deserialized_payloads (evs o)) = 1%nat
  | None => forallb has_properties data <> true
  end.
Proof.
  cbv zeta. rewrite protocol_run; [|clock_free|clock_free|clock_free].
  unfold protocol_outcome. cbv zeta. cbn [ret res evs final app].
  destruct (large_flatbuffers_serializing_events data (tick s)) as (D1 & S1).
  cbv zeta in D1, S1.
  destruct (res (large_flatbuffers_serializing data (tick s))) as [v|] eqn:R1.
  - destruct (large_flatbuffers_deserializing_events v
                (tick (tick (final (large_flatbuffers_serializing data (tick s))))))
      as ([[] R2] & S2 & D2).
    cbv zeta in R2, S2, D2. rewrite R2. cbn [res evs].
    change (serialized_payloads (Now :: ?t)) with (serialized_payloads t).
    change (deserialized_payloads (Now :: ?t)) with (deserialized_payloads t).
    rewrite !serialized_payloads_app, !deserialized_payloads_app.
    change (serialized_payloads (Now :: ?t)) with (serialized_payloads t).
    change (deserialized_payloads (Now :: ?t)) with (deserialized_payloads t).
    change (serialized_payloads (Now :: ?t)) with (serialized_payloads t).
    change (deserialized_payloads (Now :: ?t)) with (deserialized_payloads t).
    rewrite !serialized_payloads_app, !deserialized_payloads_app.
    rewrite D1, S2. cbn [app]. rewrite !length_app, S1, D2. cbn. lia.
  - cbn [res evs].
    change (serialized_payloads (Now :: ?t)) with (serialized_payloads t).
    change (deserialized_payloads (Now :: ?t)) with (deserialized_payloads t).
    rewrite D1, S1. cbn. repeat split; try lia.
    intros Hall. destruct (large_flatbuffers_serializing_returns data (tick s) Hall) as [v Hv].
    congruence.
Qed.

End LargeRuns.

(** Claim C7.  Every test on the large data set ([testLargeJSON],
    [testLargeMessagePack], [testLargeFlatBuffers]) runs the same way
    whatever iteration count the profile is configured with, never makes
    more than one serialize call and one deserialize call, and when it
    returns a result it has made exactly one of each and the result's
    [iterations] field is 1.  It does return a result on every data set
    its codec accepts. *)
Theorem large_tests_run_once `{Externals} (f : test_function) (clock : nat -> number)
    (ITERATIONS : nat) (largeJsonData : list value) (s : State) :
  is_large f = true ->
  let o := run_test f clock ITERATIONS largeJsonData s in
  (forall N, run_test f clock N largeJsonData s = o) /\
  (List.length (serialized_payloads (evs o)) <= 1)%nat /\
  (List.length (deserialized_payloads (evs o)) <= 1)%nat /\
  match res o with
  | Some r =>
      iterations r = 1%nat /\
      List.length (serialized_payloads (evs o)) = 1%nat /\
      List.length (deserialized_payloads (evs o)) = 1%nat
  | None => ~ accepted f largeJsonData
  end.
Proof.
  intros L. cbv zeta. split; [destruct f; try discriminate; reflexivity|].
  pose proof (run_test_follows_protocol f ITERATIONS largeJsonData)
    as (X & A & setup & ser & de & F0 & F1 & F2 & E).
  pose proof (protocol_label (label_of f) (count_of f ITERATIONS) setup ser de F0 F1 F2
                clock s) as I.
  rewrite <- E in I. unfold count_of in I. rewrite L in I.
  destruct f; try discriminate; cbn [run_test accepted] in *.
  - rewrite WebLarge_testLargeJSON_protocol in *.
    unfold large_json_deserializing, parse_value, stringify_value in *.
    destruct (large_codec_test clock s Text (JSON_stringify_value (VArray largeJsonData))
                "JSON (5MB)" JSON_parse_value
                (fun parsed => array_length_or_0 parsed =? 0)
                (fun parsed => [VString "Large JSON sum:";
                                VNumber (of_Z (array_length_or_0 parsed))]))
      as (S1 & D1 & R1).
    cbv zeta in S1, D1, R1. rewrite S1, D1.
    repeat split; try lia.
    destruct (res _) as [r|]; [intuition|].
    intros Hacc. apply R1 in Hacc. destruct Hacc; discriminate.
  - rewrite WebLarge_testLargeMessagePack_protocol in *.
    unfold large_msgpack_deserializing, msgpack_decode_value, msgpack_encode_value in *.
    destruct (large_codec_test clock s Bytes (encode_value (VArray largeJsonData))
                "MessagePack (5MB)" decode_value
                (fun parsed => array_length_or_0 parsed =? 0)
                (fun parsed => [VString "Large MessagePack sum:";
                                VNumber (of_Z (array_length_or_0 parsed))]))
      as (S1 & D1 & R1).
    cbv zeta in S1, D1, R1. rewrite S1, D1.
    repeat split; try lia.
    destruct (res _) as [r|]; [intuition|].
    intros Hacc. apply R1 in Hacc. destruct Hacc; discriminate.
  - rewrite WebLarge_testLargeFlatBuffers_protocol in *.
    destruct (large_flatbuffers_test clock largeJsonData s) as (S1 & D1 & R1).
    cbv zeta in S1, D1, R1.
    repeat split; try assumption.
    destruct (res _) as [r|]; [intuition|exact R1].
Qed.


(** ** The runners *)
Section RunInOrder.
Variable show : list TestResult -> M unit.
Variable cards : list TestResult -> list card.
Hypothesis show_spec :
  forall l s, show l s = {| res := Some tt; evs := [Render l (cards l)]; final := s |}.

Lemma test_events_app t1 t2 : test_events (t1 ++ t2) = test_events t1 ++ test_events t2.
Proof. apply List.filter_app. Qed.

Lemma shown_results_app t1 t2 :
  shown_results (t1 ++ t2) = shown_results t1 ++ shown_results t2.
Proof. apply omap_app. Qed.

Lemma shown_cards_app t1 t2 : shown_cards (t1 ++ t2) = shown_cards t1 ++ shown_cards t2.
Proof. apply omap_app. Qed.

Lemma shown_cards_test_events t : Forall test_event t -> shown_cards t = [].
Proof.
  induction 1 as [|e t He _ IH]; [reflexivity|].
  destruct e; try contradiction; exact IH.
Qed.

Lemma test_events_all t : Forall test_event t -> test_events t = t.
Proof.
  induction 1 as [|e t He _ IH]; [reflexivity|].
  unfold test_events in *. cbn [List.filter].
  destruct e; try contradiction; cbn; now rewrite IH.
Qed.

Lemma shown_results_test_events t : Forall test_event t -> shown_results t = [].
Proof.
  induction 1 as [|e t He _ IH]; [reflexivity|].
  destruct e; try contradiction; exact IH.
Qed.

Lemma run_in_order_step test pause rest done s r :
  res (test s) = Some r -> quiet pause ->
  run_in_order show ((test, pause) :: rest) done s
  = after (evs (test s) ++ Render (done ++ [r]) (cards (done ++ [r]))
             :: evs (pause (final (test s))))
      (run_in_order show rest (done ++ [r]) (final (test s))).
Proof.
  intros R Hpause. cbn [run_in_order]. rewrite (bind_Some _ _ _ _ R).
  destruct (Hpause (final (test s))) as (Rp & Fp & _).
  assert (Es : res (show (done ++ [r]) (final (test s))) = Some tt)
    by now rewrite show_spec.
  rewrite (bind_Some _ _ _ _ Es), show_spec. cbn [evs final].
  rewrite (bind_Some _ _ _ _ Rp), Fp, !after_after, <- app_assoc. reflexivity.
Qed.

Lemma run_in_order_spec steps : forall done s,
  Forall (fun st => emits test_event (fst st) /\ quiet (snd st)) steps ->
  let o := run_in_order show steps done s in
  let outs := runs (map fst steps) s in
  let results := omap res outs in
  test_events (evs o) = concat (map evs outs) /\
  shown_results (evs o)
  = map (fun k => done ++ take k results) (seq 1 (List.length results)) /\
  (List.length results <= List.length steps)%nat /\
  (is_Some (res o) <-> List.length results = List.length steps).
Proof.
  induction steps as [|[test pause] rest IH]; intros done s Hsteps; cbv zeta.
  - cbn. repeat split; auto.
  - apply Forall_cons in Hsteps. destruct Hsteps as [[Htest Hpause] Hrest].
    cbn [fst snd] in Htest, Hpause. specialize (Htest s).
    cbn [map fst runs].
    destruct (res (test s)) as [r|] eqn:R.
    + rewrite (run_in_order_step _ _ _ _ _ _ R Hpause).
      destruct (Hpause (final (test s))) as (Rp & Fp & Tp & Sp & _).
      specialize (IH (done ++ [r]) (final (test s)) Hrest). cbv zeta in IH.
      destruct IH as (T & S & L & C).
      unfold after. cbn [res evs final].
      change (omap res (test s :: ?l)) with
        (match res (test s) with Some y => y :: omap res l | None => omap res l end).
      rewrite R. cbn [List.length concat map].
      rewrite !test_events_app, !shown_results_app.
      change (test_events (Render ?a ?b :: ?t)) with (test_events t).
      change (shown_results (Render ?a ?b :: ?t)) with (a :: shown_results t).
      rewrite (test_events_all _ Htest), (shown_results_test_events _ Htest).
      rewrite Tp, Sp, T, S. cbn [app].
      repeat split.
      * now rewrite app_nil_r.
      * cbn [seq]. rewrite <- (seq_shift _ 1). cbn [map take]. rewrite map_map. f_equal.
        apply map_ext. intros k. cbn [take]. now rewrite <- app_assoc.
      * lia.
      * intros Hs. apply C in Hs. lia.
      * intros Hl. apply C. lia.
    + cbn [run_in_order]. rewrite (bind_None _ _ _ R). cbn [res evs map concat].
      change (omap res [test s]) with
        (match res (test s) with Some y => [y] | None => [] end).
      rewrite R. cbn. rewrite app_nil_r.
      rewrite (test_events_all _ Htest), (shown_results_test_events _ Htest).
      repeat split; try lia; try reflexivity; intros [? ?]; discriminate.
Qed.

Lemma run_in_order_cards steps : forall done s,
  Forall (fun st => emits test_event (fst st) /\ quiet (snd st)) steps ->
  let o := run_in_order show steps done s in
  shown_cards (evs o) = map cards (shown_results (evs o)).
Proof.
  induction steps as [|[test pause] rest IH]; intros done s Hsteps; cbv zeta.
  - reflexivity.
  - apply Forall_cons in Hsteps. destruct Hsteps as [[Htest Hpause] Hrest].
    cbn [fst snd] in Htest, Hpause. specialize (Htest s).
    destruct (res (test s)) as [r|] eqn:R.
    + rewrite (run_in_order_step _ _ _ _ _ _ R Hpause).
      destruct (Hpause (final (test s))) as (_ & _ & _ & Sp & Cp).
      specialize (IH (done ++ [r]) (final (test s)) Hrest). cbv zeta in IH.
      unfold after. cbn [evs].
      rewrite !shown_cards_app, !shown_results_app.
      change (shown_cards (Render ?a ?b :: ?t)) with (b :: shown_cards t).
      change (shown_results (Render ?a ?b :: ?t)) with (a :: shown_results t).
      rewrite (shown_cards_test_events _ Htest), (shown_results_test_events _ Htest).
      rewrite Sp, Cp, IH. reflexivity.
    + cbn [run_in_order]. rewrite (bind_None _ _ _ R). cbn [evs].
      now rewrite (shown_cards_test_events _ Htest), (shown_results_test_events _ Htest).
Qed.

End RunInOrder.

Section Runners.
Context `{Externals}.
Variables (clock : nat -> number) (ITERATIONS : nat) (largeJsonData : list value).

Lemma emits_performance_now : emits test_event (performance_now clock).
Proof. intros s. repeat constructor. Qed.

Lemma emits_asUint8Array b : emits test_event (asUint8Array b).
Proof. intros s. repeat constructor. Qed.

Lemma emits_run_test f : emits test_event (run_test f clock ITERATIONS largeJsonData).
Proof.
  pose proof emits_performance_now. pose proof emits_asUint8Array.
  destruct f; cbn [run_test];
    unfold WebLarge.testMessagePack, WebLarge.testFlatBuffers,
      NativeLowLevel.testJSON, NativeLowLevel.testMessagePack.
  all: emits.
Qed.

(** Label and iteration count of the result of each test. *)
Lemma result_label f s r :
  res (run_test f clock ITERATIONS largeJsonData s) = Some r ->
  format r = label_of f /\ iterations r = count_of f ITERATIONS.
Proof.
  intros R.
  destruct (run_test_follows_protocol f ITERATIONS largeJsonData)
    as (X & A & setup & ser & de & F0 & F1 & F2 & E).
  pose proof (protocol_label (label_of f) (count_of f ITERATIONS) setup ser de F0 F1 F2
                clock s) as I.
  rewrite <- E, R in I. exact I.
Qed.

Lemma runs_labels fs : forall s,
  map format (omap res (runs (map (fun f => run_test f clock ITERATIONS largeJsonData) fs) s))
  `prefix_of` map label_of fs.
Proof.
  induction fs as [|f fs IH]; intros s; cbn [map runs].
  - reflexivity.
  - change (omap res (?o :: ?l)) with
      (match res o with Some y => y :: omap res l | None => omap res l end).
    destruct (res (run_test f clock ITERATIONS largeJsonData s)) as [r|] eqn:R.
    + cbn [map]. destruct (result_label f s r R) as [-> _].
      apply prefix_cons, IH.
    + apply prefix_nil.
Qed.


Lemma quiet_ret : quiet (ret tt).
Proof. intros s. now cbn. Qed.

Lemma quiet_sleep ms : quiet (sleep ms).
Proof. intros s. now cbn. Qed.

Lemma quiet_bind (p q : M unit) : quiet p -> quiet q -> quiet (p ;;; q).
Proof.
  intros Hp Hq s. destruct (Hp s) as (Rp & Fp & Tp & Sp & Cp).
  rewrite (bind_Some _ _ _ _ Rp), Fp. destruct (Hq s) as (Rq & Fq & Tq & Sq & Cq).
  unfold after. cbn [res evs final].
  rewrite test_events_app, shown_results_app, shown_cards_app, Tp, Tq, Sp, Sq, Cp, Cq.
  auto.
Qed.

Lemma Web_runAllTests_in_order s :
  Web.runAllTests clock ITERATIONS s
  = (emit (Ui (ButtonDisabled true)) ;;;
     emit (Ui (ButtonText "Running Tests...")) ;;;
     emit (Ui (ResultsDisplay "none")) ;;;
     emit (Render [] []) ;;;
     run_in_order (Web.updateResults)
       [(Web.testJSON clock ITERATIONS, sleep 100);
        (Web.testMessagePack clock ITERATIONS, sleep 100);
        (Web.testFlatBuffers clock ITERATIONS, ret tt)] [] ;;;
     emit (Ui (ButtonDisabled false)) ;;;
     emit (Ui (ButtonText "Run Performance Tests")) ;;;
     emit (Ui (ResultsDisplay "block"))) s.
Proof. unfold Web.runAllTests. cbn [run_in_order app]. same_chain. Qed.

Lemma WebLarge_runAllTests_in_order s :
  WebLarge.runAllTests clock ITERATIONS largeJsonData s
  = (emit (Ui (ButtonDisabled true)) ;;;
     emit (Ui (ButtonText "Running Tests...")) ;;;
     emit (Ui (ResultsDisplay "none")) ;;;
     emit (Render [] []) ;;;
     run_in_order (WebLarge.updateResults)
       [(WebLarge.testJSON clock ITERATIONS, sleep 100);
        (WebLarge.testMessagePack clock ITERATIONS, (sleep 100 ;;; sleep 100));
        (WebLarge.testFlatBuffers clock ITERATIONS, sleep 100);
        (WebLarge.testAvro clock ITERATIONS, sleep 100);
        (WebLarge.testLargeJSON clock largeJsonData, sleep 100);
        (WebLarge.testLargeMessagePack clock largeJsonData, sleep 100);
        (WebLarge.testLargeFlatBuffers clock largeJsonData, ret tt)] [] ;;;
     emit (Ui (ButtonDisabled false)) ;;;
     emit (Ui (ButtonText "Run Performance Tests")) ;;;
     emit (Ui (ResultsDisplay "block"))) s.
Proof. unfold WebLarge.runAllTests. cbn [run_in_order app]. same_chain. Qed.

Lemma Native_runAllTests_with_in_order testFlatBuffers s :
  Native.runAllTests_with clock ITERATIONS testFlatBuffers s
  = (Native.setIsRunning true ;;;
     Native.setResults [] ;;;
     run_in_order (Native.setResults)
       [(Native.testJSON clock ITERATIONS, sleep 100);
        (Native.testMessagePack clock ITERATIONS, sleep 100);
        (testFlatBuffers, ret tt)] [] ;;;
     Native.setIsRunning false) s.
Proof. unfold Native.runAllTests_with. cbn [run_in_order app]. same_chain. Qed.

End Runners.

Section RunnerFrames.
Context `{Externals}.

Lemma emit_then {B} e (k : M B) s : bind (emit e) (fun _ => k) s = after [e] (k s).
Proof. reflexivity. Qed.

Lemma prefix_is_take {A} (l d : list A) : l `prefix_of` d -> l = take (List.length l) d.
Proof. intros [k ->]. now rewrite take_app_length. Qed.

(** A runner: what it does before its tests, the tests, what it does
    after them. *)
Lemma runner_spec (hs fs : list event) (footer : M unit)
    (show : list TestResult -> M unit) (cards : list TestResult -> list card)
    (steps : list (M TestResult * M unit)) s :
  (forall l s, show l s = {| res := Some tt; evs := [Render l (cards l)]; final := s |}) ->
  Forall (fun st => emits test_event (fst st) /\ quiet (snd st)) steps ->
  (forall s', footer s' = {| res := Some tt; evs := fs; final := s' |}) ->
  test_events hs = [] -> shown_results hs = [[]] -> shown_cards hs = [cards []] ->
  test_events fs = [] -> shown_results fs = [] -> shown_cards fs = [] ->
  let o := after hs (bind (run_in_order show steps []) (fun _ => footer) s) in
  let outs := runs (map fst steps) s in
  let results := omap res outs in
  test_events (evs o) = concat (map evs outs) /\
  shown_results (evs o)
  = map (fun k => take k results) (seq 0 (S (List.length results))) /\
  shown_cards (evs o) = map cards (shown_results (evs o)) /\
  (List.length results <= List.length steps)%nat /\
  (is_Some (res o) <-> List.length results = List.length steps).
Proof.
  intros Hshow Hsteps Hfooter Th Sh Ch Tf Sf Cf. cbv zeta.
  destruct (run_in_order_spec show cards Hshow steps [] s Hsteps) as (T & S & L & C).
  pose proof (run_in_order_cards show cards Hshow steps [] s Hsteps) as K.
  cbv zeta in T, S, L, C, K. cbn [app] in S.
  unfold after, bind. cbn [res evs final].
  destruct (res (run_in_order show steps [] s)) as [all|] eqn:R;
    rewrite ?Hfooter; cbn [res evs final];
    rewrite !test_events_app, !shown_results_app, !shown_cards_app,
      ?Th, ?Sh, ?Ch, ?Tf, ?Sf, ?Cf, T, K, S;
    cbn [app seq map take]; rewrite ?app_nil_r.
  - repeat split; auto. intros _. apply C. eexists; reflexivity.
  - repeat split; auto.
    + intros [? ?]; discriminate.
    + intros E. apply C in E. destruct E; discriminate.
Qed.

(** The four runners. *)
Lemma run_all_spec (r : runner) (clock : nat -> number)
    (ITERATIONS : nat) (largeJsonData : list value) (s : State) :
  let o := run_all r clock ITERATIONS largeJsonData s in
  let outs :=
    runs (map (fun f => run_test f clock ITERATIONS largeJsonData) (tests_of r)) s in
  let results := omap res outs in
  test_events (evs o) = concat (map evs outs) /\
  shown_results (evs o)
  = map (fun k => take k results) (seq 0 (S (List.length results))) /\
  shown_cards (evs o) = map (cards_of r) (shown_results (evs o)) /\
  (List.length results <= List.length (tests_of r))%nat /\
  (is_Some (res o) <-> List.length results = List.length (tests_of r)).
Proof.
  cbv zeta.
  pose proof (emits_run_test clock ITERATIONS largeJsonData) as Ht.
  pose proof quiet_ret as Q0. pose proof (quiet_sleep 100) as Q1.
  pose proof (quiet_bind _ _ Q1 Q1) as Q2.
  destruct r; cbn [run_all tests_of].
  - rewrite Web_runAllTests_in_order, !emit_then, !after_after. cbn [app].
    match goal with
    | |- context [after ?hs (bind (run_in_order ?show ?steps []) (fun _ => ?footer) s)] =>
        apply (runner_spec hs
                 [Ui (ButtonDisabled false); Ui (ButtonText "Run Performance Tests");
                  Ui (ResultsDisplay "block")]
                 footer show (cards_of Web_runAllTests) steps s);
          try reflexivity
    end.
    repeat (apply Forall_cons_2;
            [split; cbn [fst snd];
             [first [ apply (Ht Web_testJSON) | apply (Ht Web_testMessagePack)
                    | apply (Ht Web_testFlatBuffers) ]
             |first [exact Q0|exact Q1|exact Q2]]|]).
    apply Forall_nil_2.
  - rewrite WebLarge_runAllTests_in_order, !emit_then, !after_after. cbn [app].
    match goal with
    | |- context [after ?hs (bind (run_in_order ?show ?steps []) (fun _ => ?footer) s)] =>
        apply (runner_spec hs
                 [Ui (ButtonDisabled false); Ui (ButtonText "Run Performance Tests");
                  Ui (ResultsDisplay "block")]
                 footer show (cards_of WebLarge_runAllTests) steps s);
          try reflexivity
    end.
    repeat (apply Forall_cons_2;
            [split; cbn [fst snd];
             [first [ apply (Ht WebLarge_testJSON) | apply (Ht WebLarge_testMessagePack)
                    | apply (Ht WebLarge_testFlatBuffers) | apply (Ht WebLarge_testAvro)
                    | apply (Ht WebLarge_testLargeJSON)
                    | apply (Ht WebLarge_testLargeMessagePack)
                    | apply (Ht WebLarge_testLargeFlatBuffers) ]
             |first [exact Q0|exact Q1|exact Q2]]|]).
    apply Forall_nil_2.
  - unfold Native.runAllTests.
    rewrite Native_runAllTests_with_in_order. unfold Native.setIsRunning at 1.
    unfold Native.setResults at 1. rewrite !emit_then, !after_after. cbn [app].
    match goal with
    | |- context [after ?hs (bind (run_in_order ?show ?steps []) (fun _ => ?footer) s)] =>
        apply (runner_spec hs [Ui (IsRunning false)] footer show
                 (cards_of Native_runAllTests) steps s);
          try reflexivity
    end.
    repeat (apply Forall_cons_2;
            [split; cbn [fst snd];
             [first [ apply (Ht Native_testJSON) | apply (Ht Native_testMessagePack)
                    | apply (Ht Native_testFlatBuffers) ]
             |first [exact Q0|exact Q1|exact Q2]]|]).
    apply Forall_nil_2.
  - unfold NativeLowLevel.runAllTests.
    rewrite Native_runAllTests_with_in_order. unfold Native.setIsRunning at 1.
    unfold Native.setResults at 1. rewrite !emit_then, !after_after. cbn [app].
    match goal with
    | |- context [after ?hs (bind (run_in_order ?show ?steps []) (fun _ => ?footer) s)] =>
        apply (runner_spec hs [Ui (IsRunning false)] footer show
                 (cards_of NativeLowLevel_runAllTests) steps s);
          try reflexivity
    end.
    repeat (apply Forall_cons_2;
            [split; cbn [fst snd];
             [first [ apply (Ht NativeLowLevel_testJSON)
                    | apply (Ht NativeLowLevel_testMessagePack)
                    | apply (Ht NativeLowLevel_testFlatBuffers) ]
             |first [exact Q0|exact Q1|exact Q2]]|]).
    apply Forall_nil_2.
Qed.

Lemma labels_in_declared_order r :
  map label_of (tests_of r) = take (List.length (tests_of r)) declared_order.
Proof. destruct r; reflexivity. Qed.

End RunnerFrames.

(** Claim C6.  Each of the four [runAllTests] runs its tests one at a time
    in the order JSON, MessagePack, FlatBuffers, then (second web revision)
    Avro and the three tests on the large data set: the events of tests in
    its trace are the traces of the tests run one after the other, each
    from the state the one before left, up to the first that raises.  The
    result lists it shows are, in order, the empty list and then the
    results completed so far after each test, in execution order; their
    labels follow the declared order.  The run returns exactly when every
    test returned. *)
Theorem runner_keeps_declared_order `{Externals} (r : runner) (clock : nat -> number)
    (ITERATIONS : nat) (largeJsonData : list value) (s : State) :
  let o := run_all r clock ITERATIONS largeJsonData s in
  let outs :=
    runs (map (fun f => run_test f clock ITERATIONS largeJsonData) (tests_of r)) s in
  let results := omap res outs in
  test_events (evs o) = concat (map evs outs) /\
  shown_results (evs o)
  = map (fun k => take k results) (seq 0 (S (List.length results))) /\
  map format results = take (List.length results) declared_order /\
  (List.length results <= List.length (tests_of r))%nat /\
  (is_Some (res o) <-> List.length results = List.length (tests_of r)).
Proof.
  cbv zeta.
  destruct (run_all_spec r clock ITERATIONS largeJsonData s) as (T & S & _ & L & C).
  cbv zeta in T, S, L, C. repeat split; try assumption; try apply C.
  pose proof (runs_labels clock ITERATIONS largeJsonData (tests_of r) s) as P.
  rewrite labels_in_declared_order in P.
  rewrite <- (length_map format). apply prefix_is_take.
  etransitivity; [exact P|]. apply prefix_take.
Qed.

(** ** The reporter *)
Section Reporter.
Context `{Externals}.






End Reporter.


(** ** Diagnostics of the checked tests *)
Section Includes.

Lemma prefix_append p t : String.prefix p (p ++ t) = true.
Proof.
  induction p as [|c p IH]; cbn.
  - now destruct t.
  - destruct (ascii_dec c c) as [_|N]; [exact IH|now destruct N].
Qed.

Lemma prefix_append_l p : forall a t,
  String.prefix p a = true -> String.prefix p (a ++ t) = true.
Proof.
  induction p as [|c p IH]; intros a t Hp; cbn in *.
  - now destruct (a ++ t)%string.
  - destruct a as [|d a]; [discriminate|]. cbn in *.
    destruct (ascii_dec c d); [now apply IH|discriminate].
Qed.

Lemma includes_prefix p h : String.prefix p h = true -> includes p h = true.
Proof. intros Hp. destruct h; cbn in *; rewrite Hp; reflexivity. Qed.

Lemma includes_append_r p a t : includes p t = true -> includes p (a ++ t) = true.
Proof.
  intros Ht. induction a as [|c a IH]; [exact Ht|].
  cbn [append includes]. rewrite IH. apply orb_true_r.
Qed.

Lemma includes_append_l p a t : includes p a = true -> includes p (a ++ t) = true.
Proof.
  induction a as [|c a IH]; intros Ha.
  - cbn in Ha. rewrite orb_false_r in Ha. apply includes_prefix.
    now apply (prefix_append_l p "" t).
  - cbn [includes] in Ha. apply orb_true_iff in Ha. destruct Ha as [Ha|Ha].
    + apply includes_prefix. now apply prefix_append_l.
    + cbn [append includes]. rewrite (IH Ha). apply orb_true_r.
Qed.

Lemma includes_here p t : includes p (p ++ t) = true.
Proof. apply includes_prefix, prefix_append. Qed.

End Includes.

Section Diagnostics.
Context `{Externals}.

Lemma table_warnings_give i foo fooNumber :
  Forall (fun w => gives i "bar" (show_nullable foo) w = true \/
                   gives i (show_nat i) (show_Z fooNumber) w = true)
    (table_warnings i foo fooNumber) /\
  (differs foo "bar" = true ->
   Exists (fun w => gives i "bar" (show_nullable foo) w = true)
     (table_warnings i foo fooNumber)) /\
  (fooNumber <> Z.of_nat i ->
   Exists (fun w => gives i (show_nat i) (show_Z fooNumber) w = true)
     (table_warnings i foo fooNumber)).
Proof.
  assert (G1 : gives i "bar" (show_nullable foo)
                 ("FlatBuffers string mismatch at iteration " ++ show_nat i
                  ++ ": expected 'bar', got '" ++ show_nullable foo ++ "'") = true).
  { unfold gives, names. repeat (apply andb_true_intro; split).
    - apply (includes_here "FlatBuffers").
    - apply includes_append_r, includes_here.
    - do 2 apply includes_append_r. now apply includes_append_l.
    - do 3 apply includes_append_r. apply includes_here. }
  assert (G2 : gives i (show_nat i) (show_Z fooNumber)
                 ("FlatBuffers number mismatch at iteration " ++ show_nat i
                  ++ ": expected " ++ show_nat i ++ ", got " ++ show_Z fooNumber) = true).
  { unfold gives, names. repeat (apply andb_true_intro; split).
    - apply (includes_here "FlatBuffers").
    - apply includes_append_r, includes_here.
    - apply includes_append_r, includes_here.
    - do 5 apply includes_append_r. apply includes_prefix.
      rewrite <- (prefix_append (show_Z fooNumber) "") at 1.
      f_equal. clear. induction (show_Z fooNumber); cbn; congruence. }
  unfold table_warnings. repeat split.
  - apply Forall_app. split.
    + destruct (differs foo "bar"); constructor; [left; exact G1|constructor].
    + destruct (negb _); constructor; [right; exact G2|constructor].
  - intros ->. apply Exists_app. left. constructor. exact G1.
  - intros Hn. apply Exists_app. right.
    destruct (Z.eqb_spec fooNumber (Z.of_nat i)) as [E|_]; [contradiction|].
    constructor. exact G2.
Qed.

Lemma lowlevel_warnings_give i buf length :
  Forall (fun w =>
            names i w = true /\
            (w = ("FlatBuffers string length mismatch at iteration " ++ show_nat i)%string \/
             exists actual, actual <> Z.of_nat i /\
                            gives i (show_nat i) (show_Z actual) w = true))
    (lowlevel_warnings i buf length).
Proof.
  unfold lowlevel_warnings. cbv zeta. apply Forall_app. split.
  - destruct (_ && _ && _); constructor; [|constructor].
    split; [|now left].
    unfold names. apply andb_true_intro. split.
    + apply (includes_here "FlatBuffers").
    + apply includes_append_r, includes_prefix.
      rewrite <- (prefix_append (show_nat i) "") at 1.
      f_equal. clear. induction (show_nat i); cbn; congruence.
  - match goal with
    | |- context [ByteBuffer_readInt32 buf ?o =? Z.of_nat i] =>
        set (numberValue := ByteBuffer_readInt32 buf o)
    end.
    destruct (negb (_ =? 0)); cbn [andb]; [|constructor].
    destruct (Z.eqb_spec numberValue (Z.of_nat i)) as [E|N]; cbn [negb];
      [constructor|].
    constructor; [|constructor]. split.
    + unfold names. apply andb_true_intro. split.
      * apply (includes_here "FlatBuffers").
      * apply includes_append_r, includes_here.
    + right. exists numberValue. split; [exact N|].
      unfold gives, names. repeat (apply andb_true_intro; split).
      * apply (includes_here "FlatBuffers").
      * apply includes_append_r, includes_here.
      * apply includes_append_r, includes_here.
      * do 5 apply includes_append_r. apply includes_prefix.
        rewrite <- (prefix_append (show_Z numberValue) "") at 1.
        f_equal. clear. induction (show_Z numberValue); cbn; congruence.
Qed.

End Diagnostics.

(** The two [testFlatBuffers] of [SerializationTest.tsx] check what they
    decode.  Whatever the decoded values are, the test returns its
    complete result and the deserializing loop visits all [N] payloads;
    the warnings of the run are, iteration by iteration, the diagnostics
    of the mismatches found.  With the generated accessors, a string that
    is not ['bar'] and a number that is not [i] each get a diagnostic
    naming the format and the iteration and giving the expected and the
    actual value.  With the table read by hand, every diagnostic names
    the format and the iteration; the number diagnostic gives the
    expected and the actual value, the string length diagnostic is the
    fixed text followed by the iteration. *)
Lemma checks_are_not_fatal `{Externals} (by_hand : bool)
    (clock : nat -> number) (N : nat) (s : State) :
  let o := checked_test by_hand clock N s in
  let payloads := checked_payloads by_hand N in
  res o = Some (result_at clock "FlatBuffers" N (ticks s)) /\
  List.length payloads = N /\
  deserialized_payloads (evs o) = map Bytes payloads /\
  warnings (evs o)
  = concat (map (fun i => diagnostics_at by_hand i (default [] (payloads !! i)))
                (seq 0 N)) /\
  forall i buf,
    if by_hand
    then
      Forall (fun w =>
                names i w = true /\
                (w = ("FlatBuffers string length mismatch at iteration "
                      ++ show_nat i)%string \/
                 exists actual, actual <> Z.of_nat i /\
                                gives i (show_nat i) (show_Z actual) w = true))
        (diagnostics_at true i buf)
    else
      Forall (fun w =>
                gives i "bar" (show_nullable (TestData_foo buf)) w = true \/
                gives i (show_nat i) (show_Z (TestData_fooNumber buf)) w = true)
        (diagnostics_at false i buf) /\
      (differs (TestData_foo buf) "bar" = true ->
       Exists (fun w => gives i "bar" (show_nullable (TestData_foo buf)) w = true)
         (diagnostics_at false i buf)) /\
      (TestData_fooNumber buf <> Z.of_nat i ->
       Exists (fun w => gives i (show_nat i) (show_Z (TestData_fooNumber buf)) w = true)
         (diagnostics_at false i buf)).
Proof.
  cbv zeta.
  assert (R : flatbuffers_run (checked_test by_hand clock N s)
                (result_at clock "FlatBuffers" N (ticks s)) N
                (checked_payloads by_hand N)
                (if by_hand then fun _ => Raw
                 else fun b => Table (TestData_foo b) (TestData_fooNumber b))
                (concat (map (fun i => diagnostics_at by_hand i
                                         (default [] (checked_payloads by_hand N !! i)))
                             (seq 0 N)))).
  { destruct by_hand; [apply NativeLowLevel_testFlatBuffers_run
                      |apply Native_testFlatBuffers_run]. }
  destruct R as (Rr & Rl & Rs & _ & Rw).
  destruct (separated_payloads _ _ Rs) as [_ Rd]; [rewrite Rr; eexists; reflexivity|].
  repeat split; try assumption.
  intros i buf. destruct by_hand.
  - apply lowlevel_warnings_give.
  - apply table_warnings_give.
Qed.

(** ** The hand-written reader on tables in FlatBuffers layout *)
Section ByHand.
Context `{Externals}.

Lemma warnings_of_reading i buf length :
  lowlevel_warnings i buf length = reading_warnings i (read_by_hand buf length).
Proof.
  unfold lowlevel_warnings, reading_warnings, read_by_hand.
  cbv zeta. cbn [stringLength numberValue].
  destruct (negb (ByteBuffer_readInt16 _ _ =? 0)); cbn [andb];
    [destruct (negb (ByteBuffer_readInt32 _ _ =? 0)); cbn [andb]|];
    destruct (negb (ByteBuffer_readInt16 _ _ =? 0)); cbn [andb]; reflexivity.
Qed.

End ByHand.

Section WireTables.
Variable createString : value -> Wire.builder -> Wire.builder * Z.
Variable addFieldInt32 : Z -> Z -> Z -> Wire.builder -> Wire.builder.

(** The generated [createTestData] makes the builder calls the low-level
    test makes itself. *)
Lemma wire_same_tables i :
  @fresh_table (Wire.externals_with createString addFieldInt32) i
  = @fresh_by_hand (Wire.externals_with createString addFieldInt32) i.
Proof. reflexivity. Qed.

End WireTables.

Lemma wire_table_by_hand i :
  let buf := @written Wire.externals (@fresh_by_hand Wire.externals i) in
  Wire.foo buf = Some "bar" /\
  root (@read_by_hand Wire.externals buf (List.length buf)) = 7496034 /\
  no_field_read (@read_by_hand Wire.externals buf (List.length buf)).
Proof.
  cbv zeta. destruct i as [|i]; vm_compute; repeat split.
Qed.

Lemma wire_table_silent i :
  let buf := @written Wire.externals (@fresh_by_hand Wire.externals i) in
  @lowlevel_warnings Wire.externals i buf (List.length buf) = [].
Proof.
  cbv zeta. rewrite (@warnings_of_reading Wire.externals).
  destruct (wire_table_by_hand i) as (_ & _ & _ & _ & SL & NV).
  unfold reading_warnings. cbv zeta in SL, NV. now rewrite SL, NV.
Qed.

(** C3.  The round trip fails in the FlatBuffers test of the low-level
    revision of [SerializationTest.tsx].  With the library as it lays
    tables out, for every iteration count [N]: the test returns its
    result, and the [N] payloads it serializes and then deserializes are
    the tables of the fixtures (read from the first four bytes on, as
    [getRootAsTestData] reads, each gives "bar", and for the
    [ITERATIONS = 1000] of the source the number of payload [i] is [i]).
    But its deserializing loop takes the root from the last four bytes of
    the payload, where the string ends: "bar" and the terminating 0,
    which read as 7496034.  Every read from there on is outside the
    payload and gives 0: both field offsets are 0, neither the string nor
    the number is read or compared with the fixture, and no warning is
    emitted.  The table of fixture 7 is [Wire.table_7]. *)
Theorem reader_by_hand_reaches_no_field (clock : nat -> number) (N : nat) (s : State) :
  let o := @NativeLowLevel.testFlatBuffers Wire.externals clock N s in
  let tables := @lowlevel_payloads Wire.externals N in
  res o = Some (result_at clock "FlatBuffers" N (ticks s)) /\
  List.length tables = N /\
  serialized_payloads (evs o) = map Bytes tables /\
  deserialized_payloads (evs o) = map Bytes tables /\
  warnings (evs o) = [] /\
  Forall (fun buf =>
            Wire.foo buf = Some "bar" /\
            root (@read_by_hand Wire.externals buf (List.length buf)) = 7496034 /\
            no_field_read (@read_by_hand Wire.externals buf (List.length buf)))
         tables /\
  map Wire.fooNumber (@lowlevel_payloads Wire.externals NativeLowLevel.ITERATIONS)
  = map Z.of_nat (seq 0 NativeLowLevel.ITERATIONS) /\
  @lowlevel_payloads Wire.externals 8 !! 7%nat = Some Wire.table_7.
Proof.
  cbv zeta.
  destruct (@NativeLowLevel_testFlatBuffers_run Wire.externals clock N s)
    as (R & L & Sep & _ & W).
  destruct (separated_payloads _ _ Sep) as (S1 & D1); [rewrite R; eexists; reflexivity|].
  split; [exact R|]. split; [exact L|]. split; [exact S1|]. split; [exact D1|].
  split; [|split; [|split]].
  - rewrite W. rewrite (map_ext_in _ (fun _ => [])); [apply concat_nils|].
    intros i Hi. apply in_seq in Hi. cbv zeta.
    unfold lowlevel_payloads. rewrite list_lookup_fmap, lookup_seq_lt by lia.
    exact (wire_table_silent i).
  - unfold lowlevel_payloads. apply Forall_map, Forall_forall. intros i _.
    apply wire_table_by_hand.
  - vm_compute. reflexivity.
  - vm_compute. reflexivity.
Qed.

(** C8.  Mismatches that are missed, or reported without the values.
    Two encoders with a defect, both writing tables laid out as the
    library lays them out.  The first writes every number one too large
    (three iterations): the test of the first revision of
    [SerializationTest.tsx], which reads through the generated accessors,
    decodes 1, 2 and 3, emits for each iteration the warning with the
    format, the iteration, the expected and the actual number, and
    returns its result; the test of the low-level revision is given the
    same payloads, takes 7496034 for the root of each, reaches no field,
    emits no warning at all, and returns its result.  The second writes
    a string of five bytes that ends with the byte 12 where "bar" is
    asked for (two iterations): the last four bytes of the payload then
    read as 12, where the table is, and the hand-written reader finds the
    string of length 5; its warning is the fixed text followed by the
    iteration, without the expected or the actual length, where the
    generated-accessor test gives both strings.  At iteration 0, whose
    table has no number field, the hand-written reader also takes what
    follows the shorter vtable for the place of the number and warns of
    a number 327680. *)
Theorem mismatch_missed_or_bare_by_hand :
  let generated :=
    @Native.testFlatBuffers Wire.miscounting StandIn.clock 3 StandIn.start in
  let by_hand :=
    @NativeLowLevel.testFlatBuffers Wire.miscounting StandIn.clock 3 StandIn.start in
  let generated' :=
    @Native.testFlatBuffers Wire.misspelling StandIn.clock 2 StandIn.start in
  let by_hand' :=
    @NativeLowLevel.testFlatBuffers Wire.misspelling StandIn.clock 2 StandIn.start in
  (deserialized_payloads (evs by_hand) = deserialized_payloads (evs generated) /\
   decoded_values (evs generated)
   = [Table (Some "bar") 1; Table (Some "bar") 2; Table (Some "bar") 3] /\
   warnings (evs generated)
   = ["FlatBuffers number mismatch at iteration 0: expected 0, got 1";
      "FlatBuffers number mismatch at iteration 1: expected 1, got 2";
      "FlatBuffers number mismatch at iteration 2: expected 2, got 3"] /\
   res generated = Some (result_at StandIn.clock "FlatBuffers" 3 0) /\
   map (fun buf => @read_by_hand Wire.miscounting buf (List.length buf))
       (@lowlevel_payloads Wire.miscounting 3)
   = replicate 3 {| root := 7496034; field0Offset := 0; field1Offset := 0;
                    stringLength := None; numberValue := None |} /\
   warnings (evs by_hand) = [] /\
   res by_hand = Some (result_at StandIn.clock "FlatBuffers" 3 0)) /\
  (deserialized_payloads (evs by_hand') = deserialized_payloads (evs generated') /\
   decoded_values (evs generated')
   = [Table (Some Wire.wrong_string) 0; Table (Some Wire.wrong_string) 1] /\
   warnings (evs generated')
   = [("FlatBuffers string mismatch at iteration 0: expected 'bar', got '"
       ++ Wire.wrong_string ++ "'")%string;
      ("FlatBuffers string mismatch at iteration 1: expected 'bar', got '"
       ++ Wire.wrong_string ++ "'")%string] /\
   res generated' = Some (result_at StandIn.clock "FlatBuffers" 2 0) /\
   map (fun buf => @read_by_hand Wire.misspelling buf (List.length buf))
       (@lowlevel_payloads Wire.misspelling 2)
   = [{| root := 12; field0Offset := 4; field1Offset := 6;
         stringLength := Some 5; numberValue := Some 327680 |};
      {| root := 12; field0Offset := 8; field1Offset := 4;
         stringLength := Some 5; numberValue := Some 1 |}] /\
   warnings (evs by_hand')
   = ["FlatBuffers string length mismatch at iteration 0";
      "FlatBuffers number mismatch at iteration 0: expected 0, got 327680";
      "FlatBuffers string length mismatch at iteration 1"] /\
   res by_hand' = Some (result_at StandIn.clock "FlatBuffers" 2 0)).
Proof. vm_compute. repeat split. Qed.

(** * The theorems on the stand-in libraries *)

Lemma StandIn_clock_finite : finite_readings StandIn.clock.
Proof. intros i. do 5 (destruct i as [|i]; [reflexivity|]). reflexivity. Defined.

Lemma StandIn_clock_monotone : monotone StandIn.clock.
Proof. intros i. do 5 (destruct i as [|i]; [reflexivity|]). reflexivity. Defined.

Lemma measured_times_nonneg_on_StandIn :
  finite_readings StandIn.clock /\ monotone StandIn.clock /\
  match res (@run_test StandIn.externals WebLarge_testAvro StandIn.clock 3 []
               StandIn.start) with
  | Some r =>
      serializeTime r = sub (StandIn.clock 1) (StandIn.clock 0) /\
      deserializeTime r = sub (StandIn.clock 3) (StandIn.clock 2) /\
      nonneg (serializeTime r) = true /\
      nonneg (deserializeTime r) = true
  | None => True
  end.
Proof.
  split; [exact StandIn_clock_finite|]. split; [exact StandIn_clock_monotone|].
  exact (@measured_times_nonneg StandIn.externals WebLarge_testAvro StandIn.clock 3 []
           StandIn.start StandIn_clock_finite StandIn_clock_monotone).
Defined.

Lemma payloads_held_when_deserializing_begins_on_StandIn :
  is_large Native_testJSON = false /\
  let P := @passes_of StandIn.externals Native_testJSON 3 [] in
  (forall clock' s',
     @run_test StandIn.externals Native_testJSON clock' 3 [] s'
     = protocol clock' "JSON" 3 (pass_setup P) (pass_serializing P)
         (pass_deserializing P) s') /\
  List.length (@payloads_of StandIn.externals Native_testJSON 3) = 3%nat /\
  held_before_deserializing P (@payloads_of StandIn.externals Native_testJSON 3)
    StandIn.start
    (@run_test StandIn.externals Native_testJSON StandIn.clock 3 [] StandIn.start).
Proof.
  split; [reflexivity|].
  exact (@payloads_held_when_deserializing_begins StandIn.externals Native_testJSON
           StandIn.clock 3 [] StandIn.start eq_refl).
Defined.

Lemma StandIn_round_trips : @round_trips StandIn.externals WebLarge_testJSON 3.
Proof.
  intros i Hi. destruct i as [|[|[|i]]]; [reflexivity|reflexivity|reflexivity|lia].
Defined.

Lemma large_tests_run_once_on_StandIn :
  is_large WebLarge_testLargeJSON = true /\
  let data := [VString "Ada"; VString "Grace"] in
  let o := @run_test StandIn.externals WebLarge_testLargeJSON StandIn.clock WebLarge.ITERATIONS data
             StandIn.start in
  (forall N, @run_test StandIn.externals WebLarge_testLargeJSON StandIn.clock N data
               StandIn.start = o) /\
  (List.length (serialized_payloads (evs o)) <= 1)%nat /\
  (List.length (deserialized_payloads (evs o)) <= 1)%nat /\
  match res o with
  | Some r =>
      iterations r = 1%nat /\
      List.length (serialized_payloads (evs o)) = 1%nat /\
      List.length (deserialized_payloads (evs o)) = 1%nat
  | None => ~ @accepted StandIn.externals WebLarge_testLargeJSON data
  end.
Proof.
  split; [reflexivity|].
  exact (@large_tests_run_once StandIn.externals WebLarge_testLargeJSON StandIn.clock
           WebLarge.ITERATIONS [VString "Ada"; VString "Grace"] StandIn.start eq_refl).
Defined.


Lemma StandIn_number_built i st :
  (i < 3)%nat ->
  @TestData_fooNumber StandIn.externals
    (@written StandIn.externals
       (@finished_table StandIn.externals i (@Builder_clear StandIn.externals st)))
  = Z.of_nat i.
Proof.
  intros Hi. destruct i as [|[|[|i]]]; [reflexivity|reflexivity|reflexivity|lia].
Defined.

Lemma web_flatbuffers_payloads_are_copies_on_StandIn :
  (forall i st, (i < 3)%nat ->
     @TestData_fooNumber StandIn.externals
       (@written StandIn.externals
          (@finished_table StandIn.externals i (@Builder_clear StandIn.externals st)))
     = Z.of_nat i) /\
  let o := @Web.testFlatBuffers StandIn.externals StandIn.clock 3 StandIn.start in
  is_Some (res o) /\
  List.length (serialized_payloads (evs o)) = 3%nat /\
  deserialized_payloads (evs o) = serialized_payloads (evs o) /\
  map (fun d => snd <$> fields_of d) (decoded_values (evs o))
  = map (fun i => Some (Z.of_nat i)) (seq 0 3).
Proof.
  split; [exact StandIn_number_built|].
  destruct (@web_flatbuffers_payloads_are_copies StandIn.externals StandIn.clock 3
              StandIn.start StandIn_number_built) as (R & L & D & V & _).
  exact (conj R (conj L (conj D V))).
Defined.

(** ** Clock readings of a test *)
Section Readings.
Context `{Externals}.

Lemma reads_app t1 t2 : reads (t1 ++ t2) = (reads t1 + reads t2)%nat.
Proof. unfold reads. now rewrite List.filter_app, length_app. Qed.

Lemma reads_pass t : Forall pass_event t -> reads t = 0%nat.
Proof.
  induction 1 as [|e t He _ IH]; [reflexivity|].
  destruct e; try contradiction; exact IH.
Qed.

Section Protocol.
Context {X A : Type}.
Variables (label : string) (n : nat).
Variables (setup : M X) (serializing : X -> M A) (deserializing : X -> A -> M unit).
Hypothesis setup_free : clock_free setup.
Hypothesis serializing_free : forall x, clock_free (serializing x).
Hypothesis deserializing_free : forall x a, clock_free (deserializing x a).
Hypothesis setup_silent : silent setup.
Hypothesis setup_returns : forall s, is_Some (res (setup s)).
Hypothesis serializing_events : forall x, emits pass_event (serializing x).
Hypothesis deserializing_events : forall x a, emits pass_event (deserializing x a).

(** The protocol reads the clock four times when it returns, fewer when
    a pass raises; the result is built from the four readings. *)
Lemma protocol_reads clock s :
  let o := protocol clock label n setup serializing deserializing s in
  ticks (final o) = (ticks s + reads (evs o))%nat /\
  hd_error (evs o) = Some Now /\
  match res o with
  | Some r =>
      reads (evs o) = 4%nat /\ last (evs o) = Some Now /\
      r = result_at clock label n (ticks s)
  | None => (reads (evs o) < 4)%nat
  end.
Proof.
  cbv zeta. rewrite protocol_run by assumption. unfold protocol_outcome. cbv zeta.
  pose proof (clock_free_ticks setup s setup_free) as T0.
  rewrite (setup_silent s). destruct (setup_returns s) as [x ->].
  cbn [res evs final app].
  set (s0 := final (setup s)) in *.
  pose proof (clock_free_ticks (serializing x) (tick s0) (serializing_free x)) as T1.
  pose proof (reads_pass _ (serializing_events x (tick s0))) as R1.
  cbn [tick ticks] in T1. rewrite T0 in T1.
  destruct (res (serializing x (tick s0))) as [a|]; cbn [res evs final].
  2:{ change (reads (Now :: ?t)) with (S (reads t)). rewrite R1, T1.
      repeat split; lia. }
  set (s1 := final (serializing x (tick s0))) in *.
  pose proof (clock_free_ticks (deserializing x a) (tick (tick s1))
                (deserializing_free x a)) as T2.
  pose proof (reads_pass _ (deserializing_events x a (tick (tick s1)))) as R2.
  cbn [tick ticks] in T2. rewrite T1 in T2.
  destruct (res (deserializing x a (tick (tick s1)))) as [[]|]; cbn [res evs final].
  - change (reads (Now :: ?t)) with (S (reads t)). rewrite reads_app, R1.
    change (reads (Now :: Now :: ?t)) with (S (S (reads t))). rewrite reads_app, R2.
    cbn [tick ticks reads List.filter is_Now List.length Nat.add]. rewrite T2.
    repeat split; try lia.
    rewrite !app_comm_cons, app_assoc. apply last_snoc.
  - change (reads (Now :: ?t)) with (S (reads t)). rewrite reads_app, R1.
    change (reads (Now :: Now :: ?t)) with (S (S (reads t))). rewrite R2, T2.
    repeat split; lia.
Qed.

End Protocol.

Lemma pass_event_emit e : pass_event e -> emits pass_event (emit e).
Proof. intros He s. cbn. auto. Qed.

Lemma emits_pass_asUint8Array b : emits pass_event (asUint8Array b).
Proof. intros s. repeat constructor. Qed.

Lemma follows_timed_intro {X A} f label n (setup : M X) (serializing : X -> M A)
    (deserializing : X -> A -> M unit) :
  (forall clock s, f clock s = protocol clock label n setup serializing deserializing s) ->
  clock_free setup -> silent setup -> (forall s, is_Some (res (setup s))) ->
  (forall x, clock_free (serializing x)) ->
  (forall x, emits pass_event (serializing x)) ->
  (forall x a, clock_free (deserializing x a)) ->
  (forall x a, emits pass_event (deserializing x a)) ->
  follows_timed_protocol f label n.
Proof.
  intros E F0 S0 R0 F1 E1 F2 E2.
  exists X, A, setup, serializing, deserializing. auto 6.
Qed.

(** Every test function of every revision is an instance of the timed
    protocol. *)
Lemma run_test_follows_timed_protocol f ITERATIONS largeJsonData :
  follows_timed_protocol (fun clock => run_test f clock ITERATIONS largeJsonData)
    (label_of f) (count_of f ITERATIONS).
Proof.
  pose proof emits_pass_asUint8Array as Hview.
  assert (Hsetup : forall {X} (x : X) s, is_Some (res (ret x s)))
    by (intros; eexists; reflexivity).
  destruct f; cbn [run_test label_of count_of is_large];
    unfold WebLarge.testMessagePack, WebLarge.testFlatBuffers,
      NativeLowLevel.testJSON, NativeLowLevel.testMessagePack;
    eapply follows_timed_intro.
  all: try (intros clock s).
  1: apply Web_testJSON_protocol.
  8: apply Web_testMessagePack_protocol.
  15: apply Web_testFlatBuffers_protocol.
  22: apply WebLarge_testJSON_protocol.
  29: apply Web_testMessagePack_protocol.
  36: apply Web_testFlatBuffers_protocol.
  43: apply WebLarge_testAvro_protocol.
  50: apply WebLarge_testLargeJSON_protocol.
  57: apply WebLarge_testLargeMessagePack_protocol.
  64: apply WebLarge_testLargeFlatBuffers_protocol.
  71: apply Native_testJSON_protocol.
  78: apply Native_testMessagePack_protocol.
  85: apply Native_testFlatBuffers_protocol.
  92: apply Native_testJSON_protocol.
  99: apply Native_testMessagePack_protocol.
  106: apply NativeLowLevel_testFlatBuffers_protocol.
  all: first [ solve [clock_free] | solve [silent] | solve [emits]
             | solve [eexists; reflexivity] ].
Qed.

End Readings.

(** X1.  Every test function reads the clock first; it has read it four times
    when it returns, fewer when it raises, and nothing else moves the
    count of readings.  A returned result is the record built from the
    four readings: the serialize time is the second minus the first, the
    deserialize time the fourth minus the third, whatever happened
    between the second and the third. *)
Theorem test_reads_the_clock_four_times `{Externals} (f : test_function)
    (clock : nat -> number) (ITERATIONS : nat) (largeJsonData : list value)
    (s : State) :
  let o := run_test f clock ITERATIONS largeJsonData s in
  ticks (final o) = (ticks s + reads (evs o))%nat /\
  hd_error (evs o) = Some Now /\
  match res o with
  | Some r =>
      reads (evs o) = 4%nat /\ last (evs o) = Some Now /\
      r = result_at clock (label_of f) (count_of f ITERATIONS) (ticks s)
  | None => (reads (evs o) < 4)%nat
  end.
Proof.
  destruct (run_test_follows_timed_protocol f ITERATIONS largeJsonData)
    as (X & A & setup & ser & de & (F0 & S0 & R0) & P1 & P2 & E).
  cbv zeta. rewrite E.
  apply protocol_reads; try assumption; intros; first [apply P1|apply P2].
Qed.

Section RunReadings.
Context `{Externals}.
Variables (clock : nat -> number) (ITERATIONS : nat) (largeJsonData : list value).

Lemma returned_result f s r :
  res (run_test f clock ITERATIONS largeJsonData s) = Some r ->
  r = result_at clock (label_of f) (count_of f ITERATIONS) (ticks s) /\
  ticks (final (run_test f clock ITERATIONS largeJsonData s)) = (4 + ticks s)%nat.
Proof.
  intros R.
  destruct (run_test_follows_timed_protocol f ITERATIONS largeJsonData)
    as (X & A & setup & ser & de & (F0 & S0 & R0) & P1 & P2 & E).
  pose proof (protocol_reads (label_of f) (count_of f ITERATIONS) setup ser de
                F0 (fun x => proj1 (P1 x)) (fun x a => proj1 (P2 x a)) S0 R0
                (fun x => proj2 (P1 x)) (fun x a => proj2 (P2 x a)) clock s) as Q.
  cbv zeta in Q. rewrite <- E, R in Q. destruct Q as (T & _ & N & _ & ->).
  split; [reflexivity|]. rewrite T, N. lia.
Qed.

Lemma runs_results fs : forall s j result,
  omap res (runs (map (fun f => run_test f clock ITERATIONS largeJsonData) fs) s) !! j
  = Some result ->
  exists f, fs !! j = Some f /\
            result = result_at clock (label_of f) (count_of f ITERATIONS)
                       (ticks s + 4 * j).
Proof.
  induction fs as [|f fs IH]; intros s j result; cbn [map runs].
  - intros Hj. discriminate.
  - change (omap res (?o :: ?l)) with
      (match res o with Some y => y :: omap res l | None => omap res l end).
    destruct (res (run_test f clock ITERATIONS largeJsonData s)) as [r|] eqn:R.
    + destruct (returned_result f s r R) as [-> T].
      destruct j as [|j]; cbn [lookup list_lookup].
      * intros [= <-]. exists f. split; [reflexivity|]. f_equal. lia.
      * intros Hj. destruct (IH _ _ _ Hj) as (g & Eg & ->).
        exists g. split; [exact Eg|]. f_equal. rewrite T. lia.
    + intros Hj. discriminate.
Qed.

End RunReadings.

(** X2.  The results a run has shown last: result number [j] is the one of
    the [j]-th test of the runner, built from the clock readings [4j] to
    [4j+3] counted from the start of the run.  The measured intervals of
    different tests share no reading, and what the runner does between
    two tests (drawing, pausing) lies between reading [4j+3] and reading
    [4j+4], outside all of them. *)
Theorem run_measures_four_readings_per_test `{Externals} (r : runner)
    (clock : nat -> number) (ITERATIONS : nat) (largeJsonData : list value)
    (s : State) :
  let o := run_all r clock ITERATIONS largeJsonData s in
  let results := default [] (last (shown_results (evs o))) in
  results
  = imap (fun j f => result_at clock (label_of f) (count_of f ITERATIONS)
                       (ticks s + 4 * j))
         (take (List.length results) (tests_of r)).
Proof.
  cbv zeta.
  destruct (run_all_spec r clock ITERATIONS largeJsonData s) as (_ & S & _).
  cbv zeta in S. rewrite S.
  rewrite seq_S, map_app. cbn [map Nat.add].
  rewrite last_snoc, firstn_all. cbn [default from_option id].
  set (results := omap res _).
  apply list_eq. intros j. rewrite list_lookup_imap.
  destruct (results !! j) as [result|] eqn:Hj.
  - pose proof (lookup_lt_Some _ _ _ Hj) as Lj.
    rewrite lookup_take_lt by exact Lj.
    destruct (runs_results clock ITERATIONS largeJsonData _ _ _ _ Hj) as (f & -> & E).
    now rewrite E.
  - apply lookup_ge_None in Hj. now rewrite lookup_take_ge.
Qed.

(** ** Controls and pauses of the runners *)
Section Controls.
Context `{Externals}.

Lemma ui_changes_app t1 t2 : ui_changes (t1 ++ t2) = ui_changes t1 ++ ui_changes t2.
Proof. apply omap_app. Qed.

Lemma pauses_app t1 t2 : pauses (t1 ++ t2) = pauses t1 ++ pauses t2.
Proof. apply omap_app. Qed.

Lemma ui_changes_test_events t : Forall test_event t -> ui_changes t = [].
Proof.
  induction 1 as [|e t He _ IH]; [reflexivity|].
  destruct e; try contradiction; exact IH.
Qed.

Lemma pauses_test_events t : Forall test_event t -> pauses t = [].
Proof.
  induction 1 as [|e t He _ IH]; [reflexivity|].
  destruct e; try contradiction; exact IH.
Qed.

Lemma ui_changes_Sleep ms : ui_changes (map Sleep ms) = [].
Proof. induction ms; auto. Qed.

Lemma pauses_Sleep ms : pauses (map Sleep ms) = ms.
Proof. induction ms as [|m ms IH]; cbn; [reflexivity|]. now f_equal. Qed.

Lemma ui_changes_Ui cs : ui_changes (map Ui cs) = cs.
Proof. induction cs as [|c cs IH]; cbn; [reflexivity|]. now f_equal. Qed.

Lemma pauses_Ui cs : pauses (map Ui cs) = [].
Proof. induction cs; auto. Qed.

Lemma pause_of_quiet ms pause : pause_of ms pause -> quiet pause.
Proof.
  intros Hp s. rewrite (Hp s). cbn [res evs final].
  split; [reflexivity|]. split; [reflexivity|].
  clear Hp. split; [|split]; induction ms as [|m ms IH]; first [reflexivity|exact IH].
Qed.

Section RunInOrder.
Variable show : list TestResult -> M unit.
Variable cards : list TestResult -> list card.
Hypothesis show_spec :
  forall l s, show l s = {| res := Some tt; evs := [Render l (cards l)]; final := s |}.

Lemma run_in_order_controls steps plan :
  Forall2 (fun st ms => emits test_event (fst st) /\ pause_of ms (snd st)) steps plan ->
  forall done s,
    let o := run_in_order show steps done s in
    ui_changes (evs o) = [] /\
    pauses (evs o)
    = concat (take (List.length (omap res (runs (map fst steps) s))) plan).
Proof.
  induction 1 as [|[test pause] ms steps plan [Htest Hpause] _ IH]; intros done s;
    cbv zeta.
  - split; reflexivity.
  - cbn [fst snd] in Htest, Hpause. specialize (Htest s). cbn [map fst runs].
    change (omap res (test s :: ?l)) with
      (match res (test s) with Some y => y :: omap res l | None => omap res l end).
    destruct (res (test s)) as [r|] eqn:R.
    + rewrite (run_in_order_step show cards show_spec _ _ _ _ _ _ R
                 (pause_of_quiet _ _ Hpause)).
      destruct (IH (done ++ [r]) (final (test s))) as (U & P).
      unfold after. cbn [evs List.length take concat].
      rewrite (Hpause (final (test s))). cbn [evs].
      rewrite !ui_changes_app, !pauses_app.
      change (ui_changes (Render ?a ?b :: ?t)) with (ui_changes t).
      change (pauses (Render ?a ?b :: ?t)) with (pauses t).
      rewrite (ui_changes_test_events _ Htest), (pauses_test_events _ Htest).
      rewrite ui_changes_Sleep, pauses_Sleep, U, P. cbn [app].
      now rewrite ?app_nil_r.
    + cbn [run_in_order]. rewrite (bind_None _ _ _ R). cbn [evs List.length take concat].
      now rewrite (ui_changes_test_events _ Htest), (pauses_test_events _ Htest).
Qed.

(** A runner between its opening and its closing changes of the
    controls. *)
Lemma runner_controls (before after_ : list ui_change) (first_ : list event)
    (footer : M unit) (steps : list (M TestResult * M unit)) (plan : list (list Z)) s :
  Forall2 (fun st ms => emits test_event (fst st) /\ pause_of ms (snd st)) steps plan ->
  (forall s', footer s' = {| res := Some tt; evs := map Ui after_; final := s' |}) ->
  ui_changes first_ = [] -> pauses first_ = [] ->
  let o := after (map Ui before ++ first_)
             (bind (run_in_order show steps []) (fun _ => footer) s) in
  (exists middle,
     evs o = map Ui before ++ middle
             ++ map Ui (match res o with Some _ => after_ | None => [] end) /\
     ui_changes middle = []) /\
  pauses (evs o)
  = concat (take (List.length (omap res (runs (map fst steps) s))) plan).
Proof.
  intros Hsteps Hfooter Uf Pf. cbv zeta.
  destruct (run_in_order_controls steps plan Hsteps [] s) as (U & P). cbv zeta in U, P.
  unfold after, bind. cbn [res evs final].
  destruct (res (run_in_order show steps [] s)) as [all|];
    rewrite ?Hfooter; cbn [res evs final].
  - split.
    + exists (first_ ++ evs (run_in_order show steps [] s)). split.
      * now rewrite <- !app_assoc.
      * now rewrite ui_changes_app, Uf, U.
    + rewrite !pauses_app, pauses_Ui, Pf, P, pauses_Ui. cbn [app].
      now rewrite app_nil_r.
  - split.
    + exists (first_ ++ evs (run_in_order show steps [] s)). split.
      * cbn [map]. now rewrite app_nil_r, <- !app_assoc.
      * now rewrite ui_changes_app, Uf, U.
    + now rewrite !pauses_app, pauses_Ui, Pf, P.
Qed.

End RunInOrder.

Lemma pause_of_ret : pause_of [] (ret tt).
Proof. intros s. reflexivity. Qed.

Lemma pause_of_sleep ms : pause_of [ms] (sleep ms).
Proof. intros s. reflexivity. Qed.

Lemma pause_of_two ms ms' : pause_of [ms; ms'] (sleep ms ;;; sleep ms').
Proof. intros s. reflexivity. Qed.

(** The four runners. *)
Lemma run_all_controls (r : runner) (clock : nat -> number)
    (ITERATIONS : nat) (largeJsonData : list value) (s : State) :
  let o := run_all r clock ITERATIONS largeJsonData s in
  let outs :=
    runs (map (fun f => run_test f clock ITERATIONS largeJsonData) (tests_of r)) s in
  (exists middle,
     evs o = map Ui (opening r) ++ middle
             ++ map Ui (match res o with Some _ => closing r | None => [] end) /\
     ui_changes middle = []) /\
  pauses (evs o) = concat (take (List.length (omap res outs)) (pause_plan r)).
Proof.
  cbv zeta.
  pose proof (emits_run_test clock ITERATIONS largeJsonData) as Ht.
  pose proof pause_of_ret as Q0. pose proof (pause_of_sleep 100) as Q1.
  pose proof (pause_of_two 100 100) as Q2.
  destruct r; cbn [run_all tests_of opening closing pause_plan].
  - rewrite Web_runAllTests_in_order, !emit_then, !after_after. cbn [app].
    match goal with
    | |- context [after _ (bind (run_in_order ?show ?steps []) (fun _ => ?footer) s)] =>
        apply (runner_controls show (cards_of Web_runAllTests) (fun l s => eq_refl)
                 [ButtonDisabled true; ButtonText "Running Tests..."; ResultsDisplay "none"]
                 [ButtonDisabled false; ButtonText "Run Performance Tests";
                  ResultsDisplay "block"]
                 [Render [] []] footer steps
                 [[100]; [100]; []] s)
    end; try reflexivity.
    repeat (apply Forall2_cons_2;
            [split; cbn [fst snd];
             [first [ apply (Ht Web_testJSON) | apply (Ht Web_testMessagePack) | apply (Ht Web_testFlatBuffers) ]
             |first [exact Q0|exact Q1|exact Q2]]|]).
    apply Forall2_nil_2.
  - rewrite WebLarge_runAllTests_in_order, !emit_then, !after_after. cbn [app].
    match goal with
    | |- context [after _ (bind (run_in_order ?show ?steps []) (fun _ => ?footer) s)] =>
        apply (runner_controls show (cards_of WebLarge_runAllTests) (fun l s => eq_refl)
                 [ButtonDisabled true; ButtonText "Running Tests..."; ResultsDisplay "none"]
                 [ButtonDisabled false; ButtonText "Run Performance Tests";
                  ResultsDisplay "block"]
                 [Render [] []] footer steps
                 [[100]; [100; 100]; [100]; [100]; [100]; [100]; []] s)
    end; try reflexivity.
    repeat (apply Forall2_cons_2;
            [split; cbn [fst snd];
             [first [ apply (Ht WebLarge_testJSON) | apply (Ht WebLarge_testMessagePack) | apply (Ht WebLarge_testFlatBuffers) | apply (Ht WebLarge_testAvro) | apply (Ht WebLarge_testLargeJSON) | apply (Ht WebLarge_testLargeMessagePack) | apply (Ht WebLarge_testLargeFlatBuffers) ]
             |first [exact Q0|exact Q1|exact Q2]]|]).
    apply Forall2_nil_2.
  - unfold Native.runAllTests.
    rewrite Native_runAllTests_with_in_order. unfold Native.setIsRunning at 1.
    unfold Native.setResults at 1. rewrite !emit_then, !after_after. cbn [app].
    match goal with
    | |- context [after _ (bind (run_in_order ?show ?steps []) (fun _ => ?footer) s)] =>
        apply (runner_controls show (Native.render) (fun l s => eq_refl)
                 [IsRunning true]
                 [IsRunning false]
                 [Render [] (Native.render [])] footer steps
                 [[100]; [100]; []] s)
    end; try reflexivity.
    repeat (apply Forall2_cons_2;
            [split; cbn [fst snd];
             [first [ apply (Ht Native_testJSON) | apply (Ht Native_testMessagePack) | apply (Ht Native_testFlatBuffers) ]
             |first [exact Q0|exact Q1|exact Q2]]|]).
    apply Forall2_nil_2.
  - unfold NativeLowLevel.runAllTests.
    rewrite Native_runAllTests_with_in_order. unfold Native.setIsRunning at 1.
    unfold Native.setResults at 1. rewrite !emit_then, !after_after. cbn [app].
    match goal with
    | |- context [after _ (bind (run_in_order ?show ?steps []) (fun _ => ?footer) s)] =>
        apply (runner_controls show (Native.render) (fun l s => eq_refl)
                 [IsRunning true]
                 [IsRunning false]
                 [Render [] (Native.render [])] footer steps
                 [[100]; [100]; []] s)
    end; try reflexivity.
    repeat (apply Forall2_cons_2;
            [split; cbn [fst snd];
             [first [ apply (Ht NativeLowLevel_testJSON) | apply (Ht NativeLowLevel_testMessagePack) | apply (Ht NativeLowLevel_testFlatBuffers) ]
             |first [exact Q0|exact Q1|exact Q2]]|]).
    apply Forall2_nil_2.
Qed.

End Controls.

(** X3.  A run switches the controls before anything else (the trigger is
    disabled, or [isRunning] set) and touches them again only as its very
    last step, to switch them back, when every test has returned.  When
    a test raises, the run ends there and the controls stay as the
    opening left them: no [runAllTests] catches the exception. *)
Theorem controls_switched_back_only_on_return `{Externals} (r : runner)
    (clock : nat -> number) (ITERATIONS : nat) (largeJsonData : list value)
    (s : State) :
  let o := run_all r clock ITERATIONS largeJsonData s in
  exists middle,
    evs o = map Ui (opening r) ++ middle
            ++ map Ui (match res o with Some _ => closing r | None => [] end) /\
    ui_changes middle = [].
Proof. apply run_all_controls. Qed.

(** X4.  The waits of a run: 100 ms after each test that returned but the
    last one of the runner, twice after [testMessagePack] in the second
    web revision; no wait after a test that raised. *)
Theorem pauses_follow_the_completed_tests `{Externals} (r : runner)
    (clock : nat -> number) (ITERATIONS : nat) (largeJsonData : list value)
    (s : State) :
  let o := run_all r clock ITERATIONS largeJsonData s in
  let outs :=
    runs (map (fun f => run_test f clock ITERATIONS largeJsonData) (tests_of r)) s in
  pauses (evs o) = concat (take (List.length (omap res outs)) (pause_plan r)) /\
  (is_Some (res o) -> pauses (evs o) = concat (pause_plan r)) /\
  Forall (fun ms => ms = 100) (pauses (evs o)).
Proof.
  cbv zeta.
  destruct (run_all_controls r clock ITERATIONS largeJsonData s) as (_ & P).
  destruct (run_all_spec r clock ITERATIONS largeJsonData s) as (_ & _ & _ & _ & C).
  cbv zeta in P, C. rewrite P. split; [reflexivity|]. split.
  - intros Hr. apply C in Hr. rewrite Hr.
    destruct r; reflexivity.
  - assert (Hall : Forall (Forall (fun ms => ms = 100)) (pause_plan r))
      by (destruct r; repeat constructor).
    revert Hall. generalize (pause_plan r).
    generalize (List.length
                  (omap res (runs (map (fun f => run_test f clock ITERATIONS
                                                    largeJsonData)
                                       (tests_of r)) s))).
    intros k plan. revert k. induction plan as [|p plan IH]; intros k Hall.
    + destruct k; constructor.
    + apply Forall_cons in Hall. destruct Hall as [Hp Hplan].
      destruct k; cbn [take concat]; [constructor|].
      apply Forall_app. split; [exact Hp|apply IH, Hplan].
Qed.

(** ** Decoders that reject *)
Section CodecOutcomes.
Context `{Externals}.
Context {P : Type} (wrap : P -> payload) (dec : P -> option TestData).

Abbreviation decodes := (decodes dec).
Abbreviation sum_of := (sum_of dec).

Lemma logged_app t1 t2 : logged (t1 ++ t2) = logged t1 ++ logged t2.
Proof. apply omap_app. Qed.

Section Loop.
Variable serialized : list P.
Context {S : Type} (g : S -> TestData -> S).

(** The deserializing loop over the payloads [ps] found at [indices]. *)
Lemma decode_loop_outcome indices : forall ps acc s,
  Forall2 (fun i p => serialized !! i = Some p) indices ps ->
  let o := for_each (decode_body wrap dec serialized g) indices acc s in
  final o = s /\
  evs o = zip_with (fun p d => Deserialize (wrap p) d) ps (decoded_until dec ps) /\
  res o = if forallb decodes ps
          then Some (fold_left (fun a p => match dec p with
                                           | Some d => g a d
                                           | None => a
                                           end) ps acc)
          else None.
Proof.
  induction indices as [|i rest IH]; intros ps acc s Hps; cbv zeta.
  - apply Forall2_nil_inv_l in Hps. subst ps. cbn. repeat split; reflexivity.
  - apply Forall2_cons_inv_l in Hps. destruct Hps as (p & ps' & Ei & Hrest & ->).
    cbn [decoded_until forallb fold_left]. unfold decodes at 1.
    destruct (dec p) as [d|] eqn:Ed.
    + rewrite (decode_step_ok wrap dec serialized g i rest acc s p d Ei Ed).
      destruct (IH ps' (g acc d) s Hrest) as (F & E & R).
      unfold after. cbn [res evs final zip_with andb app].
      rewrite F, E, R. repeat split; reflexivity.
    + rewrite (decode_step_rejected wrap dec serialized g i rest acc s p Ei Ed).
      cbn. rewrite zip_with_nil_r. repeat split; reflexivity.
Qed.

End Loop.

Lemma encoded_indices (enc : nat -> P) n :
  Forall2 (fun i p => map enc (seq 0 n) !! i = Some p) (seq 0 n) (map enc (seq 0 n)).
Proof.
  apply Forall2_fmap_r, Forall_Forall2_diag, Forall_forall.
  intros i Hi. apply elem_of_seq in Hi.
  rewrite list_lookup_fmap, lookup_seq_lt by lia. reflexivity.
Qed.

Lemma decoded_values_zip ps ds :
  (List.length ds <= List.length ps)%nat ->
  decoded_values (zip_with (fun p d => Deserialize (wrap p) d) ps ds) = ds.
Proof.
  revert ds. induction ps as [|p ps IH]; intros [|d ds] Hl; cbn in *;
    try reflexivity; try lia.
  f_equal. apply IH. lia.
Qed.

Lemma deserialized_payloads_zip ps (ds : list decoded) :
  deserialized_payloads (zip_with (fun p d => Deserialize (wrap p) d) ps ds)
  = take (List.length ds) (map wrap ps).
Proof.
  revert ds. induction ps as [|p ps IH]; intros [|d ds]; cbn; try reflexivity.
  f_equal. apply IH.
Qed.

Lemma decoded_until_length ps :
  (List.length (decoded_until dec ps) <= List.length ps)%nat.
Proof.
  induction ps as [|p ps IH]; cbn; [lia|]. destruct (dec p); cbn; lia.
Qed.

Lemma pass_events_zip ps ds :
  Forall pass_event (zip_with (fun p d => Deserialize (wrap p) d) ps ds).
Proof.
  revert ds. induction ps as [|p ps IH]; intros [|d ds]; cbn; constructor;
    [exact I|apply IH].
Qed.

Lemma logged_zip ps ds :
  logged (zip_with (fun p d => Deserialize (wrap p) d) ps ds) = [].
Proof. revert ds. induction ps as [|p ps IH]; intros [|d ds]; cbn; auto. Qed.

Lemma logged_Serialize payloads : logged (map Serialize payloads) = [].
Proof. induction payloads; auto. Qed.

Variables (clock : nat -> number) (label : string) (enc : nat -> P) (n : nat) (s : State).

(** What a codec test has done when it ends, given its deserializing
    pass [pass], the events [tail] that follow the decoder calls when
    they all return, and what the pass does on the [n] payloads. *)
Lemma codec_test_outcome (pass : list P -> M unit) (tail : list event) :
  (forall serialized, clock_free (pass serialized)) ->
  let ps := map enc (seq 0 n) in
  (forall s',
     final (pass ps s') = s' /\
     evs (pass ps s')
     = zip_with (fun p d => Deserialize (wrap p) d) ps (decoded_until dec ps)
       ++ (if forallb decodes ps then tail else []) /\
     res (pass ps s') = if forallb decodes ps then Some tt else None) ->
  let o := protocol clock label n (ret tt) (fun _ => encoding wrap enc n)
             (fun _ => pass) s in
  res o = (if forallb decodes ps then Some (result_at clock label n (ticks s))
           else None) /\
  evs o = Now :: map (fun p => Serialize (wrap p)) ps ++ Now :: Now ::
          zip_with (fun p d => Deserialize (wrap p) d) ps (decoded_until dec ps)
          ++ (if forallb decodes ps then tail ++ [Now] else []).
Proof.
  intros Hfree ps Hpass. cbv zeta.
  rewrite (protocol_of_passes label n (ret tt) (fun _ => encoding wrap enc n)
             (fun _ => pass)) with (s0 := s) (s1 := tick s) (x := tt) (a := ps)
             (e1 := map (fun p => Serialize (wrap p)) ps);
    [|clock_free|clock_free|intros; apply Hfree|reflexivity
     |rewrite encoding_run; unfold ps; now rewrite map_map].
  cbv zeta. destruct (Hpass (tick (tick (tick s)))) as (_ & E & R).
  rewrite R, E. destruct (forallb decodes ps); cbn [res evs].
  - split; [reflexivity|]. now rewrite <- !app_assoc.
  - split; [reflexivity|]. now rewrite app_nil_r.
Qed.

Lemma decoding_outcome s' :
  let ps := map enc (seq 0 n) in
  final (decoding wrap dec n ps s') = s' /\
  evs (decoding wrap dec n ps s')
  = zip_with (fun p d => Deserialize (wrap p) d) ps (decoded_until dec ps)
    ++ (if forallb decodes ps then map Log [] else []) /\
  res (decoding wrap dec n ps s') = if forallb decodes ps then Some tt else None.
Proof.
  cbv zeta. unfold decoding, for_range.
  fold (decode_body wrap dec (map enc (seq 0 n)) (fun (_ : unit) (_ : TestData) => tt)).
  destruct (decode_loop_outcome (map enc (seq 0 n)) (fun (_ : unit) (_ : TestData) => tt)
              (seq 0 n) (map enc (seq 0 n)) tt s' (encoded_indices enc n))
    as (F & E & R).
  rewrite F, E, R. repeat split.
  - destruct (forallb _ _); now rewrite app_nil_r.
  - destruct (forallb _ _); [|reflexivity]. f_equal.
    now destruct (fold_left _ _ _).
Qed.

Lemma fold_sum_of ps : forall a,
  fold_left (fun a p => match dec p with
                        | Some d => a + foo_number d
                        | None => a
                        end) ps a
  = fold_left (fun a p => a + match dec p with
                              | Some d => foo_number d
                              | None => 0
                              end) ps a.
Proof.
  induction ps as [|p l IH]; intros a; cbn [fold_left]; [reflexivity|].
  destruct (dec p); [apply IH|]. rewrite Z.add_0_r. apply IH.
Qed.

Lemma decoding_sum_outcome text s' :
  let ps := map enc (seq 0 n) in
  final (decoding_sum wrap dec text n ps s') = s' /\
  evs (decoding_sum wrap dec text n ps s')
  = zip_with (fun p d => Deserialize (wrap p) d) ps (decoded_until dec ps)
    ++ (if forallb decodes ps
        then map Log (if sum_of ps =? 0 then [[VString text; VNumber (of_Z 0)]] else [])
        else []) /\
  res (decoding_sum wrap dec text n ps s') = if forallb decodes ps then Some tt else None.
Proof.
  cbv zeta. unfold decoding_sum, for_range.
  fold (decode_body wrap dec (map enc (seq 0 n)) (fun sum parsed => sum + foo_number parsed)).
  destruct (decode_loop_outcome (map enc (seq 0 n))
              (fun sum parsed => sum + foo_number parsed)
              (seq 0 n) (map enc (seq 0 n)) 0 s' (encoded_indices enc n))
    as (F & E & R).
  unfold bind. rewrite R, E, F.
  destruct (forallb decodes (map enc (seq 0 n))) eqn:Hall; cbn [res evs final].
  - rewrite fold_sum_of. fold (sum_of (map enc (seq 0 n))).
    destruct (Z.eqb_spec (sum_of (map enc (seq 0 n))) 0) as [E0|N0].
    + rewrite E0. cbn. auto.
    + cbn. auto.
  - rewrite app_nil_r. auto.
Qed.

End CodecOutcomes.

Section CodecTests.
Context `{Externals}.
Context {P : Type} (wrap : P -> payload) (dec : P -> option TestData).
Variable decw : payload -> option TestData.
Hypothesis decw_wrap : forall p, decw (wrap p) = dec p.
Variables (clock : nat -> number) (label : string) (enc : nat -> P) (n : nat) (s : State).

Lemma decoded_until_wrap ps :
  decoded_until decw (map wrap ps) = decoded_until dec ps.
Proof.
  induction ps as [|p ps IH]; cbn; [reflexivity|].
  rewrite decw_wrap. destruct (dec p); [now rewrite IH|reflexivity].
Qed.

Lemma decodes_all ps :
  forallb (decodes dec) ps = true <-> Forall (fun p => is_Some (decw p)) (map wrap ps).
Proof.
  induction ps as [|p ps IH]; cbn [forallb map].
  - split; [constructor|reflexivity].
  - rewrite Forall_cons, decw_wrap, andb_true_iff, IH. unfold decodes.
    destruct (dec p); split; intros [H1 H2]; split; auto;
      try discriminate; try (eexists; reflexivity); destruct H1; discriminate.
Qed.

Lemma last_decoded_until ps :
  forallb (decodes dec) ps = false -> last (decoded_until dec ps) = Some Threw.
Proof.
  induction ps as [|p ps IH]; cbn [forallb decoded_until]; [discriminate|].
  unfold decodes at 1. destruct (dec p) as [d|]; [|reflexivity].
  cbn [andb]. intros Hps. specialize (IH Hps).
  destruct (decoded_until dec ps); [discriminate|exact IH].
Qed.

Lemma serialized_payloads_zip ps (ds : list decoded) :
  serialized_payloads (zip_with (fun p d => Deserialize (wrap p) d) ps ds) = [].
Proof. revert ds. induction ps as [|p ps IH]; intros [|d ds]; cbn; auto. Qed.

Lemma projections_Log (logs : list (list value)) :
  serialized_payloads (map Log logs) = [] /\ decoded_values (map Log logs) = [] /\
  deserialized_payloads (map Log logs) = [] /\ logged (map Log logs) = logs /\
  reads (map Log logs) = 0%nat.
Proof.
  induction logs as [|l logs (S1 & D1 & P1 & L1 & R1)]; cbn; [auto|].
  repeat split; auto. now f_equal.
Qed.

(** A codec test, whatever its decoder does; [logs] is what the
    deserializing pass logs after the decoder calls when they all
    return. *)
Lemma codec_test_summary (pass : list P -> M unit) (logs : list (list value)) :
  (forall serialized, clock_free (pass serialized)) ->
  let ps := map enc (seq 0 n) in
  (forall s',
     final (pass ps s') = s' /\
     evs (pass ps s')
     = zip_with (fun p d => Deserialize (wrap p) d) ps (decoded_until dec ps)
       ++ (if forallb (decodes dec) ps then map Log logs else []) /\
     res (pass ps s') = if forallb (decodes dec) ps then Some tt else None) ->
  let o := protocol clock label n (ret tt) (fun _ => encoding wrap enc n)
             (fun _ => pass) s in
  let payloads := map (fun i => wrap (enc i)) (seq 0 n) in
  (is_Some (res o) <-> Forall (fun p => is_Some (decw p)) payloads) /\
  serialized_payloads (evs o) = payloads /\
  decoded_values (evs o) = decoded_until decw payloads /\
  deserialized_payloads (evs o)
  = take (List.length (decoded_until decw payloads)) payloads /\
  (res o = None ->
   last (decoded_values (evs o)) = Some Threw /\ reads (evs o) = 3%nat) /\
  logged (evs o) = if forallb (decodes dec) ps then logs else [].
Proof.
  intros Hfree ps Hpass. cbv zeta.
  destruct (codec_test_outcome wrap dec clock label enc n s pass (map Log logs)
              Hfree Hpass) as (R & E).
  fold ps in R, E. rewrite R, E.
  assert (Ep : map (fun i => wrap (enc i)) (seq 0 n) = map wrap ps)
    by (unfold ps; now rewrite map_map).
  rewrite Ep, decoded_until_wrap, <- decodes_all.
  rewrite <- (map_map wrap Serialize).
  pose proof (decoded_values_zip wrap ps _ (decoded_until_length dec ps)) as Dz.
  pose proof (deserialized_payloads_zip wrap ps (decoded_until dec ps)) as Pz.
  pose proof (logged_zip wrap ps (decoded_until dec ps)) as Lz.
  pose proof (serialized_payloads_zip ps (decoded_until dec ps)) as Sz.
  pose proof (reads_pass _ (pass_events_zip wrap ps (decoded_until dec ps))) as Rz.
  destruct (projections_Log logs) as (S1 & D1 & P1 & L1 & R1).
  pose proof (last_decoded_until ps) as Hlast.
  change (serialized_payloads (Now :: ?t)) with (serialized_payloads t).
  change (decoded_values (Now :: ?t)) with (decoded_values t).
  change (deserialized_payloads (Now :: ?t)) with (deserialized_payloads t).
  change (logged (Now :: ?t)) with (logged t).
  change (reads (Now :: ?t)) with (Datatypes.S (reads t)).
  rewrite serialized_payloads_app, decoded_values_app, deserialized_payloads_app,
    logged_app, reads_app.
  rewrite serialized_payloads_Serialize, decoded_values_Serialize,
    deserialized_payloads_Serialize, logged_Serialize.
  rewrite (reads_pass (map Serialize (map wrap ps)))
    by (clear; induction (map wrap ps); constructor; [exact I|assumption]).
  change (serialized_payloads (Now :: Now :: ?t)) with (serialized_payloads t).
  change (decoded_values (Now :: Now :: ?t)) with (decoded_values t).
  change (deserialized_payloads (Now :: Now :: ?t)) with (deserialized_payloads t).
  change (logged (Now :: Now :: ?t)) with (logged t).
  change (reads (Now :: Now :: ?t)) with (Datatypes.S (Datatypes.S (reads t))).
  rewrite serialized_payloads_app, decoded_values_app, deserialized_payloads_app,
    logged_app, reads_app, Dz, Pz, Lz, Sz, Rz.
  destruct (forallb (decodes dec) ps) eqn:Hall.
  - rewrite serialized_payloads_app, decoded_values_app, deserialized_payloads_app,
      logged_app, S1, D1, P1, L1. cbn [app].
    rewrite !app_nil_r. repeat split; auto; try discriminate.
  - cbn [app]. rewrite !app_nil_r. repeat split; auto; try discriminate.
    intros [? ?]; discriminate.
Qed.

Lemma summing_test_summary text :
  let o := protocol clock label n (ret tt) (fun _ => encoding wrap enc n)
             (fun _ => decoding_sum wrap dec text n) s in
  let payloads := map (fun i => wrap (enc i)) (seq 0 n) in
  (is_Some (res o) <-> Forall (fun p => is_Some (decw p)) payloads) /\
  serialized_payloads (evs o) = payloads /\
  decoded_values (evs o) = decoded_until decw payloads /\
  deserialized_payloads (evs o)
  = take (List.length (decoded_until decw payloads)) payloads /\
  (res o = None ->
   last (decoded_values (evs o)) = Some Threw /\ reads (evs o) = 3%nat) /\
  logged (evs o)
  = if forallb (decodes dec) (map enc (seq 0 n))
    then if sum_of dec (map enc (seq 0 n)) =? 0
         then [[VString text; VNumber (of_Z 0)]] else []
    else [].
Proof.
  apply (codec_test_summary (decoding_sum wrap dec text n)
           (if sum_of dec (map enc (seq 0 n)) =? 0
            then [[VString text; VNumber (of_Z 0)]] else [])).
  - clock_free.
  - apply decoding_sum_outcome.
Qed.

Lemma plain_test_summary :
  let o := protocol clock label n (ret tt) (fun _ => encoding wrap enc n)
             (fun _ => decoding wrap dec n) s in
  let payloads := map (fun i => wrap (enc i)) (seq 0 n) in
  (is_Some (res o) <-> Forall (fun p => is_Some (decw p)) payloads) /\
  serialized_payloads (evs o) = payloads /\
  decoded_values (evs o) = decoded_until decw payloads /\
  deserialized_payloads (evs o)
  = take (List.length (decoded_until decw payloads)) payloads /\
  (res o = None ->
   last (decoded_values (evs o)) = Some Threw /\ reads (evs o) = 3%nat) /\
  logged (evs o) = [].
Proof.
  destruct (codec_test_summary (decoding wrap dec n) []) as (A & B & C & D & E & L).
  - clock_free.
  - apply decoding_outcome.
  - cbv zeta. split; [exact A|]. split; [exact B|]. split; [exact C|].
    split; [exact D|]. split; [exact E|].
    etransitivity; [exact L|]. now destruct (forallb _ _).
Qed.

End CodecTests.

Section Sums.
Context {P : Type} (dec : P -> option TestData) (enc : nat -> P).
Variable value_of : nat -> TestData.
Hypothesis numbered : forall i, foo_number (value_of i) = Z.of_nat i.

Lemma sum_of_app ps qs : sum_of dec (ps ++ qs)
  = sum_of dec ps + sum_of dec qs.
Proof.
  unfold sum_of. rewrite fold_left_app. generalize (fold_left
    (fun a p => a + match dec p with Some d => foo_number d | None => 0 end) ps 0).
  induction qs as [|q qs IH] using rev_ind; intros a; cbn [fold_left]; [lia|].
  rewrite !fold_left_app. cbn [fold_left]. rewrite IH. lia.
Qed.

(** With a decoder that gives fixture [i] back, the numbers decoded
    from [n] payloads sum to [n (n - 1) / 2]. *)
Lemma sum_of_fixtures n :
  (forall i, (i < n)%nat -> dec (enc i) = Some (value_of i)) ->
  forallb (decodes dec) (map enc (seq 0 n)) = true /\
  2 * sum_of dec (map enc (seq 0 n)) = Z.of_nat n * (Z.of_nat n - 1).
Proof.
  induction n as [|n IH]; intros Hall; [split; reflexivity|].
  destruct IH as [A S]; [intros i Hi; apply Hall; lia|].
  rewrite seq_S, map_app, forallb_app, sum_of_app, A. cbn [map forallb Nat.add].
  unfold decodes at 1, sum_of at 2. cbn [fold_left].
  rewrite (Hall n) by lia. rewrite numbered. split; [reflexivity|lia].
Qed.

Lemma sum_is_zero n :
  2 * sum_of dec (map enc (seq 0 n)) = Z.of_nat n * (Z.of_nat n - 1) ->
  (sum_of dec (map enc (seq 0 n)) =? 0) = (n <=? 1)%nat.
Proof.
  intros S.
  destruct (Nat.leb_spec n 1) as [Hn|Hn];
    [apply Z.eqb_eq|apply Z.eqb_neq]; nia.
Qed.

End Sums.



(** X7.  The web tests log the sum of the decoded numbers when it is 0.  With
    a codec that gives every fixture back the sum is
    [0 + 1 + ... + (N - 1)]: the line is logged when [N] is 0 or 1 and
    never for a larger [N].  The React Native tests log nothing. *)
Theorem sum_is_logged_only_when_zero `{Externals} (f : test_function)
    (clock : nat -> number) (N : nat) (largeJsonData : list value) (s : State) :
  uses_codec f = true ->
  round_trips f N ->
  logged (evs (run_test f clock N largeJsonData s))
  = match sum_label f with
    | Some text => if (N <=? 1)%nat then [[VString text; VNumber (of_Z 0)]] else []
    | None => []
    end.
Proof.
  intros Hf Hrt.
  destruct f; try discriminate; cbn [run_test sum_label round_trips] in *;
    unfold WebLarge.testMessagePack, NativeLowLevel.testJSON,
      NativeLowLevel.testMessagePack.
  - rewrite Web_testJSON_protocol.
    destruct (summing_test_summary Text JSON_parse (decoded_by Web_testJSON)
                (fun _ => eq_refl) clock "JSON" (fun i => JSON_stringify (fixture i))
                N s "JSON sum:") as (_ & _ & _ & _ & _ & L).
    destruct (sum_of_fixtures JSON_parse (fun i => JSON_stringify (fixture i))
                fixture (fun i => eq_refl) N Hrt) as (A & S).
    rewrite L, A. now rewrite (sum_is_zero _ _ _ S).
  - rewrite Web_testMessagePack_protocol.
    destruct (summing_test_summary Bytes decode (decoded_by Web_testMessagePack)
                (fun _ => eq_refl) clock "MessagePack" (fun i => encode (fixture i))
                N s "MessagePack sum:") as (_ & _ & _ & _ & _ & L).
    destruct (sum_of_fixtures decode (fun i => encode (fixture i))
                fixture (fun i => eq_refl) N Hrt) as (A & S).
    rewrite L, A. now rewrite (sum_is_zero _ _ _ S).
  - rewrite WebLarge_testJSON_protocol.
    destruct (summing_test_summary Text JSON_parse (decoded_by WebLarge_testJSON)
                (fun _ => eq_refl) clock "JSON"
                (fun i => JSON_stringify (fixture_varying i))
                N s "JSON sum:") as (_ & _ & _ & _ & _ & L).
    destruct (sum_of_fixtures JSON_parse (fun i => JSON_stringify (fixture_varying i))
                fixture_varying (fun i => eq_refl) N Hrt) as (A & S).
    rewrite L, A. now rewrite (sum_is_zero _ _ _ S).
  - rewrite Web_testMessagePack_protocol.
    destruct (summing_test_summary Bytes decode (decoded_by WebLarge_testMessagePack)
                (fun _ => eq_refl) clock "MessagePack" (fun i => encode (fixture i))
                N s "MessagePack sum:") as (_ & _ & _ & _ & _ & L).
    destruct (sum_of_fixtures decode (fun i => encode (fixture i))
                fixture (fun i => eq_refl) N Hrt) as (A & S).
    rewrite L, A. now rewrite (sum_is_zero _ _ _ S).
  - rewrite WebLarge_testAvro_protocol.
    destruct (summing_test_summary Bytes fromBuffer (decoded_by WebLarge_testAvro)
                (fun _ => eq_refl) clock "Avro" (fun i => toBuffer (fixture i))
                N s "Avro sum:") as (_ & _ & _ & _ & _ & L).
    destruct (sum_of_fixtures fromBuffer (fun i => toBuffer (fixture i))
                fixture (fun i => eq_refl) N Hrt) as (A & S).
    rewrite L, A. now rewrite (sum_is_zero _ _ _ S).
  - rewrite Native_testJSON_protocol.
    apply (plain_test_summary Text JSON_parse (decoded_by Native_testJSON)
             (fun _ => eq_refl) clock "JSON" (fun i => JSON_stringify (fixture i)) N s).
  - rewrite Native_testMessagePack_protocol.
    apply (plain_test_summary Bytes decode (decoded_by Native_testMessagePack)
             (fun _ => eq_refl) clock "MessagePack" (fun i => encode (fixture i)) N s).
  - rewrite Native_testJSON_protocol.
    apply (plain_test_summary Text JSON_parse (decoded_by NativeLowLevel_testJSON)
             (fun _ => eq_refl) clock "JSON" (fun i => JSON_stringify (fixture i)) N s).
  - rewrite Native_testMessagePack_protocol.
    apply (plain_test_summary Bytes decode (decoded_by NativeLowLevel_testMessagePack)
             (fun _ => eq_refl) clock "MessagePack" (fun i => encode (fixture i)) N s).
Qed.

(** ** Entries of the large data set *)
Section Persons.
Context `{Externals}.

Lemma person_iteration_raises data i vars s person :
  data !! i = Some person -> has_properties person = false ->
  person_iteration data i vars s = {| res := None; evs := []; final := s |}.
Proof.
  intros Ei Hp. destruct vars as [b offsets].
  unfold person_iteration, array_get. rewrite Ei. cbn [default].
  destruct person; try discriminate; reflexivity.
Qed.

Lemma person_loop_raises data k : forall i b offsets s,
  (bb b < List.length (heap s))%nat ->
  (i + k <= List.length data)%nat ->
  forallb has_properties (take k (drop i data)) = false ->
  res (for_each (person_iteration data) (seq i k) (b, offsets) s) = None /\
  evs (for_each (person_iteration data) (seq i k) (b, offsets) s) = [].
Proof.
  induction k as [|k IH]; intros i b offsets s Hb Hi Hall; [discriminate|].
  cbn [seq for_each].
  destruct (lookup_lt_is_Some_2 data i ltac:(lia)) as [person Ei].
  rewrite (drop_S _ _ _ Ei) in Hall. cbn [take forallb] in Hall.
  destruct (has_properties person) eqn:Hp.
  - destruct (person_iteration_returns data i b offsets s person Hb Ei Hp)
      as (b1 & o1 & s1 & E1 & Hb1).
    rewrite (bind_eq _ _ _ _ _ _ E1), after_nil.
    apply IH; [exact Hb1|lia|exact Hall].
  - rewrite (bind_None _ _ _) by now rewrite (person_iteration_raises _ _ _ _ _ Ei Hp).
    rewrite (person_iteration_raises _ _ _ _ _ Ei Hp). auto.
Qed.

Lemma large_flatbuffers_serializing_raises data s :
  forallb has_properties data = false ->
  large_flatbuffers_serializing data s
  = {| res := None; evs := [];
       final := final (large_flatbuffers_serializing data s) |}.
Proof.
  intros Hall.
  assert (E : res (large_flatbuffers_building data s) = None).
  { unfold large_flatbuffers_building.
    rewrite (bind_eq _ _ _ _ _ _ (new_Builder_spec _ s)), after_nil.
    set (b0 := {| bb := List.length (heap s); state := Builder_new _ |}).
    set (s0 := {| ticks := ticks s; heap := heap s ++ [_] |}).
    destruct (person_loop_raises data (List.length data) 0 b0 [] s0) as [R _];
      [unfold b0, s0; cbn [bb heap]; rewrite length_app; cbn [List.length]; lia
      |lia|now rewrite drop_0, firstn_all|].
    unfold for_range. now rewrite (bind_None _ _ _ R). }
  unfold large_flatbuffers_serializing. rewrite (bind_None _ _ _ E).
  now rewrite (silent_large_flatbuffers_building data s).
Qed.

End Persons.

(** X8.  [testLargeFlatBuffers] reads five properties of every entry of the
    data set.  It returns a result exactly when no entry is [null] or
    [undefined]; otherwise reading the property raises inside the
    serializing pass, and the test ends having read the clock once and
    without having serialized, deserialized or logged anything. *)
Theorem large_flatbuffers_needs_every_entry `{Externals} (clock : nat -> number)
    (largeJsonData : list value) (s : State) :
  let o := WebLarge.testLargeFlatBuffers clock largeJsonData s in
  (is_Some (res o) <-> forallb has_properties largeJsonData = true) /\
  (res o = None -> evs o = [Now]).
Proof.
  cbv zeta. rewrite WebLarge_testLargeFlatBuffers_protocol.
  rewrite protocol_run; [|clock_free|clock_free|clock_free].
  unfold protocol_outcome. cbv zeta. cbn [ret res evs final app].
  destruct (forallb has_properties largeJsonData) eqn:Hall.
  - destruct (large_flatbuffers_serializing_returns largeJsonData (tick s) Hall)
      as [v Ev].
    rewrite Ev.
    destruct (large_flatbuffers_deserializing_events v
                (tick (tick (final (large_flatbuffers_serializing largeJsonData
                                      (tick s))))))
      as ([[] R2] & _). cbv zeta in R2. rewrite R2. cbn [res].
    split; [split; [reflexivity|eexists; reflexivity]|discriminate].
  - rewrite (large_flatbuffers_serializing_raises largeJsonData (tick s) Hall).
    cbn [res evs]. split; [|reflexivity].
    split; [intros [? ?]|]; discriminate.
Qed.

Section Defaults.
Context `{Externals}.

Lemma get_property_property v key s :
  has_properties v = true ->
  get_property v key s = {| res := Some (property v key); evs := []; final := s |}.
Proof. destruct v; intros Hv; try discriminate; reflexivity. Qed.

Lemma for_each_ext {S} (body body' : nat -> S -> M S) indices :
  (forall i, i ∈ indices -> forall acc s, body i acc s = body' i acc s) ->
  forall acc s, for_each body indices acc s = for_each body' indices acc s.
Proof.
  induction indices as [|i rest IH]; intros Hb acc s; [reflexivity|].
  cbn [for_each]. unfold bind. rewrite (Hb i) by left.
  destruct (res (body' i acc s)) as [a|]; [|reflexivity].
  rewrite IH; [reflexivity|]. intros j Hj. apply Hb. now right.
Qed.

Lemma person_iteration_record data i vars s person :
  data !! i = Some person -> has_properties person = true ->
  person_iteration data i vars s = person_written (person_record person) vars s.
Proof.
  intros Ei Hp. destruct vars as [b offsets].
  unfold person_iteration, person_written, array_get. rewrite Ei.
  cbn [default person_record lookup list_lookup from_option id].
  rewrite (bind_eq _ _ _ _ _ _ (get_property_property person "name" s Hp)), after_nil.
  apply bind_ext. intros [b1 o1] s1.
  rewrite (bind_eq _ _ _ _ _ _ (get_property_property person "language" s1 Hp)),
    after_nil.
  apply bind_ext. intros [b2 o2] s2.
  rewrite (bind_eq _ _ _ _ _ _ (get_property_property person "id" s2 Hp)), after_nil.
  apply bind_ext. intros [b3 o3] s3.
  rewrite (bind_eq _ _ _ _ _ _ (get_property_property person "bio" s3 Hp)), after_nil.
  apply bind_ext. intros [b4 o4] s4.
  rewrite (bind_eq _ _ _ _ _ _ (get_property_property person "version" s4 Hp)),
    after_nil.
  reflexivity.
Qed.

Lemma person_iteration_same data data' i vars s :
  Forall2 same_person data data' ->
  person_iteration data i vars s = person_iteration data' i vars s.
Proof.
  intros Hsame.
  destruct (data !! i) as [p|] eqn:Ei.
  - destruct (Forall2_lookup_l _ _ _ _ _ Hsame Ei) as (q & Eq & Hp & Hr).
    destruct (has_properties p) eqn:Hpp.
    + rewrite (person_iteration_record data i vars s p Ei Hpp).
      rewrite (person_iteration_record data' i vars s q Eq) by congruence.
      now rewrite Hr.
    + rewrite (person_iteration_raises data i vars s p Ei Hpp).
      now rewrite (person_iteration_raises data' i vars s q Eq) by congruence.
  - assert (Eq : data' !! i = None).
    { apply lookup_ge_None. rewrite <- (Forall2_length _ _ _ Hsame).
      now apply lookup_ge_None. }
    destruct vars as [b offsets]. unfold person_iteration, array_get.
    now rewrite Ei, Eq.
Qed.

Lemma protocol_ext {X A} clock label n (setup : M X) (ser ser' : X -> M A)
    (de : X -> A -> M unit) s :
  (forall x s', ser x s' = ser' x s') ->
  protocol clock label n setup ser de s = protocol clock label n setup ser' de s.
Proof.
  intros E. unfold protocol. apply bind_ext. intros x s0.
  apply bind_ext. intros t0 s1. unfold bind at 1 3. now rewrite E.
Qed.

End Defaults.

(** X9.  [testLargeFlatBuffers] writes [person.name || ''], and the like for
    [language], [id], [bio], and [person.version || 0.0].  A property
    that is missing, [null], [undefined], [false], [0], [NaN] or the
    empty string is written as its default: two data sets whose entries
    agree once the defaults are put in make the test do exactly the same
    thing. *)
Theorem missing_properties_get_their_default `{Externals} (clock : nat -> number)
    (data data' : list value) (s : State) :
  Forall2 same_person data data' ->
  WebLarge.testLargeFlatBuffers clock data s
  = WebLarge.testLargeFlatBuffers clock data' s.
Proof.
  intros Hsame. rewrite !WebLarge_testLargeFlatBuffers_protocol.
  apply protocol_ext. intros [] s'.
  unfold large_flatbuffers_serializing, large_flatbuffers_building.
  rewrite !bind_assoc. apply bind_ext. intros b s0.
  rewrite !bind_assoc. rewrite (Forall2_length _ _ _ Hsame).
  unfold for_range, bind at 1 3.
  rewrite (for_each_ext (person_iteration data) (person_iteration data'))
    by (intros i _ acc s1; now apply person_iteration_same).
  reflexivity.
Qed.

Section LargeCodecs.
Context `{Externals}.
Variables (clock : nat -> number) (s : State).

Lemma large_codec_outcome {P} (wrap : P -> payload) (p : P) label
    (dec : P -> option value) (text : string) :
  let o := protocol clock label 1 (ret tt) (fun _ => encoder_call wrap p)
             (fun _ serialized =>
                parsed <- decoder_call wrap Any dec (Some serialized) ;;
                let sum := array_length_or_0 parsed in
                when (sum =? 0) (console_log [VString text; VNumber (of_Z sum)])) s in
  serialized_payloads (evs o) = [wrap p] /\
  deserialized_payloads (evs o) = [wrap p] /\
  match dec p with
  | Some parsed =>
      res o = Some (result_at clock label 1 (ticks s)) /\
      decoded_values (evs o) = [Any parsed] /\
      logged (evs o) = if array_length_or_0 parsed =? 0
                       then [[VString text; VNumber (of_Z 0)]] else []
  | None =>
      res o = None /\ decoded_values (evs o) = [Threw] /\
      logged (evs o) = [] /\ reads (evs o) = 3%nat
  end.
Proof.
  cbv zeta.
  rewrite (protocol_of_passes label 1 (ret tt) (fun _ => encoder_call wrap p) _)
    with (s0 := s) (s1 := tick s) (x := tt) (a := p) (e1 := [Serialize (wrap p)]);
    [|clock_free|clock_free|clock_free|reflexivity|reflexivity].
  cbv zeta. unfold bind. cbn [decoder_call].
  destruct (dec p) as [parsed|]; cbn [bind emit ret throw res evs final app].
  - destruct (Z.eqb_spec (array_length_or_0 parsed) 0) as [E|N].
    + rewrite E. cbn. repeat split; reflexivity.
    + cbn. repeat split; reflexivity.
  - cbn. repeat split; reflexivity.
Qed.

End LargeCodecs.

(** X10.  [testLargeJSON] and [testLargeMessagePack] count the decoded value as
    [Array.isArray(parsed) ? parsed.length : 0].  When the decoder
    returns, the test returns its result and logs the sum exactly when
    what was decoded is an empty array or not an array at all; when the
    decoder rejects the payload the test ends there, after three clock
    readings, without a result and without logging. *)
Theorem large_codec_counts_the_decoded_array `{Externals} (f : test_function)
    (clock : nat -> number) (ITERATIONS : nat) (largeJsonData : list value)
    (s : State) :
  large_codec f = true ->
  let o := run_test f clock ITERATIONS largeJsonData s in
  match large_decoded f largeJsonData with
  | Some parsed =>
      res o = Some (result_at clock (label_of f) 1 (ticks s)) /\
      decoded_values (evs o) = [Any parsed] /\
      logged (evs o)
      = match parsed with
        | VArray (_ :: _) => []
        | _ => [[VString (large_sum_label f); VNumber (of_Z 0)]]
        end
  | None =>
      res o = None /\ decoded_values (evs o) = [Threw] /\
      logged (evs o) = [] /\ reads (evs o) = 3%nat
  end.
Proof.
  intros Hf. cbv zeta.
  destruct f; try discriminate; cbn [run_test large_decoded label_of large_sum_label].
  - rewrite WebLarge_testLargeJSON_protocol.
    unfold large_json_deserializing, parse_value, stringify_value.
    destruct (large_codec_outcome clock s Text (JSON_stringify_value (VArray largeJsonData))
                "JSON (5MB)" JSON_parse_value "Large JSON sum:") as (_ & _ & O).
    cbv zeta in O.
    destruct (JSON_parse_value _) as [parsed|]; [|exact O].
    destruct O as (R & D & L). rewrite L. repeat split; try assumption.
    destruct parsed as [| | | | |[|item items]|]; reflexivity.
  - rewrite WebLarge_testLargeMessagePack_protocol.
    unfold large_msgpack_deserializing, msgpack_decode_value, msgpack_encode_value.
    destruct (large_codec_outcome clock s Bytes (encode_value (VArray largeJsonData))
                "MessagePack (5MB)" decode_value "Large MessagePack sum:")
      as (_ & _ & O).
    cbv zeta in O.
    destruct (decode_value _) as [parsed|]; [|exact O].
    destruct O as (R & D & L). rewrite L. repeat split; try assumption.
    destruct parsed as [| | | | |[|item items]|]; reflexivity.
Qed.

Section FreshBuilders.
Context `{Externals}.

Lemma fresh_views (iteration : nat -> list Uint8Array -> M (list Uint8Array))
    (payload_of : nat -> list Byte.byte) n s :
  (forall i acc s, exists v h',
     iteration i acc s
     = {| res := Some (push acc v);
          evs := [Serialize (Bytes (payload_of i))];
          final := {| ticks := ticks s; heap := h' |} |} /\
     (List.length (heap s) <= List.length h')%nat /\
     (forall k, (k < List.length (heap s))%nat -> h' !! k = heap s !! k) /\
     (buffer v < List.length h')%nat /\
     byteLength v = List.length (payload_of i) /\
     read_heap h' v = payload_of i) ->
  let o := for_range n [] iteration s in
  exists views,
    res o = Some views /\
    List.length views = n /\
    (forall k, (k < List.length (heap s))%nat -> heap (final o) !! k = heap s !! k) /\
    forall i, (i < n)%nat ->
      exists v, views !! i = Some v /\ read_heap (heap (final o)) v = payload_of i.
Proof.
  intros Hit. cbv zeta.
  destruct (fresh_loop iteration payload_of Hit n 0 [] s)
    as (vs & h' & E & _ & Fr & L & In).
  unfold for_range. rewrite E. cbn [res final heap app].
  exists vs. repeat split; try assumption.
  intros i Hi. destruct (In i Hi) as (v & Ev & _ & Rv). exists v. auto.
Qed.

End FreshBuilders.

(** X11.  The two [testFlatBuffers] of [SerializationTest.tsx] store
    [builder.asUint8Array()] without copying it.  Every iteration makes
    a builder of its own, so the [N] views are windows on [N] different
    buffers: when the serializing loop ends view [i] still reads payload
    [i], and no buffer that existed before the loop has changed. *)
Theorem fresh_builders_keep_their_payloads `{Externals} (by_hand : bool)
    (N : nat) (s : State) :
  let o := if by_hand then lowlevel_serializing N s
           else native_flatbuffers_serializing N s in
  let payloads := if by_hand then lowlevel_payloads N else native_payloads N in
  exists views,
    res o = Some views /\
    List.length views = N /\
    (forall k, (k < List.length (heap s))%nat -> heap (final o) !! k = heap s !! k) /\
    forall i, (i < N)%nat ->
      exists v, views !! i = Some v /\
                payloads !! i = Some (read_heap (heap (final o)) v).
Proof.
  cbv zeta. destruct by_hand.
  - destruct (fresh_views lowlevel_iteration (fun i => written (fresh_by_hand i)) N s
                lowlevel_iteration_spec) as (views & R & L & Fr & In).
    exists views. repeat split; try assumption.
    intros i Hi. destruct (In i Hi) as (v & Ev & Rv). exists v. split; [exact Ev|].
    unfold lowlevel_serializing. rewrite Rv. unfold lowlevel_payloads.
    now rewrite list_lookup_fmap, lookup_seq_lt.
  - destruct (fresh_views native_flatbuffers_iteration (fun i => written (fresh_table i))
                N s native_iteration) as (views & R & L & Fr & In).
    exists views. repeat split; try assumption.
    intros i Hi. destruct (In i Hi) as (v & Ev & Rv). exists v. split; [exact Ev|].
    unfold native_flatbuffers_serializing. rewrite Rv. unfold native_payloads.
    now rewrite list_lookup_fmap, lookup_seq_lt.
Qed.

Section NoWarning.
Context `{Externals}.

Lemma warnings_none t : Forall not_a_warning t -> warnings t = [].
Proof.
  induction 1 as [|e t He _ IH]; [reflexivity|].
  destruct e; try contradiction; exact IH.
Qed.

Lemma not_a_warning_now clock : emits not_a_warning (performance_now clock).
Proof. intros s. repeat constructor. Qed.

Lemma not_a_warning_view b : emits not_a_warning (asUint8Array b).
Proof. intros s. repeat constructor. Qed.

End NoWarning.

(** X12.  Only the two [testFlatBuffers] of [SerializationTest.tsx] compare
    what they decode with what they expect.  No other test, on the web
    page or on the screen, ever warns: whatever its decoder returns is
    taken as it is. *)
Theorem unchecked_tests_never_warn `{Externals} (f : test_function)
    (clock : nat -> number) (ITERATIONS : nat) (largeJsonData : list value)
    (s : State) :
  checks_decoded f = false ->
  warnings (evs (run_test f clock ITERATIONS largeJsonData s)) = [].
Proof.
  intros Hf. apply warnings_none. revert s.
  change (emits not_a_warning (run_test f clock ITERATIONS largeJsonData)).
  pose proof (not_a_warning_now clock). pose proof not_a_warning_view.
  destruct f; try discriminate; cbn [run_test];
    unfold WebLarge.testMessagePack, WebLarge.testFlatBuffers,
      NativeLowLevel.testJSON, NativeLowLevel.testMessagePack.
  all: emits.
Qed.

(** ** The trigger during a run *)
Section Trigger.

Lemma trigger_changes_app t1 t2 :
  trigger_changes (t1 ++ t2) = trigger_changes t1 ++ trigger_changes t2.
Proof. apply omap_app. Qed.

Lemma trigger_changes_quiet t : ui_changes t = [] -> trigger_changes t = [].
Proof.
  induction t as [|e t IH]; [reflexivity|].
  destruct e; try (intros Ht; exact (IH Ht)). discriminate.
Qed.

Lemma ui_changes_nil_app t1 t2 : ui_changes (t1 ++ t2) = [] -> ui_changes t1 = [].
Proof. rewrite ui_changes_app. intros Ht. now apply app_eq_nil in Ht. Qed.

Lemma no_work_in_Ui cs t : t `suffix_of` map Ui cs -> existsb is_work t = false.
Proof.
  intros [k Hk]. revert k Hk. induction cs as [|c cs IH]; intros k Hk.
  - symmetry in Hk. apply app_eq_nil in Hk. now destruct Hk as [_ ->].
  - destruct k as [|e k].
    + cbn [app] in Hk. subst t. cbn. clear. induction cs; auto.
    + cbn [map app] in Hk. injection Hk as _ Hk. now apply (IH k).
Qed.

(** Between the opening changes of the controls and the closing ones. *)
Lemma disabled_between (opening_ closing_ : list ui_change) middle t1 t2 :
  t1 ++ t2 = map Ui opening_ ++ middle ++ map Ui closing_ ->
  ui_changes middle = [] ->
  opening_ <> [] ->
  (forall k, k `prefix_of` map Ui opening_ -> k <> [] ->
     last (trigger_changes k) = Some true) ->
  t1 <> [] -> existsb is_work t2 = true ->
  trigger_disabled_after t1 = Some true.
Proof.
  intros E Hm Ho Hopen Ht1 Ht2. unfold trigger_disabled_after.
  rewrite app_assoc in E. apply app_eq_inv in E.
  destruct E as [(k & E1 & E2)|(k & E1 & E2)].
  - exfalso. rewrite (no_work_in_Ui closing_ t2) in Ht2; [discriminate|].
    exists k. exact E2.
  - apply app_eq_inv in E1.
    destruct E1 as [(k' & E1 & E3)|(k' & E1 & E3)].
    + apply Hopen; [now exists k'|exact Ht1].
    + subst t1. rewrite trigger_changes_app.
      rewrite (trigger_changes_quiet k')
        by (apply (ui_changes_nil_app k' k); now rewrite <- E3).
      rewrite app_nil_r. apply Hopen; [reflexivity|].
      destruct opening_; [now destruct Ho|discriminate].
Qed.

End Trigger.

Lemma opening_disables r k :
  k `prefix_of` map Ui (opening r) -> k <> [] ->
  last (trigger_changes k) = Some true.
Proof.
  intros [k' Hk] Hne.
  destruct k as [|e1 k]; [now destruct Hne|].
  destruct r; cbn [opening map app] in Hk; injection Hk as <- Hk.
  all: repeat (destruct k as [|? k];
               [reflexivity|cbn [app] in Hk; try discriminate; injection Hk as <- Hk]).
  all: discriminate.
Qed.

(** X5.  From the first step of a run until its last test, drawing or pause
    is over, the trigger is disabled: at every point of the trace after
    which work is still to come, the last thing done to the trigger was
    to disable it.  So a run cannot be started while one is going on,
    and after a run that raised the trigger stays disabled. *)
Theorem trigger_disabled_during_a_run `{Externals} (r : runner)
    (clock : nat -> number) (ITERATIONS : nat) (largeJsonData : list value)
    (s : State) (done coming : list event) :
  evs (run_all r clock ITERATIONS largeJsonData s) = done ++ coming ->
  done <> [] ->
  existsb is_work coming = true ->
  trigger_disabled_after done = Some true.
Proof.
  intros E Hd Hc.
  destruct (run_all_controls r clock ITERATIONS largeJsonData s)
    as ((middle & Em & Hm) & _).
  cbv zeta in Em. rewrite E in Em.
  apply (disabled_between (opening r)
           (match res (run_all r clock ITERATIONS largeJsonData s) with
            | Some _ => closing r
            | None => []
            end) middle done coming Em Hm).
  - destruct r; discriminate.
  - apply opening_disables.
  - exact Hd.
  - exact Hc.
Qed.

(** ** Further instances on the stand-in libraries *)

Lemma trigger_disabled_during_a_run_on_StandIn :
  let t := evs (@run_all StandIn.externals Native_runAllTests StandIn.clock 1 []
                  StandIn.start) in
  trigger_disabled_after (take 2 t) = Some true.
Proof.
  cbv zeta.
  apply (@trigger_disabled_during_a_run StandIn.externals Native_runAllTests
           StandIn.clock 1 [] StandIn.start
           (take 2 (evs (@run_all StandIn.externals Native_runAllTests StandIn.clock 1 []
                           StandIn.start)))
           (drop 2 (evs (@run_all StandIn.externals Native_runAllTests StandIn.clock 1 []
                           StandIn.start)))).
  - vm_compute. reflexivity.
  - vm_compute. discriminate.
  - vm_compute. reflexivity.
Defined.


Lemma sum_is_logged_only_when_zero_on_StandIn :
  uses_codec WebLarge_testJSON = true /\
  @round_trips StandIn.externals WebLarge_testJSON 3 /\
  logged (evs (@run_test StandIn.externals WebLarge_testJSON StandIn.clock 3 []
                 StandIn.start)) = [].
Proof.
  split; [reflexivity|]. split; [exact StandIn_round_trips|].
  exact (@sum_is_logged_only_when_zero StandIn.externals WebLarge_testJSON
           StandIn.clock 3 [] StandIn.start eq_refl StandIn_round_trips).
Defined.

Lemma missing_properties_get_their_default_on_StandIn :
  let bare := [VObject [("id", VString "7")]; VArray []] in
  let full := [VObject [("name", VString ""); ("language", VNull);
                        ("id", VString "7"); ("bio", VUndefined);
                        ("version", VNumber zero)];
               VObject []] in
  Forall2 same_person bare full /\
  @WebLarge.testLargeFlatBuffers StandIn.externals StandIn.clock bare StandIn.start
  = @WebLarge.testLargeFlatBuffers StandIn.externals StandIn.clock full StandIn.start.
Proof.
  cbv zeta.
  assert (Hsame : Forall2 same_person
                    [VObject [("id", VString "7")]; VArray []]
                    [VObject [("name", VString ""); ("language", VNull);
                              ("id", VString "7"); ("bio", VUndefined);
                              ("version", VNumber zero)];
                     VObject []]).
  { constructor; [split; reflexivity|].
    constructor; [split; reflexivity|]. constructor. }
  split; [exact Hsame|].
  exact (@missing_properties_get_their_default StandIn.externals StandIn.clock _ _
           StandIn.start Hsame).
Defined.

Lemma large_codec_counts_the_decoded_array_on_StandIn :
  large_codec WebLarge_testLargeJSON = true /\
  let o := @run_test StandIn.externals WebLarge_testLargeJSON StandIn.clock 5 []
             StandIn.start in
  match @large_decoded StandIn.externals WebLarge_testLargeJSON [] with
  | Some parsed =>
      res o = Some (result_at StandIn.clock "JSON (5MB)" 1 0) /\
      decoded_values (evs o) = [Any parsed] /\
      logged (evs o)
      = match parsed with
        | VArray (_ :: _) => []
        | _ => [[VString "Large JSON sum:"; VNumber (of_Z 0)]]
        end
  | None =>
      res o = None /\ decoded_values (evs o) = [Threw] /\
      logged (evs o) = [] /\ reads (evs o) = 3%nat
  end.
Proof.
  split; [reflexivity|].
  exact (@large_codec_counts_the_decoded_array StandIn.externals WebLarge_testLargeJSON
           StandIn.clock 5 [] StandIn.start eq_refl).
Defined.

Lemma unchecked_tests_never_warn_on_StandIn :
  checks_decoded Web_testFlatBuffers = false /\
  warnings (evs (@run_test StandIn.externals Web_testFlatBuffers StandIn.clock 3 []
                   StandIn.start)) = [].
Proof.
  split; [reflexivity|].
  exact (@unchecked_tests_never_warn StandIn.externals Web_testFlatBuffers
           StandIn.clock 3 [] StandIn.start eq_refl).
Defined.

(** ** The total time *)
Section TotalTime.

(** The sum of two doubles that are at least zero is at least zero:
    addition rounds the exact sum and rounding keeps the sign. *)
Lemma add_nonneg (x y : number) :
  nonneg x = true -> nonneg y = true -> nonneg (add x y) = true.
Proof.
  intros Hx Hy.
  destruct x as [sx|sx| |sx mx ex]; try discriminate;
    destruct y as [sy|sy| |sy my ey]; try discriminate;
    try (destruct sx; try discriminate); try (destruct sy; try discriminate);
    try reflexivity.
  unfold add, SFadd. apply binary_normalize_nonneg.
  cbn [cond_Zopp]. 
  destruct (shl_align mx ex (Z.min ex ey)) as [m1 e1].
  destruct (shl_align my ey (Z.min ex ey)) as [m2 e2].
  cbn [fst]. lia.
Qed.

End TotalTime.

(** X13.  Under a clock whose readings are finite doubles and never go
    back, the [totalTime] of a returned result is at least zero: it is
    the sum of two measured times that are. *)
Theorem total_time_nonneg `{Externals} (f : test_function)
    (clock : nat -> number) (ITERATIONS : nat) (largeJsonData : list value)
    (s : State) :
  finite_readings clock ->
  monotone clock ->
  match res (run_test f clock ITERATIONS largeJsonData s) with
  | Some r => nonneg (totalTime r) = true
  | None => True
  end.
Proof.
  intros Hfin Hmono.
  destruct (res (run_test f clock ITERATIONS largeJsonData s)) as [r|] eqn:R; [|exact I].
  destruct (returned_result clock ITERATIONS largeJsonData f s r R) as [-> _].
  unfold result_at. cbn [totalTime].
  apply add_nonneg; apply sub_nonneg; auto; apply Hmono.
Qed.

Lemma total_time_nonneg_on_StandIn :
  finite_readings StandIn.clock /\ monotone StandIn.clock /\
  match res (@run_test StandIn.externals Native_testMessagePack StandIn.clock 2 []
               StandIn.start) with
  | Some r => nonneg (totalTime r) = true
  | None => True
  end.
Proof.
  split; [exact StandIn_clock_finite|]. split; [exact StandIn_clock_monotone|].
  exact (@total_time_nonneg StandIn.externals Native_testMessagePack StandIn.clock 2 []
           StandIn.start StandIn_clock_finite StandIn_clock_monotone).
Defined.
